(** * The nx migrate planner: a shallow embedding and its properties

    The development follows [packages/nx/src/command-line/migrate.ts]:
    the version normaliser, the target parser, the [Migrator] class (the
    planner), the fetcher and the manifest updater.  JavaScript strings are
    modelled as Rocq strings (sequences of 8-bit characters), JavaScript
    objects whose iteration order is observed as insertion-ordered
    association lists, and the two dependency sections of the root manifest,
    which are only read and written by key, as finite maps. *)

From Stdlib Require Import String Ascii List NArith Bool Lia.
From stdpp Require Import base option list strings gmap.

Import ListNotations.
Local Open Scope string_scope.
Local Open Scope list_scope.

Set Default Proof Using "Type".

(** ** JavaScript strings *)

Module Js.

(** [s.split(sep)] for a one-character separator: never empty, and the
    empty string splits into one empty piece. *)
Fixpoint split (sep : ascii) (s : string) : list string :=
  match s with
  | EmptyString => [EmptyString]
  | String c s' =>
      if Ascii.eqb c sep then EmptyString :: split sep s'
      else match split sep s' with
           | [] => [String c EmptyString]
           | h :: t => String c h :: t
           end
  end.

(** [s.indexOf(c) > -1]. *)
Fixpoint includes (c : ascii) (s : string) : bool :=
  match s with
  | EmptyString => false
  | String d s' => Ascii.eqb d c || includes c s'
  end.

(** Cuts [s] at its first [sep]: the text before it, and the text after it
    when there is one. *)
Fixpoint cutFirst (sep : ascii) (s : string) : string * option string :=
  match s with
  | EmptyString => (EmptyString, None)
  | String c s' =>
      if Ascii.eqb c sep then (EmptyString, Some s')
      else let '(h, t) := cutFirst sep s' in (String c h, t)
  end.

(** Cuts [s] at its last [sep] ([lastIndexOf] with the two [substring]s). *)
Fixpoint cutLast (sep : ascii) (s : string) : option (string * string) :=
  match s with
  | EmptyString => None
  | String c s' =>
      match cutLast sep s' with
      | Some (h, t) => Some (String c h, t)
      | None => if Ascii.eqb c sep then Some (EmptyString, s') else None
      end
  end.

Definition isWhitespace (c : ascii) : bool :=
  let n := N_of_ascii c in
  (N.eqb n 32 || (N.leb 9 n && N.leb n 13))%N.

Fixpoint trimStart (s : string) : string :=
  match s with
  | String c s' => if isWhitespace c then trimStart s' else s
  | EmptyString => EmptyString
  end.

Fixpoint trimEnd (s : string) : string :=
  match s with
  | EmptyString => EmptyString
  | String c s' =>
      match trimEnd s' with
      | EmptyString =>
          if isWhitespace c then EmptyString else String c EmptyString
      | t => String c t
      end
  end.

(** [s.trim()], on the ASCII white space. *)
Definition trim (s : string) : string := trimEnd (trimStart s).

Fixpoint all (p : ascii -> bool) (s : string) : bool :=
  match s with
  | EmptyString => true
  | String c s' => p c && all p s'
  end.

(** A string is falsy exactly when it is empty; [undefined] and [null] are
    [None]. *)
Definition truthy (v : option string) : bool :=
  match v with
  | Some s => negb (String.eqb s EmptyString)
  | None => false
  end.

(** The template [${x || 0}] for a string or [undefined] [x]. *)
Definition orZero (v : option string) : string :=
  if truthy v then default "0" v else "0".

End Js.

(** ** The semver package

    [migrate.ts] imports [clean], [coerce], [gt], [gte], [lt], [lte],
    [satisfies] and [valid] from the npm package [semver].  The comparison
    functions and [valid] are modelled here after the package's strict
    parser ([new SemVer(v)]) and its [compare]; a comparison of a string that
    does not parse throws, which is [None].  Numeric identifiers are exact
    naturals, and the white space that is trimmed is the ASCII one.  The
    functions that take a range stay parameters of the planner. *)

Module Semver.

Definition MAX_LENGTH : nat := 256.
Definition MAX_SAFE_INTEGER : N := 9007199254740991.

Inductive Identifier :=
| IdNum (n : N)
| IdStr (s : string).

Record SemVer := mkSemVer {
  major : N;
  minor : N;
  patch : N;
  prerelease : list Identifier;
  build : list string
}.

Definition isDigit (c : ascii) : bool :=
  let n := N_of_ascii c in (N.leb 48 n && N.leb n 57)%N.

Definition isLetter (c : ascii) : bool :=
  let n := N_of_ascii c in
  ((N.leb 65 n && N.leb n 90) || (N.leb 97 n && N.leb n 122))%N.

Definition isIdentChar (c : ascii) : bool :=
  isDigit c || isLetter c || Ascii.eqb c "-".

Fixpoint digitsValue (acc : N) (s : string) : N :=
  match s with
  | EmptyString => acc
  | String c s' => digitsValue (10 * acc + (N_of_ascii c - 48))%N s'
  end.

(** [0|[1-9]\d*] *)
Definition isNumericIdentifier (s : string) : bool :=
  match s with
  | EmptyString => false
  | String c s' =>
      Js.all isDigit s && (negb (Ascii.eqb c "0") || String.eqb s' EmptyString)
  end.

(** A main version component: a numeric identifier not above
    [MAX_SAFE_INTEGER]. *)
Definition parseComponent (s : string) : option N :=
  if isNumericIdentifier s then
    let n := digitsValue 0 s in
    if N.leb n MAX_SAFE_INTEGER then Some n else None
  else None.

(** [0|[1-9]\d*|\d*[a-zA-Z-][a-zA-Z0-9-]*] *)
Definition parseIdentifier (s : string) : option Identifier :=
  if isNumericIdentifier s then Some (IdNum (digitsValue 0 s))
  else if negb (String.eqb s EmptyString) && Js.all isIdentChar s
          && negb (Js.all isDigit s)
       then Some (IdStr s)
       else None.

(** [[0-9A-Za-z-]+] *)
Definition parseBuildIdentifier (s : string) : option string :=
  if negb (String.eqb s EmptyString) && Js.all isIdentChar s
  then Some s else None.

Fixpoint traverse {A B} (f : A -> option B) (l : list A) : option (list B) :=
  match l with
  | [] => Some []
  | x :: l' =>
      match f x, traverse f l' with
      | Some y, Some ys => Some (y :: ys)
      | _, _ => None
      end
  end.

Definition stripV (s : string) : string :=
  match s with
  | String "v" s' => s'
  | _ => s
  end.

(** The strict pattern
    [^v?MAJOR.MINOR.PATCH(-PRERELEASE)?(\+BUILD)?$], with the bound on the
    three numbers. *)
Definition matchFull (s : string) : option SemVer :=
  let '(mainPre, buildPart) := Js.cutFirst "+" (stripV s) in
  let '(main, prePart) := Js.cutFirst "-" mainPre in
  match Js.split "." main with
  | [ma; mi; pa] =>
      match parseComponent ma, parseComponent mi, parseComponent pa with
      | Some a, Some b, Some c =>
          let pre :=
            match prePart with
            | None => Some []
            | Some p => traverse parseIdentifier (Js.split "." p)
            end in
          let bld :=
            match buildPart with
            | None => Some []
            | Some p => traverse parseBuildIdentifier (Js.split "." p)
            end in
          match pre, bld with
          | Some ps, Some bs => Some (mkSemVer a b c ps bs)
          | _, _ => None
          end
      | _, _, _ => None
      end
  | _ => None
  end.

(** [new SemVer(version)] in strict mode: the pattern is matched against the
    trimmed string; [None] is a throw. *)
Definition parse (version : string) : option SemVer :=
  if Nat.ltb MAX_LENGTH (String.length version) then None
  else matchFull (Js.trim version).

(** Lexicographic combination of two comparisons. *)
Definition lexc (c1 c2 : comparison) : comparison :=
  match c1 with
  | Eq => c2
  | c => c
  end.

Definition compareAscii (a b : ascii) : comparison :=
  N.compare (N_of_ascii a) (N_of_ascii b).

(** The order of JavaScript's [<] on strings. *)
Fixpoint compareString (a b : string) : comparison :=
  match a, b with
  | EmptyString, EmptyString => Eq
  | EmptyString, String _ _ => Lt
  | String _ _, EmptyString => Gt
  | String x a', String y b' => lexc (compareAscii x y) (compareString a' b')
  end.

(** [compareIdentifiers]: numbers numerically, a number below a string,
    strings in code order. *)
Definition compareIdentifiers (a b : Identifier) : comparison :=
  match a, b with
  | IdNum x, IdNum y => N.compare x y
  | IdNum _, IdStr _ => Lt
  | IdStr _, IdNum _ => Gt
  | IdStr x, IdStr y => compareString x y
  end.

Fixpoint compareIdentifierLists (a b : list Identifier) : comparison :=
  match a, b with
  | [], [] => Eq
  | [], _ :: _ => Lt
  | _ :: _, [] => Gt
  | x :: a', y :: b' =>
      lexc (compareIdentifiers x y) (compareIdentifierLists a' b')
  end.

(** [comparePre]: a version without a prerelease is above one with. *)
Definition comparePre (a b : list Identifier) : comparison :=
  match a, b with
  | [], [] => Eq
  | _ :: _, [] => Lt
  | [], _ :: _ => Gt
  | _, _ => compareIdentifierLists a b
  end.

Definition compareMain (a b : SemVer) : comparison :=
  lexc (N.compare (major a) (major b))
    (lexc (N.compare (minor a) (minor b)) (N.compare (patch a) (patch b))).

(** [SemVer.compare]; the build metadata takes no part. *)
Definition compareSemVer (a b : SemVer) : comparison :=
  lexc (compareMain a b) (comparePre (prerelease a) (prerelease b)).

(** [compare(a, b)]: throws when one side does not parse. *)
Definition compare (a b : string) : option comparison :=
  match parse a, parse b with
  | Some x, Some y => Some (compareSemVer x y)
  | _, _ => None
  end.

Definition isGt (c : comparison) : bool :=
  match c with Gt => true | _ => false end.
Definition isLt (c : comparison) : bool :=
  match c with Lt => true | _ => false end.

Definition gt (a b : string) : option bool := isGt <$> compare a b.
Definition lt (a b : string) : option bool := isLt <$> compare a b.
Definition gte (a b : string) : option bool := (negb ∘ isLt) <$> compare a b.
Definition lte (a b : string) : option bool := (negb ∘ isGt) <$> compare a b.

(** [valid(v)] is truthy when [v] itself matches the pattern: the [parse] of
    semver 7.3 tests the pattern before it trims.  (Later versions trim
    first, and then also accept a version with white space around it.) *)
Definition valid (v : string) : bool :=
  if Nat.ltb MAX_LENGTH (String.length v) then false
  else match matchFull v with Some _ => true | None => false end.

End Semver.

(** ** normalizeVersion *)

(** The [for] loop with its [try]/[catch]: the first variation above
    [0.0.0]; a variation that makes [gt] throw is skipped. *)
Fixpoint firstAboveZero (variations : list string) : string :=
  match variations with
  | [] => "0.0.0"
  | variation :: rest =>
      match Semver.gt variation "0.0.0" with
      | Some true => variation
      | _ => firstAboveZero rest
      end
  end.

Definition normalizeVersion (version : string) : string :=
  let parts := Js.split "-" version in
  let semver := default EmptyString (parts !! 0%nat) in
  let prereleaseTag := parts !! 1%nat in
  let numbers := Js.split "." semver in
  let major := numbers !! 0%nat in
  let minor := numbers !! 1%nat in
  let patch := numbers !! 2%nat in
  let newSemver :=
    Js.orZero major +:+ "." +:+ Js.orZero minor +:+ "." +:+ Js.orZero patch in
  let newVersion :=
    if Js.truthy prereleaseTag
    then newSemver +:+ "-" +:+ default EmptyString prereleaseTag
    else newSemver in
  let withoutPatch := Js.orZero major +:+ "." +:+ Js.orZero minor +:+ ".0" in
  let withoutPatchAndMinor := Js.orZero major +:+ ".0.0" in
  firstAboveZero [newVersion; newSemver; withoutPatch; withoutPatchAndMinor].

(** The normaliser in the words of the specification: the version is cut at
    its first ['-'] into the semver part and the prerelease part, which is
    all that follows. *)
Definition normalizeVersionAsSpecified (version : string) : string :=
  let '(semver, prerelease) := Js.cutFirst "-" version in
  let numbers := Js.split "." semver in
  let major := numbers !! 0%nat in
  let minor := numbers !! 1%nat in
  let patch := numbers !! 2%nat in
  let semverOnly :=
    Js.orZero major +:+ "." +:+ Js.orZero minor +:+ "." +:+ Js.orZero patch in
  let full :=
    if Js.truthy prerelease
    then semverOnly +:+ "-" +:+ default EmptyString prerelease
    else semverOnly in
  firstAboveZero
    [full; semverOnly;
     Js.orZero major +:+ "." +:+ Js.orZero minor +:+ ".0";
     Js.orZero major +:+ ".0.0"].

Definition normalizeVersionWithTagCheck (version : string) : string :=
  if String.eqb version "latest" || String.eqb version "next" then version
  else normalizeVersion version.


(** ** JavaScript objects

    An object used as a dictionary keeps its keys in insertion order, which
    [Object.keys], [Object.values] and [Object.entries] observe.  (Keys that
    are canonical array indices are enumerated first by JavaScript; package
    names and update keys are not.) *)

Module Obj.

Definition t (V : Type) : Type := list (string * V).

Fixpoint get {V} (o : t V) (k : string) : option V :=
  match o with
  | [] => None
  | (k', v) :: o' => if String.eqb k' k then Some v else get o' k
  end.

(** [o[k] = v]: an existing key keeps its place, a new key goes last. *)
Fixpoint set {V} (o : t V) (k : string) (v : V) : t V :=
  match o with
  | [] => [(k, v)]
  | (k', v') :: o' =>
      if String.eqb k' k then (k', v) :: o' else (k', v') :: set o' k v
  end.

Definition keys {V} (o : t V) : list string := map fst o.
Definition values {V} (o : t V) : list V := map snd o.
Definition entries {V} (o : t V) : list (string * V) := o.

(** [{...m, ...c}] *)
Definition assign {V} (m c : t V) : t V :=
  fold_left (fun acc kv => set acc (fst kv) (snd kv)) c m.

End Obj.

(** ** Outcomes of a call

    A call returns, throws, or (in the model only) runs out of the fuel that
    bounds the depth of the recursion. *)

Inductive Exception :=
| SemverTypeError (a b : string)
    (** the [TypeError] of the semver package for a comparison of [a] and [b]
        of which one does not parse *)
| NullTypeError
    (** the [TypeError] of reading a property of [null] or [undefined] *)
| Error (message : string).

Inductive Outcome (A : Type) :=
| OutOfFuel
| Threw (e : Exception)
| Returned (a : A).

Arguments OutOfFuel {A}.
Arguments Threw {A} e.
Arguments Returned {A} a.

#[global] Instance Outcome_ret : MRet Outcome := @Returned.

#[global] Instance Outcome_bind : MBind Outcome :=
  fun A B (f : A -> Outcome B) (m : Outcome A) =>
    match m with
    | OutOfFuel => OutOfFuel
    | Threw e => Threw e
    | Returned a => f a
    end.

(** A semver comparison used outside a [try]: a throw propagates. *)
Definition semverCall (f : string -> string -> option bool) (a b : string)
  : Outcome bool :=
  match f a b with
  | Some r => Returned r
  | None => Threw (SemverTypeError a b)
  end.

(** ** The data model

    [migrate.ts] imports its types from [config/misc-interfaces] and
    [utils/package-json]; they are taken from the data model of the
    specification and from the use the code makes of their fields.  An
    optional field is an [option]. *)

Inductive DependencyType := Dependencies | DevDependencies.

(** [false | 'dependencies' | 'devDependencies'] *)
Inductive AddToPackageJson :=
| AddFalse
| AddTo (section : DependencyType).

(** Modelled from the spec: the interface [PackageJsonUpdateForPackage] of
    [config/misc-interfaces]. *)
Record PackageJsonUpdateForPackage := mkUpdateForPackage {
  pu_version : string;
  pu_addToPackageJson : option AddToPackageJson;
  pu_alwaysAddToPackageJson : option bool;
  pu_ifPackageInstalled : option string
}.

(** Modelled from the spec: [PackageJsonUpdates[string]] of
    [config/misc-interfaces], one entry of a manifest's
    [packageJsonUpdates]. *)
Record PackageJsonUpdate := mkPackageJsonUpdate {
  u_version : string;
  u_packages : option (Obj.t PackageJsonUpdateForPackage);
  u_requires : option (Obj.t string);
  u_xprompt : option string
}.

(** Modelled from the spec: an entry of the [generators] of a
    [MigrationsJson] of [config/misc-interfaces]. *)
Record MigrationsJsonEntry := mkMigrationsJsonEntry {
  g_version : option string;
  g_description : option string;
  g_implementation : option string;
  g_factory : option string;
  g_cli : option string;
  g_requires : option (Obj.t string)
}.

(** An element of the final list: [{...migration, package, name}]. *)
Record Migration := mkMigration {
  m_entry : MigrationsJsonEntry;
  m_package : string;
  m_name : string
}.

(** Modelled from the spec: the type [PackageGroup] of
    [utils/package-json], an array of names and of [{package, version}]
    objects, or an object from names to versions. *)
Inductive PackageGroupItem :=
| GroupName (package : string)
| GroupEntry (package version : string).

Inductive PackageGroup :=
| GroupList (items : list PackageGroupItem)
| GroupMap (members : Obj.t string).

(** [ResolvedMigrationConfiguration]: a [MigrationsJson] with its version
    and the package group. *)
Record ResolvedMigrationConfiguration := mkConfiguration {
  c_version : string;
  c_packageJsonUpdates : option (Obj.t PackageJsonUpdate);
  c_generators : option (Obj.t MigrationsJsonEntry);
  c_schematics : option (Obj.t MigrationsJsonEntry);
  c_packageGroup : option PackageGroup
}.

(** Modelled from the spec: the interface [PackageJson] of
    [utils/package-json], the root manifest, with the two sections that
    the planner and the updater use. *)
Record PackageJson := mkPackageJson {
  dependencies : option (gmap string string);
  devDependencies : option (gmap string string)
}.

(** [json.section?.[p]] *)
Definition sectionLookup (section : option (gmap string string)) (p : string)
  : option string :=
  match section with
  | Some m => m !! p
  | None => None
  end.

(** ** More of JavaScript: substring search, [indexOf], a stable sort *)

Module JsList.

Fixpoint isPrefix (p s : string) : bool :=
  match p, s with
  | EmptyString, _ => true
  | String a p', String b s' => Ascii.eqb a b && isPrefix p' s'
  | String _ _, EmptyString => false
  end.

(** [s.includes(p)] *)
Fixpoint includesString (p s : string) : bool :=
  isPrefix p s ||
  match s with
  | EmptyString => false
  | String _ s' => includesString p s'
  end.

(** [l.indexOf(x)], [-1] when [x] is not in [l]. *)
Fixpoint indexOf (l : list string) (x : string) : Z :=
  match l with
  | [] => (-1)%Z
  | y :: l' =>
      if String.eqb y x then 0%Z
      else let i := indexOf l' x in
           if (i <? 0)%Z then (-1)%Z else (i + 1)%Z
  end.

Fixpoint insertByKey {A} (key : A -> Z) (x : A) (l : list A) : list A :=
  match l with
  | [] => [x]
  | y :: l' =>
      if (key x <=? key y)%Z then x :: y :: l' else y :: insertByKey key x l'
  end.

(** [l.sort((a, b) => key(a) - key(b))]; the sort of an array is stable. *)
Fixpoint sortByKey {A} (key : A -> Z) (l : list A) : list A :=
  match l with
  | [] => []
  | x :: l' => insertByKey key x (sortByKey key l')
  end.

(** A loop whose body may throw and threads a state. *)
Fixpoint mapM {S A B} (f : A -> S -> Outcome (B * S)) (l : list A) (st : S)
  : Outcome (list B * S) :=
  match l with
  | [] => Returned ([], st)
  | x :: l' =>
      '(y, st1) ← f x st;
      '(ys, st2) ← mapM f l' st1;
      Returned (y :: ys, st2)
  end.

End JsList.

Definition doubleQuote : string := String "034"%char EmptyString.
Definition newline : string := String "010"%char EmptyString.

(** ** The Migrator class *)

Module Migrator.

(** The mutable fields of a [Migrator], and the calls made to [fetch] so far
    (most recent first). *)
Record State := mkState {
  packageJsonUpdates : Obj.t PackageJsonUpdateForPackage;
  collectedVersions : Obj.t string;
  installedPkgVersionOverrides : Obj.t string;
  fetchLog : list (string * string)
}.

Definition initialState (overrides : Obj.t string) : State :=
  mkState [] [] overrides [].

(** An element of what [populatePackageJsonUpdatesAndGetPackagesToCheck]
    returns. *)
Record PackagesToCheck := mkPackagesToCheck {
  package : string;
  updates : list PackageJsonUpdate
}.

Definition legacyPackageGroup : Obj.t string :=
  [ ("@nrwl/workspace", "*"); ("@nrwl/angular", "*"); ("@nrwl/cypress", "*");
    ("@nrwl/devkit", "*"); ("@nrwl/eslint-plugin-nx", "*");
    ("@nrwl/express", "*"); ("@nrwl/jest", "*"); ("@nrwl/linter", "*");
    ("@nrwl/nest", "*"); ("@nrwl/next", "*"); ("@nrwl/node", "*");
    ("@nrwl/nx-plugin", "*"); ("@nrwl/react", "*"); ("@nrwl/storybook", "*");
    ("@nrwl/web", "*"); ("@nrwl/js", "*"); ("@nrwl/cli", "*");
    ("@nrwl/nx-cloud", "latest"); ("@nrwl/react-native", "*");
    ("@nrwl/detox", "*"); ("@nrwl/expo", "*") ].

(** [x || false] for an [addToPackageJson]. *)
Definition orFalse (a : option AddToPackageJson) : AddToPackageJson :=
  default AddFalse a.

Definition isAdding (a : option AddToPackageJson) : bool :=
  match a with
  | Some (AddTo _) => true
  | _ => false
  end.

Definition nonEmpty (s : string) : bool := negb (String.eqb s EmptyString).

(** [setPackageGroupAsPackageJsonUpdate] *)
Definition setPackageGroupAsPackageJsonUpdate
    (packageGroup : list (string * string)) (targetVersion : string)
    (migrationConfig : ResolvedMigrationConfiguration)
  : ResolvedMigrationConfiguration :=
  let packages :=
    fold_left
      (fun acc packageConfig =>
         Obj.set acc (fst packageConfig)
           (mkUpdateForPackage (snd packageConfig) None (Some false) None))
      packageGroup [] in
  mkConfiguration
    (c_version migrationConfig)
    (Some (Obj.set (default [] (c_packageJsonUpdates migrationConfig))
             (targetVersion +:+ "--PackageGroup")
             (mkPackageJsonUpdate targetVersion (Some packages) None None)))
    (c_generators migrationConfig)
    (c_schematics migrationConfig)
    (c_packageGroup migrationConfig).

(** [MigratorOptions], the argument of the constructor. *)
Record MigratorOptions := mkMigratorOptions {
  packageJson : PackageJson;
  getInstalledPackageVersion : string -> Obj.t string -> option string;
  fetch : string -> string -> Exception + ResolvedMigrationConfiguration;
  from : Obj.t string;
  to : Obj.t string;
  interactive : bool
}.

(** What the class imports and the planner does not define: the answer of
    the confirmation prompt of [enquirer] to a message, and the two
    functions of the semver package that take a range, [satisfies] (with
    [includePrerelease]) and [clean(v) ?? coerce(v)]. *)
Record Imports := mkImports {
  prompt : string -> bool;
  satisfies : string -> string -> bool;
  cleanSemver : string -> option string
}.

Section Migrator.

Variable options : MigratorOptions.
Variable imports : Imports.

(** [new Migrator(opts)] *)
Definition create : State := initialState (from options).

Definition getPkgVersion (st : State) (pkg : string) : option string :=
  getInstalledPackageVersion options pkg (installedPkgVersionOverrides st).

(** [this.gt] and [this.lte] compare normalised versions, which always
    parse (lemma [Normalize.compare_normalized]): the default is never
    taken. *)
Definition gt (v1 v2 : string) : bool :=
  default false (Semver.gt (normalizeVersion v1) (normalizeVersion v2)).

Definition lte (v1 v2 : string) : bool :=
  default false (Semver.lte (normalizeVersion v1) (normalizeVersion v2)).

Definition requirementMet (st : State)
    (extraPackageUpdatesToCheck : option (Obj.t PackageJsonUpdateForPackage))
    (requirement : string * string) : bool :=
  let '(pkgName, versionRange) := requirement in
  (Js.truthy (getPkgVersion st pkgName)
   && satisfies imports (default EmptyString (getPkgVersion st pkgName))
        versionRange)
  || match Obj.get (packageJsonUpdates st) pkgName with
     | Some u =>
         nonEmpty (pu_version u)
         && satisfies imports (pu_version u) versionRange
     | None => false
     end
  || match extraPackageUpdatesToCheck with
     | Some extra =>
         match Obj.get extra pkgName with
         | Some u =>
             nonEmpty (pu_version u)
             && match cleanSemver imports (pu_version u) with
                | Some v => satisfies imports v versionRange
                | None => false
                end
         | None => false
         end
     | None => false
     end.

Definition areRequirementsMet (st : State)
    (requirements : option (Obj.t string))
    (extraPackageUpdatesToCheck : option (Obj.t PackageJsonUpdateForPackage))
  : bool :=
  match requirements with
  | None => true
  | Some reqs =>
      if Nat.eqb (length (Obj.keys reqs)) 0 then true
      else forallb (requirementMet st extraPackageUpdatesToCheck)
             (Obj.entries reqs)
  end.

Definition addPackageJsonUpdate (st : State) (name : string)
    (packageUpdate : PackageJsonUpdateForPackage) : State :=
  let replace :=
    match Obj.get (packageJsonUpdates st) name with
    | None => true
    | Some current => gt (pu_version packageUpdate) (pu_version current)
    end in
  if replace then
    mkState (Obj.set (packageJsonUpdates st) name packageUpdate)
      (collectedVersions st) (installedPkgVersionOverrides st) (fetchLog st)
  else st.

(** [overrides[pkg] ??= overrides[packageName]] *)
Definition inheritOverride (overrides : Obj.t string)
    (packageName pkg : string) : Obj.t string :=
  match Obj.get overrides pkg with
  | Some _ => overrides
  | None =>
      match Obj.get overrides packageName with
      | Some v => Obj.set overrides pkg v
      | None => overrides
      end
  end.

Definition setOverrides (st : State) (overrides : Obj.t string) : State :=
  mkState (packageJsonUpdates st) (collectedVersions st) overrides
    (fetchLog st).

Definition normalizeGroupMember (packageName : string) (st : State)
    (member : string * string) : State :=
  let '(pkg, version) := member in
  if Js.truthy (Obj.get (installedPkgVersionOverrides st) packageName)
     && String.eqb version "*"
  then setOverrides st
         (inheritOverride (installedPkgVersionOverrides st) packageName pkg)
  else st.

Definition normalizeGroupItem (packageName targetVersion : string)
    (acc : list (string * string) * State) (packageConfig : PackageGroupItem)
  : list (string * string) * State :=
  let '(done, st) := acc in
  let st' :=
    if Js.truthy (Obj.get (installedPkgVersionOverrides st) packageName) then
      match packageConfig with
      | GroupName name =>
          setOverrides st
            (inheritOverride (installedPkgVersionOverrides st) packageName name)
      | GroupEntry pkg version =>
          if String.eqb version "*"
          then setOverrides st
                 (inheritOverride (installedPkgVersionOverrides st)
                    packageName pkg)
          else st
      end
    else st in
  let entry :=
    match packageConfig with
    | GroupName name => (name, targetVersion)
    | GroupEntry pkg version => (pkg, version)
    end in
  (done ++ [entry], st').

Definition normalizePackageGroup (st : State)
    (packageName targetVersion : string) (packageGroup : option PackageGroup)
  : Outcome (list (string * string) * State) :=
  useLegacy ←
    (if String.eqb packageName "@nrwl/workspace"
     then semverCall Semver.lt targetVersion "14.0.0-beta.0"
     else Returned false);
  let packageGroup :=
    if useLegacy : bool then Some (GroupMap legacyPackageGroup)
    else packageGroup in
  match packageGroup with
  | None => Returned ([], st)
  | Some (GroupMap members) =>
      Returned
        (Obj.entries members,
         fold_left (normalizeGroupMember packageName) (Obj.entries members) st)
  | Some (GroupList items) =>
      Returned
        (fold_left (normalizeGroupItem packageName targetVersion) items
           ([], st))
  end.

(** The callback of the [filter] over an entry's [packages]. *)
Definition keepPackageUpdate (st : State)
    (entry : string * PackageJsonUpdateForPackage) : bool :=
  let '(packageName, packageUpdate) := entry in
  (negb (Js.truthy (pu_ifPackageInstalled packageUpdate))
   || Js.truthy
        (getPkgVersion st
           (default EmptyString (pu_ifPackageInstalled packageUpdate))))
  && (default false (pu_alwaysAddToPackageJson packageUpdate)
      || isAdding (pu_addToPackageJson packageUpdate)
      || Js.truthy
           (sectionLookup (dependencies (packageJson options)) packageName)
      || Js.truthy
           (sectionLookup (devDependencies (packageJson options))
              packageName))
  && (negb (Js.truthy (Obj.get (collectedVersions st) packageName))
      || gt (pu_version packageUpdate)
           (default EmptyString (Obj.get (collectedVersions st) packageName))).

(** The callback of the [reduce] that follows it. *)
Definition canonicalUpdate (acc : Obj.t PackageJsonUpdateForPackage)
    (entry : string * PackageJsonUpdateForPackage)
  : Obj.t PackageJsonUpdateForPackage :=
  let '(packageName, packageUpdate) := entry in
  Obj.set acc packageName
    (mkUpdateForPackage (pu_version packageUpdate)
       (Some (if default false (pu_alwaysAddToPackageJson packageUpdate)
              then AddTo Dependencies
              else orFalse (pu_addToPackageJson packageUpdate)))
       None None).

Fixpoint filterPackageJsonUpdates (st : State)
    (packageJsonUpdates : list PackageJsonUpdate)
    (packageName targetVersion : string) : Outcome (list PackageJsonUpdate) :=
  match packageJsonUpdates with
  | [] => Returned []
  | packageJsonUpdate :: rest =>
      match u_packages packageJsonUpdate with
      | None => filterPackageJsonUpdates st rest packageName targetVersion
      | Some packages =>
          match getPkgVersion st packageName with
          | None => Threw NullTypeError
          | Some installed =>
              if lte (u_version packageJsonUpdate) installed
                 || gt (u_version packageJsonUpdate) targetVersion
              then filterPackageJsonUpdates st rest packageName targetVersion
              else
                let kept :=
                  fold_left canonicalUpdate
                    (List.filter (keepPackageUpdate st) (Obj.entries packages))
                    [] in
                others ←
                  filterPackageJsonUpdates st rest packageName targetVersion;
                if Nat.eqb (length (Obj.keys kept)) 0 then Returned others
                else Returned
                       (mkPackageJsonUpdate (u_version packageJsonUpdate)
                          (Some kept) (u_requires packageJsonUpdate)
                          (u_xprompt packageJsonUpdate) :: others)
          end
      end
  end.

(** The source writes the package-group entry and the filtered [packages]
    into the manifest object that [fetch] gave it.  With the fetcher of this
    file a manifest object comes back only for a request that resolves to
    the same version, which [collectedVersions] then stops before these
    fields are read, or for its [generators]; the model therefore works on
    the manifest as a value. *)
Definition getPackageJsonUpdatesFromMigrationConfig (st : State)
    (packageName targetVersion : string)
    (migrationConfig : ResolvedMigrationConfiguration)
  : Outcome ((list PackageJsonUpdate * list string) * State) :=
  '(packageGroup, st) ←
    normalizePackageGroup st packageName targetVersion
      (c_packageGroup migrationConfig);
  let packageGroupOrder :=
    if Nat.eqb (length packageGroup) 0 then [] else map fst packageGroup in
  let migrationConfig :=
    if Nat.eqb (length packageGroup) 0 then migrationConfig
    else setPackageGroupAsPackageJsonUpdate packageGroup targetVersion
           migrationConfig in
  match c_packageJsonUpdates migrationConfig with
  | None => Returned (([], packageGroupOrder), st)
  | Some updates =>
      if negb (Js.truthy (getPkgVersion st packageName))
      then Returned (([], packageGroupOrder), st)
      else
        packageJsonUpdates ←
          filterPackageJsonUpdates st (Obj.values updates) packageName
            targetVersion;
        Returned ((packageJsonUpdates, packageGroupOrder), st)
  end.

Definition logFetch (st : State) (pkg version : string) : State :=
  mkState (packageJsonUpdates st) (collectedVersions st)
    (installedPkgVersionOverrides st) ((pkg, version) :: fetchLog st).

Definition setCollectedVersion (st : State) (pkg version : string) : State :=
  mkState (packageJsonUpdates st) (Obj.set (collectedVersions st) pkg version)
    (installedPkgVersionOverrides st) (fetchLog st).

(** The [catch] around the call of [fetch]. *)
Definition wrapFetchError (e : Exception) : Exception :=
  match e with
  | Error message =>
      if JsList.includesString "No matching version" message
      then Error (message +:+ newline +:+ "Run migrate with --to="
                  +:+ doubleQuote +:+ "package1@version1,package2@version2"
                  +:+ doubleQuote)
      else e
  | _ => e
  end.

(** [this.fetch(pkg, version)], the call recorded. *)
Definition callFetch (st : State) (pkg version : string)
  : Outcome (ResolvedMigrationConfiguration * State) :=
  match fetch options pkg version with
  | inl e => Threw e
  | inr config => Returned (config, logFetch st pkg version)
  end.

Definition shouldCheck (packageJsonUpdate : PackageJsonUpdate) : bool :=
  (interactive options && Js.truthy (u_xprompt packageJsonUpdate))
  || negb (Nat.eqb
             (length (Obj.keys (default [] (u_requires packageJsonUpdate)))) 0).

(** The recursion is bounded by [fuel], and the calls that
    [await Promise.all(entries.map(...))] joins are run one after the other,
    each to its end, in the order of the entries.  (JavaScript starts them
    all and lets them take turns at their [await]s; the order in which they
    then touch the plan is that of the answers of [fetch].) *)
Fixpoint populatePackageJsonUpdatesAndGetPackagesToCheck (fuel : nat)
    (targetPackage : string) (target : PackageJsonUpdateForPackage)
    (st : State) : Outcome (list PackagesToCheck * State) :=
  match fuel with
  | O => OutOfFuel
  | S fuel' =>
      let targetVersion :=
        if Js.truthy (Obj.get (to options) targetPackage)
        then default EmptyString (Obj.get (to options) targetPackage)
        else pu_version target in
      if negb (Js.truthy (getPkgVersion st targetPackage)) then
        Returned
          ([], addPackageJsonUpdate st targetPackage
                 (mkUpdateForPackage (pu_version target)
                    (Some (orFalse (pu_addToPackageJson target))) None None))
      else
        match callFetch st targetPackage targetVersion with
        | OutOfFuel => OutOfFuel
        | Threw e => Threw (wrapFetchError e)
        | Returned (migrationConfig, st) =>
            let targetVersion := c_version migrationConfig in
            covered ←
              (if Js.truthy (Obj.get (collectedVersions st) targetPackage)
               then semverCall Semver.gte
                      (default EmptyString
                         (Obj.get (collectedVersions st) targetPackage))
                      targetVersion
               else Returned false);
            if covered : bool then Returned ([], st)
            else
              let st := setCollectedVersion st targetPackage targetVersion in
              '((packageJsonUpdates, packageGroupOrder), st) ←
                getPackageJsonUpdatesFromMigrationConfig st targetPackage
                  targetVersion migrationConfig;
              let st :=
                addPackageJsonUpdate st targetPackage
                  (mkUpdateForPackage (c_version migrationConfig)
                     (Some (orFalse (pu_addToPackageJson target))) None None) in
              if existsb shouldCheck packageJsonUpdates then
                Returned
                  ([mkPackagesToCheck targetPackage packageJsonUpdates], st)
              else
                let packageUpdatesToApply :=
                  fold_left
                    (fun m c => Obj.assign m (default [] (u_packages c)))
                    packageJsonUpdates [] in
                '(results, st) ←
                  JsList.mapM
                    (fun entry =>
                       populatePackageJsonUpdatesAndGetPackagesToCheck fuel'
                         (fst entry) (snd entry))
                    (Obj.entries packageUpdatesToApply) st;
                Returned
                  (JsList.sortByKey
                     (fun pkgUpdate =>
                        JsList.indexOf packageGroupOrder (package pkgUpdate))
                     (concat
                        (List.filter
                           (fun pkgs => negb (Nat.eqb (length pkgs) 0))
                           results)),
                   st)
        end
  end.

Definition runPackageJsonUpdatesConfirmationPrompt
    (confirmationPrompt : option string) : bool :=
  if negb (Js.truthy confirmationPrompt) then true
  else prompt imports (default EmptyString confirmationPrompt).

(** The body of the inner [for] loop of [buildPackageJsonUpdates]. *)
Definition collectFilteredUpdates (st : State)
    (filteredUpdates : Obj.t PackageJsonUpdateForPackage)
    (packageUpdate : PackageJsonUpdate)
  : Outcome (Obj.t PackageJsonUpdateForPackage) :=
  if areRequirementsMet st (u_requires packageUpdate) (Some filteredUpdates)
     && (negb (interactive options)
         || runPackageJsonUpdatesConfirmationPrompt (u_xprompt packageUpdate))
  then
    match u_packages packageUpdate with
    | None => Threw NullTypeError
    | Some packages => Returned (Obj.assign filteredUpdates packages)
    end
  else Returned filteredUpdates.

Fixpoint collectAllFilteredUpdates (st : State)
    (filteredUpdates : Obj.t PackageJsonUpdateForPackage)
    (updates : list PackageJsonUpdate)
  : Outcome (Obj.t PackageJsonUpdateForPackage) :=
  match updates with
  | [] => Returned filteredUpdates
  | packageUpdate :: rest =>
      filteredUpdates ←
        collectFilteredUpdates st filteredUpdates packageUpdate;
      collectAllFilteredUpdates st filteredUpdates rest
  end.

Fixpoint buildPackageJsonUpdates (fuel : nat) (targetPackage : string)
    (target : PackageJsonUpdateForPackage) (st : State)
  : Outcome (unit * State) :=
  match fuel with
  | O => OutOfFuel
  | S fuel' =>
      '(packagesToCheck, st) ←
        populatePackageJsonUpdatesAndGetPackagesToCheck fuel' targetPackage
          target st;
      '(_, st) ←
        JsList.mapM
          (fun packageToCheck st =>
             filteredUpdates ←
               collectAllFilteredUpdates st [] (updates packageToCheck);
             '(_, st) ←
               JsList.mapM
                 (fun entry =>
                    buildPackageJsonUpdates fuel' (fst entry) (snd entry))
                 (Obj.entries filteredUpdates) st;
             Returned (tt, st))
          packagesToCheck st;
      Returned (tt, st)
  end.

(** The callback of the [filter] over the generators of a package. *)
Definition keepMigration (st : State) (currentVersion version : string)
    (entry : string * MigrationsJsonEntry) : bool :=
  let migration := snd entry in
  Js.truthy (g_version migration)
  && gt (default EmptyString (g_version migration)) currentVersion
  && lte (default EmptyString (g_version migration)) version
  && areRequirementsMet st (g_requires migration) None.

(** The callback of the [map] over the keys of the plan. *)
Definition migrationsOfPackage (packageName : string) (st : State)
  : Outcome (list Migration * State) :=
  match getPkgVersion st packageName with
  | None => Returned ([], st)
  | Some currentVersion =>
      match Obj.get (packageJsonUpdates st) packageName with
      | None => Threw NullTypeError
      | Some planned =>
          let version := pu_version planned in
          '(config, st) ← callFetch st packageName version;
          match c_generators config with
          | None => Returned ([], st)
          | Some generators =>
              Returned
                (map
                   (fun entry =>
                      mkMigration (snd entry) packageName (fst entry))
                   (List.filter (keepMigration st currentVersion version)
                      (Obj.entries generators)),
                 st)
          end
      end
  end.

Definition createMigrateJson (st : State) : Outcome (list Migration * State) :=
  '(migrations, st) ←
    JsList.mapM migrationsOfPackage (Obj.keys (packageJsonUpdates st)) st;
  Returned (concat migrations, st).

Definition updatePackageJson (fuel : nat) (targetPackage targetVersion : string)
    (st : State)
  : Outcome ((Obj.t PackageJsonUpdateForPackage * list Migration) * State) :=
  '(_, st) ←
    buildPackageJsonUpdates fuel targetPackage
      (mkUpdateForPackage targetVersion (Some AddFalse) None None) st;
  '(migrations, st) ← createMigrateJson st;
  Returned ((packageJsonUpdates st, migrations), st).

End Migrator.

End Migrator.

(** ** The target parser *)

Definition provideCorrectPackage : Exception :=
  Error "Provide the correct package name and version. E.g., my-package@9.0.0.".

(** [/^\d+(?:\.\d+)?(?:\.\d+)?$/] *)
Definition isDigits (s : string) : bool :=
  Migrator.nonEmpty s && Js.all Semver.isDigit s.

Definition matchesNumericShorthand (args : string) : bool :=
  match Js.split "." args with
  | [a] => isDigits a
  | [a; b] => isDigits a && isDigits b
  | [a; b; c] => isDigits a && isDigits b && isDigits c
  | _ => false
  end.

Definition isTag (args : string) : bool :=
  String.eqb args "latest" || String.eqb args "next".

Definition parseTargetPackageAndVersion (args : string)
  : Outcome (string * string) :=
  if String.eqb args EmptyString then Threw provideCorrectPackage
  else if Js.includes "@" args then
    match Js.cutLast "@" args with
    | None => Threw NullTypeError
    | Some (EmptyString, _) => Returned (Js.trim args, "latest")
    | Some (targetPackage, maybeVersion) =>
        if String.eqb maybeVersion EmptyString then Threw provideCorrectPackage
        else Returned (targetPackage, normalizeVersionWithTagCheck maybeVersion)
    end
  else if isTag args || Semver.valid args || matchesNumericShorthand args then
    let targetVersion := normalizeVersionWithTagCheck args in
    legacy ←
      (if negb (isTag args)
       then semverCall Semver.lt targetVersion "14.0.0-beta.0"
       else Returned false);
    Returned (if legacy : bool then "@nrwl/workspace" else "nx", targetVersion)
  else Returned (args, "latest").

(** ** The manifest updater *)

Definition setSection (section : option (gmap string string)) (p v : string)
  : option (gmap string string) :=
  Some (<[p := v]> (default ∅ section)).

(** The callback of the [forEach] of [updatePackageJson]. *)
Definition updateManifestEntry
    (updatedPackages : Obj.t PackageJsonUpdateForPackage)
    (json : PackageJson) (p : string) : Outcome PackageJson :=
  match Obj.get updatedPackages p with
  | None => Threw NullTypeError
  | Some update =>
      if Js.truthy (sectionLookup (devDependencies json) p) then
        Returned
          (mkPackageJson (dependencies json)
             (setSection (devDependencies json) p (pu_version update)))
      else if Js.truthy (sectionLookup (dependencies json) p) then
        Returned
          (mkPackageJson
             (setSection (dependencies json) p (pu_version update))
             (devDependencies json))
      else
        match pu_addToPackageJson update with
        | Some (AddTo Dependencies) =>
            Returned
              (mkPackageJson
                 (setSection (dependencies json) p (pu_version update))
                 (devDependencies json))
        | Some (AddTo DevDependencies) =>
            Returned
              (mkPackageJson (dependencies json)
                 (setSection (devDependencies json) p (pu_version update)))
        | _ => Returned json
        end
  end.

Fixpoint forEachKey (updatedPackages : Obj.t PackageJsonUpdateForPackage)
    (keys : list string) (json : PackageJson) : Outcome PackageJson :=
  match keys with
  | [] => Returned json
  | p :: rest =>
      json ← updateManifestEntry updatedPackages json p;
      forEachKey updatedPackages rest json
  end.

(** [updatePackageJson(root, updatedPackages)], from the manifest read to the
    manifest written. *)
Definition updatePackageJson (json : PackageJson)
    (updatedPackages : Obj.t PackageJsonUpdateForPackage)
  : Outcome PackageJson :=
  forEachKey updatedPackages (Obj.keys updatedPackages) json.

(** ** The fetcher *)

Module Fetcher.

(** Modelled from the spec: the interface [NxMigrationsConfiguration] of
    [utils/package-json], the [nx-migrations] or [ng-update] entry of a
    package manifest. *)
Record NxMigrationsConfiguration := mkNxMigrationsConfiguration {
  migrations : option string;
  packageGroup : option PackageGroup
}.

(** Modelled from the spec: the interface [MigrationsJson] of
    [config/misc-interfaces], the content of a migrations file. *)
Record MigrationsJson := mkMigrationsJson {
  mj_packageJsonUpdates : option (Obj.t PackageJsonUpdate);
  mj_generators : option (Obj.t MigrationsJsonEntry);
  mj_schematics : option (Obj.t MigrationsJsonEntry)
}.

(** A settled promise. *)
Definition Settled (A : Type) : Type := Exception + A.

Record Caches := mkCaches {
  migrationsCache : Obj.t (Settled ResolvedMigrationConfiguration);
  resolvedVersionCache : Obj.t (Settled string)
}.

Definition failedToFindMigrationsFile
    (migrationsFilePath packageName packageVersion : string) : Exception :=
  Error ("Failed to find migrations file " +:+ doubleQuote
         +:+ migrationsFilePath +:+ doubleQuote +:+ " in package "
         +:+ doubleQuote +:+ packageName +:+ "@" +:+ packageVersion
         +:+ doubleQuote +:+ ".").

Section Fetcher.

(** The registry, the tarball and the temporary install, as the answers they
    give. *)
Variable resolvePackageVersionUsingRegistry :
  string -> string -> Settled string.
(** [packageRegistryView] followed by [readNxMigrateConfig]; [None] when the
    registry has no migrations metadata. *)
Variable registryMigrationsConfig :
  string -> string -> Settled (option NxMigrationsConfiguration).
Variable packageRegistryPack : string -> string -> Settled string.
(** [extractFileFromTarball] followed by [readJsonFile]. *)
Variable readMigrationsFromTarball : string -> string -> Settled MigrationsJson.
(** The package manager's [add] in the temporary directory. *)
Variable installPackage : string -> string -> Settled unit.
(** [readPackageMigrationConfig] in the temporary directory: the resolved
    migrations file, the package group and the installed version. *)
Variable readPackageMigrationConfig :
  string -> Settled (option string * option PackageGroup * string).
Variable readJsonFile : string -> Settled MigrationsJson.

Definition withMigrations (migrations : option MigrationsJson)
    (packageGroup : option PackageGroup) (version : string)
  : ResolvedMigrationConfiguration :=
  mkConfiguration version
    (migrations ≫= mj_packageJsonUpdates)
    (migrations ≫= mj_generators)
    (migrations ≫= mj_schematics)
    packageGroup.

Definition downloadPackageMigrationsFromRegistry
    (packageName packageVersion : string)
    (config : NxMigrationsConfiguration)
  : Settled ResolvedMigrationConfiguration :=
  let migrationsFilePath := default EmptyString (migrations config) in
  match packageRegistryPack packageName packageVersion with
  | inl _ =>
      inl (failedToFindMigrationsFile migrationsFilePath packageName
             packageVersion)
  | inr tarballPath =>
      match readMigrationsFromTarball tarballPath migrationsFilePath with
      | inl _ =>
          inl (failedToFindMigrationsFile migrationsFilePath packageName
                 packageVersion)
      | inr migrations =>
          inr (withMigrations (Some migrations) (packageGroup config)
                 packageVersion)
      end
  end.

Definition getPackageMigrationsUsingRegistry
    (packageName packageVersion : string)
  : Settled ResolvedMigrationConfiguration :=
  match registryMigrationsConfig packageName packageVersion with
  | inl e => inl e
  | inr None => inr (mkConfiguration packageVersion None None None None)
  | inr (Some migrationsConfig) =>
      if negb (Js.truthy (migrations migrationsConfig)) then
        inr (mkConfiguration packageVersion None None None
               (packageGroup migrationsConfig))
      else
        downloadPackageMigrationsFromRegistry packageName packageVersion
          migrationsConfig
  end.

Definition getPackageMigrationsUsingInstall
    (packageName packageVersion : string)
  : Settled ResolvedMigrationConfiguration :=
  match installPackage packageName packageVersion with
  | inl e => inl e
  | inr _ =>
      match readPackageMigrationConfig packageName with
      | inl e => inl e
      | inr (migrationsFilePath, packageGroup, version) =>
          if Js.truthy migrationsFilePath then
            match readJsonFile (default EmptyString migrationsFilePath) with
            | inl e => inl e
            | inr migrations =>
                inr (withMigrations (Some migrations) packageGroup version)
            end
          else inr (withMigrations None packageGroup version)
      end
  end.

Definition cacheKey (packageName packageVersion : string) : string :=
  packageName +:+ "-" +:+ packageVersion.

(** The first two steps of the promise chain of [fetchMigrations]: the
    resolved version, and the registry path unless the manifest of the
    resolved version is cached already.  [None] for the second component
    means that [setCache(packageName, resolvedVersion)] was called. *)
Definition registryPath (caches : Caches) (packageName packageVersion : string)
  : Settled ResolvedMigrationConfiguration * Obj.t (Settled string)
    * option string :=
  let key := cacheKey packageName packageVersion in
  let fresh := resolvePackageVersionUsingRegistry packageName packageVersion in
  let '(resolved, versions) :=
    match Obj.get (resolvedVersionCache caches) key with
    | Some (inl e) => (inl e, resolvedVersionCache caches)
    | Some (inr cachedResolvedVersion) =>
        if Migrator.nonEmpty cachedResolvedVersion
        then (inr cachedResolvedVersion, resolvedVersionCache caches)
        else (fresh, Obj.set (resolvedVersionCache caches) key fresh)
    | None => (fresh, Obj.set (resolvedVersionCache caches) key fresh)
    end in
  match resolved with
  | inl e => (inl e, versions, None)
  | inr resolvedVersion =>
      match Obj.get (migrationsCache caches)
              (cacheKey packageName resolvedVersion) with
      | Some cached =>
          if negb (String.eqb resolvedVersion packageVersion)
          then (cached, versions, None)
          else (getPackageMigrationsUsingRegistry packageName resolvedVersion,
                versions, Some resolvedVersion)
      | None =>
          (getPackageMigrationsUsingRegistry packageName resolvedVersion,
           versions, Some resolvedVersion)
      end
  end.

(** [fetchMigrations]: the chain ends in a [catch] that falls back to the
    temporary install, whatever was thrown before. *)
Definition fetchMigrations (caches : Caches)
    (packageName packageVersion : string)
  : Settled ResolvedMigrationConfiguration * Obj.t (Settled string)
    * option string :=
  let '(result, versions, resolvedKey) :=
    registryPath caches packageName packageVersion in
  match result with
  | inl _ =>
      (getPackageMigrationsUsingInstall packageName packageVersion, versions,
       resolvedKey)
  | inr config => (inr config, versions, resolvedKey)
  end.

(** The [then] of [nxMigrateFetcher]: [schematics] becomes [generators]. *)
Definition renameSchematics (result : ResolvedMigrationConfiguration)
  : ResolvedMigrationConfiguration :=
  match c_schematics result with
  | Some schematics =>
      mkConfiguration (c_version result) (c_packageJsonUpdates result)
        (Some schematics) None (c_packageGroup result)
  | None => result
  end.

(** [nxMigrateFetcher(packageName, packageVersion)]: what the promise settles
    to, and the caches afterwards. *)
Definition nxMigrateFetcher (caches : Caches)
    (packageName packageVersion : string)
  : Settled ResolvedMigrationConfiguration * Caches :=
  match Obj.get (migrationsCache caches)
          (cacheKey packageName packageVersion) with
  | Some cached => (cached, caches)
  | None =>
      let '(result, versions, resolvedKey) :=
        fetchMigrations caches packageName packageVersion in
      let migrations :=
        match result with
        | inl e => inl e
        | inr config => inr (renameSchematics config)
        end in
      let cache :=
        Obj.set (migrationsCache caches)
          (cacheKey packageName packageVersion) migrations in
      let cache :=
        match resolvedKey with
        | Some resolvedVersion =>
            Obj.set cache (cacheKey packageName resolvedVersion) migrations
        | None => cache
        end in
      (migrations, mkCaches cache versions)
  end.

End Fetcher.

End Fetcher.

(** ** The options of the command *)

(** [packageName.replace(/\\/g, '/')] *)
Fixpoint normalizeSlashes (packageName : string) : string :=
  match packageName with
  | EmptyString => EmptyString
  | String c rest =>
      String (if Ascii.eqb c "\"%char then "/"%char else c)
        (normalizeSlashes rest)
  end.

Definition incorrectSection (param : string) : Exception :=
  Error ("Incorrect '" +:+ param +:+ "' section. Use --" +:+ param +:+ "="
         +:+ doubleQuote +:+ "package@version" +:+ doubleQuote).

(** The callback of the [forEach] of [versionOverrides], for the piece [p]
    of the comma-separated list; [res] is the object built so far. *)
Definition versionOverride (param : string) (res : Obj.t string) (p : string)
  : Outcome (Obj.t string) :=
  match Js.cutLast "@" p with
  | None => Threw (incorrectSection param)
  | Some (EmptyString, _) => Threw (incorrectSection param)
  | Some (before, after) =>
      let selectedPackage := Js.trim before in
      let selectedVersion := Js.trim after in
      if String.eqb selectedPackage EmptyString
         || String.eqb selectedVersion EmptyString
      then Threw (incorrectSection param)
      else
        Returned
          (Obj.set res (normalizeSlashes selectedPackage)
             (normalizeVersionWithTagCheck selectedVersion))
  end.

Fixpoint forEachOverride (param : string) (pieces : list string)
    (res : Obj.t string) : Outcome (Obj.t string) :=
  match pieces with
  | [] => Returned res
  | p :: rest =>
      res ← versionOverride param res p;
      forEachOverride param rest res
  end.

Definition versionOverrides (overrides param : string)
  : Outcome (Obj.t string) :=
  forEachOverride param (Js.split "," overrides) [].

Module CommandLine.

(** The options that [parseMigrationsOptions] reads, with the types the
    function gives them by its casts: strings for [runMigrations], [from],
    [to] and [packageAndVersion]; an option that was not given is [None]. *)
Record RawOptions := mkRawOptions {
  runMigrations : option string;
  from : option string;
  to : option string;
  packageAndVersion : option string;
  interactive : option bool
}.

(** [GenerateMigrations | RunMigrations] *)
Inductive MigrationsOptions :=
| GenerateMigrations (targetPackage targetVersion : string)
    (from to : Obj.t string) (interactive : option bool)
| RunMigrations (runMigrations : string).

(** An option that was not given reaches [parseTargetPackageAndVersion] as
    [undefined], which its first test treats as the empty string. *)
Definition parseMigrationsOptions (options : RawOptions)
  : Outcome MigrationsOptions :=
  let runMigrations :=
    match runMigrations options with
    | Some EmptyString => Some "migrations.json"
    | given => given
    end in
  if negb (Js.truthy runMigrations) then
    from ←
      (if Js.truthy (from options)
       then versionOverrides (default EmptyString (from options)) "from"
       else Returned []);
    to ←
      (if Js.truthy (to options)
       then versionOverrides (default EmptyString (to options)) "to"
       else Returned []);
    '(targetPackage, targetVersion) ←
      parseTargetPackageAndVersion
        (default EmptyString (packageAndVersion options));
    Returned
      (GenerateMigrations (normalizeSlashes targetPackage) targetVersion
         from to (interactive options))
  else Returned (RunMigrations (default EmptyString runMigrations)).

End CommandLine.

(** ** The versions installed in the workspace *)

Module InstalledVersions.

Section Resolver.

(** [readModulePackageJson(packageName, [root]).packageJson.version]: the
    version in the manifest of the package as it is found from the root of
    the workspace, or what is thrown when it is not found. *)
Variable readModulePackageJson : string -> Exception + string.

(** The body of the [try] of [getInstalledPackageVersion], with the cache
    afterwards; [None] when it throws. *)
Definition lookupVersion (cache : Obj.t string) (packageName : string)
    (overrides : Obj.t string) : option string * Obj.t string :=
  if Js.truthy (Obj.get overrides packageName) then
    (Obj.get overrides packageName, cache)
  else if negb (Js.truthy (Obj.get cache packageName)) then
    match readModulePackageJson packageName with
    | inl _ => (None, cache)
    | inr version => (Some version, Obj.set cache packageName version)
    end
  else (Obj.get cache packageName, cache).

(** The function that [createInstalledPackageVersionsResolver] returns, with
    the cache it closes over made explicit; [None] is [null].  The call it
    makes to itself in the [catch] is for ['@nrwl/workspace'], which is not
    ['nx']: that call does not fall back again. *)
Definition getInstalledPackageVersion (cache : Obj.t string)
    (packageName : string) (overrides : Obj.t string)
  : option string * Obj.t string :=
  match lookupVersion cache packageName overrides with
  | (Some version, cache) => (Some version, cache)
  | (None, cache) =>
      if String.eqb packageName "nx"
      then lookupVersion cache "@nrwl/workspace" overrides
      else (None, cache)
  end.

(** Calls made one after the other on the same resolver. *)
Fixpoint resolveAll (cache : Obj.t string)
    (calls : list (string * Obj.t string)) : list (option string) :=
  match calls with
  | [] => []
  | (packageName, overrides) :: rest =>
      let '(version, cache) :=
        getInstalledPackageVersion cache packageName overrides in
      version :: resolveAll cache rest
  end.

End Resolver.

End InstalledVersions.

(** ** After the plan *)

(** [a ?? b] *)
Definition nullish {A} (a b : option A) : option A :=
  match a with
  | Some _ => a
  | None => b
  end.

Definition readNxVersion (packageJson : PackageJson) : option string :=
  nullish
    (nullish
       (nullish (sectionLookup (devDependencies packageJson) "nx")
          (sectionLookup (dependencies packageJson) "nx"))
       (sectionLookup (devDependencies packageJson) "@nrwl/workspace"))
    (sectionLookup (dependencies packageJson) "@nrwl/workspace").

Definition splitConfigurationMigration : Migration :=
  mkMigration
    (mkMigrationsJsonEntry (Some "15.7.0-beta.0")
       (Some "Spilt global configuration files into individual project.json files. This migration has been added automatically to the beginning of your migration set to retroactively make them work with the new version of Nx.")
       (Some "./src/migrations/update-15-7-0/split-configuration-into-project-json-files")
       None (Some "nx") None)
    "@nrwl/workspace" "15-7-0-split-configuration-into-project-json-files".

(** [addSplitConfigurationMigrationIfAvailable(from, packageJson)];
    [packageJson] is the plan, and [from] is what [readNxVersion] found in
    the root manifest, [None] for [undefined], which the semver package
    refuses as it refuses the string ["undefined"]. *)
Definition addSplitConfigurationMigrationIfAvailable (from : option string)
    (packageJson : Obj.t PackageJsonUpdateForPackage)
  : Outcome (list Migration) :=
  match Obj.get packageJson "@nrwl/workspace" with
  | None => Returned []
  | Some planned =>
      reached ← semverCall Semver.gte (pu_version planned) "15.7.0";
      if reached : bool then
        below ← semverCall Semver.lt (default "undefined" from) "15.7.0";
        if below : bool then Returned [splitConfigurationMigration]
        else Returned []
      else Returned []
  end.

(** ** Running the migrations *)

Module Runner.

(** [m.cli === 'nx'] *)
Definition isNx (m : Migration) : bool :=
  match g_cli (m_entry m) with
  | Some cli => String.eqb cli "nx"
  | None => false
  end.

(** The title of the message that ends [runMigrations]. *)
Inductive Summary := SuccessfullyFinished | NoChangesWereMade.

Section Runner.

(** The workspace on disk with its repository; the runner sees of it what
    the functions below return, and each of them may change it. *)
Variable World : Type.

Variable getStringifiedPackageJsonDeps : World -> Exception + string.
(** [await import('../adapter/ngcli-adapter')] and the [require] that
    follows it. *)
Variable loadNgCliAdapter : World -> Exception + unit.
(** [runNxMigration(root, package, name)]: the number of changes. *)
Variable runNxMigration :
  string -> string -> World -> (Exception + nat) * World.
(** [ngCliAdapter.runMigration(root, package, name, isVerbose)]: the field
    [madeChanges] of what it returns. *)
Variable runNgMigration :
  string -> string -> bool -> World -> (Exception + bool) * World.
Variable commitChanges :
  string -> World -> (Exception + option string) * World.
Variable runInstall : World -> (Exception + unit) * World.
(** [readJsonFile(join(root, file)).migrations]: [None] for a file that has
    no [migrations]. *)
Variable readMigrations :
  string -> World -> Exception + option (list Migration).

Variable isVerbose : bool.
Variable shouldCreateCommits : bool.
Variable commitPrefix : string.

(** The body of the [for] loop for the migration [m]: whether [m] made
    changes, or what was thrown.  What [commitChanges] throws is caught and
    logged. *)
Definition runOne (m : Migration) (w : World) : (Exception + bool) * World :=
  let '(madeChanges, w) :=
    if isNx m then
      let '(changes, w) := runNxMigration (m_package m) (m_name m) w in
      (match changes with
       | inl e => inl e
       | inr n => inr (negb (n <? 1)%nat)
       end, w)
    else runNgMigration (m_package m) (m_name m) isVerbose w in
  match madeChanges with
  | inl e => (inl e, w)
  | inr false => (inr false, w)
  | inr true =>
      if shouldCreateCommits then
        let '(_, w) := commitChanges (commitPrefix +:+ m_name m) w in
        (inr true, w)
      else (inr true, w)
  end.

(** The [for] loop: the migrations that made no changes, in their order. *)
Fixpoint runEach (migrations : list Migration) (w : World)
  : (Exception + list Migration) * World :=
  match migrations with
  | [] => (inr [], w)
  | m :: rest =>
      match runOne m w with
      | (inl e, w) => (inl e, w)
      | (inr madeChanges, w) =>
          match runEach rest w with
          | (inl e, w) => (inl e, w)
          | (inr migrationsWithNoChanges, w) =>
              (inr (if madeChanges : bool then migrationsWithNoChanges
                    else m :: migrationsWithNoChanges), w)
          end
      end
  end.

Definition executeMigrations (migrations : list Migration) (w : World)
  : (Exception + list Migration) * World :=
  match getStringifiedPackageJsonDeps w with
  | inl e => (inl e, w)
  | inr depsBeforeMigrations =>
      match
        (if existsb (fun m => negb (isNx m)) migrations
         then loadNgCliAdapter w
         else inr tt)
      with
      | inl e => (inl e, w)
      | inr _ =>
          match runEach migrations w with
          | (inl e, w) => (inl e, w)
          | (inr migrationsWithNoChanges, w) =>
              match getStringifiedPackageJsonDeps w with
              | inl e => (inl e, w)
              | inr depsAfterMigrations =>
                  if String.eqb depsBeforeMigrations depsAfterMigrations
                  then (inr migrationsWithNoChanges, w)
                  else
                    match runInstall w with
                    | (inl e, w) => (inl e, w)
                    | (inr _, w) => (inr migrationsWithNoChanges, w)
                    end
              end
          end
      end
  end.

(** [runMigrations(root, { runMigrations: file }, ...)], with [skipInstall]
    for [process.env.NX_MIGRATE_SKIP_INSTALL]: the message that it ends
    with.  Without [migrations] in the file, [migrations.some] throws in
    [executeMigrations], after the dependencies were read. *)
Definition runMigrations (skipInstall : option string) (file : string)
    (w : World) : (Exception + Summary) * World :=
  match
    (if negb (Js.truthy skipInstall) then runInstall w else (inr tt, w))
  with
  | (inl e, w) => (inl e, w)
  | (inr _, w) =>
      match readMigrations file w with
      | inl e => (inl e, w)
      | inr None =>
          match getStringifiedPackageJsonDeps w with
          | inl e => (inl e, w)
          | inr _ => (inl NullTypeError, w)
          end
      | inr (Some migrations) =>
          match executeMigrations migrations w with
          | (inl e, w) => (inl e, w)
          | (inr migrationsWithNoChanges, w) =>
              (inr (if (length migrationsWithNoChanges
                        <? length migrations)%nat
                    then SuccessfullyFinished
                    else NoChangesWereMade), w)
          end
      end
  end.

End Runner.

End Runner.

(** ** The migrations of an installed package *)

Module Install.

(** The value of [nx-migrations] or of [ng-update] in the manifest of a
    package: the path of a migrations file, or a configuration. *)
Inductive MigrationConfigOrFile :=
| MigrationsFile (path : string)
| MigrationsConfig (config : Fetcher.NxMigrationsConfiguration).

(** The manifest of an installed package, with the fields that
    [readPackageMigrationConfig] and its callers read. *)
Record InstalledManifest := mkInstalledManifest {
  nxMigrations : option MigrationConfigOrFile;
  ngUpdate : option MigrationConfigOrFile;
  version : string
}.

(** An object is truthy; a string is unless it is empty. *)
Definition given (value : option MigrationConfigOrFile) : bool :=
  match value with
  | Some (MigrationsFile path) => Migrator.nonEmpty path
  | Some (MigrationsConfig _) => true
  | None => false
  end.

Section Install.

(** [readModulePackageJson(packageName, [dir])]: the path of the manifest
    and the manifest. *)
Variable readModulePackageJson :
  string -> string -> Exception + (string * InstalledManifest).
Variable dirname : string -> string.
(** [require.resolve(request, { paths: [dir] })] *)
Variable requireResolve : string -> string -> Exception + string.

(** [readPackageMigrationConfig(packageName, dir)]: the fields [migrations],
    [packageGroup] and [packageJson] of what it returns.  A configuration
    without [migrations] makes [require.resolve] throw, which the [catch]
    takes like any other failure to resolve. *)
Definition readPackageMigrationConfig (packageName dir : string)
  : Exception + (option string * option PackageGroup * InstalledManifest) :=
  match readModulePackageJson packageName dir with
  | inl e => inl e
  | inr (packageJsonPath, json) =>
      let migrationConfigOrFile :=
        if given (nxMigrations json) then nxMigrations json
        else ngUpdate json in
      if negb (given migrationConfigOrFile) then
        inr (None, Some (GroupList []), json)
      else
        let migrationsConfig :=
          match migrationConfigOrFile with
          | Some (MigrationsConfig config) => config
          | Some (MigrationsFile path) =>
              Fetcher.mkNxMigrationsConfiguration (Some path)
                (Some (GroupList []))
          | None => Fetcher.mkNxMigrationsConfiguration None None
          end in
        match
          match Fetcher.migrations migrationsConfig with
          | Some request => requireResolve request (dirname packageJsonPath)
          | None => inl NullTypeError
          end
        with
        | inr migrationFile =>
            inr (Some migrationFile, Fetcher.packageGroup migrationsConfig,
                 json)
        | inl _ => inr (None, Fetcher.packageGroup migrationsConfig, json)
        end
  end.

(** The same for the temporary directory [dir] of
    [getPackageMigrationsUsingInstall], which reads [packageJson.version]
    of the result. *)
Definition readInstalled (dir packageName : string)
  : Exception + (option string * option PackageGroup * string) :=
  match readPackageMigrationConfig packageName dir with
  | inl e => inl e
  | inr (migrations, packageGroup, json) =>
      inr (migrations, packageGroup, version json)
  end.

End Install.

End Install.

(** * Properties *)

(** ** The order of the semver package *)

Module SemverOrder.
Import Semver.

(** What makes a three-valued comparison a total preorder. *)
Record Laws {A} (cmp : A -> A -> comparison) : Prop := mkLaws {
  laws_refl : forall a, cmp a a = Eq;
  laws_antisym : forall a b, cmp b a = CompOpp (cmp a b);
  laws_lt_trans : forall a b c, cmp a b = Lt -> cmp b c = Lt -> cmp a c = Lt;
  laws_eq_compat : forall a b c, cmp a b = Eq -> cmp a c = cmp b c
}.

Section Derived.
Context {A} (cmp : A -> A -> comparison) (L : Laws cmp).

Lemma laws_eq_compat_r a b c : cmp b c = Eq -> cmp a b = cmp a c.
Proof using L.
  intros H.
  rewrite (laws_antisym cmp L b a), (laws_antisym cmp L c a).
  f_equal. apply (laws_eq_compat cmp L); exact H.
Qed.

Lemma laws_gt_trans a b c : cmp a b = Gt -> cmp b c = Gt -> cmp a c = Gt.
Proof using L.
  intros H1 H2.
  assert (Hba : cmp b a = Lt)
    by (rewrite (laws_antisym cmp L a b), H1; reflexivity).
  assert (Hcb : cmp c b = Lt)
    by (rewrite (laws_antisym cmp L b c), H2; reflexivity).
  rewrite (laws_antisym cmp L c a), (laws_lt_trans cmp L c b a Hcb Hba).
  reflexivity.
Qed.

(** [a <= b] and [b < c] give [a < c]. *)
Lemma laws_le_lt_trans a b c : cmp a b <> Gt -> cmp b c = Lt -> cmp a c = Lt.
Proof using L.
  intros H1 H2. destruct (cmp a b) eqn:E.
  - rewrite (laws_eq_compat cmp L a b c E). exact H2.
  - exact (laws_lt_trans cmp L a b c E H2).
  - congruence.
Qed.

Lemma laws_lt_le_trans a b c : cmp a b = Lt -> cmp b c <> Gt -> cmp a c = Lt.
Proof using L.
  intros H1 H2. destruct (cmp b c) eqn:E.
  - rewrite <- (laws_eq_compat_r a b c E). exact H1.
  - exact (laws_lt_trans cmp L a b c H1 E).
  - congruence.
Qed.

Lemma laws_le_trans a b c : cmp a b <> Gt -> cmp b c <> Gt -> cmp a c <> Gt.
Proof using L.
  intros H1 H2. destruct (cmp b c) eqn:E.
  - rewrite <- (laws_eq_compat_r a b c E). exact H1.
  - rewrite (laws_le_lt_trans a b c H1 E). discriminate.
  - congruence.
Qed.
End Derived.

Lemma lexc_opp c1 c2 : CompOpp (lexc c1 c2) = lexc (CompOpp c1) (CompOpp c2).
Proof. destruct c1; reflexivity. Qed.

(** Two comparisons of two views of a value, combined lexicographically. *)
Lemma Laws_lex {X A B} (f : X -> A) (g : X -> B) cmpA cmpB :
  Laws cmpA -> Laws cmpB ->
  Laws (fun x y : X => lexc (cmpA (f x) (f y)) (cmpB (g x) (g y))).
Proof.
  intros LA LB. split.
  - intros a. rewrite (laws_refl _ LA), (laws_refl _ LB). reflexivity.
  - intros a b. rewrite lexc_opp.
    rewrite <- (laws_antisym _ LA), <- (laws_antisym _ LB). reflexivity.
  - intros a b c.
    destruct (cmpA (f a) (f b)) eqn:E1; simpl; try discriminate.
    + rewrite (laws_eq_compat _ LA _ _ (f c) E1).
      destruct (cmpA (f b) (f c)) eqn:E2; simpl; try discriminate; auto.
      apply (laws_lt_trans _ LB).
    + intros _. destruct (cmpA (f b) (f c)) eqn:E2; simpl; try discriminate.
      * rewrite <- (laws_eq_compat_r _ LA (f a) _ _ E2), E1. reflexivity.
      * rewrite (laws_lt_trans _ LA _ _ _ E1 E2). reflexivity.
  - intros a b c.
    destruct (cmpA (f a) (f b)) eqn:E1; simpl; try discriminate.
    intros E2. rewrite (laws_eq_compat _ LA _ _ (f c) E1).
    rewrite (laws_eq_compat _ LB _ _ (g c) E2). reflexivity.
Qed.

Lemma Laws_N : Laws N.compare.
Proof.
  split.
  - apply N.compare_refl.
  - intros a b. apply N.compare_antisym.
  - intros a b c. rewrite !N.compare_lt_iff. lia.
  - intros a b c H. apply N.compare_eq in H. subst. reflexivity.
Qed.

Lemma Laws_bool : Laws Bool.compare.
Proof.
  split.
  - intros []; reflexivity.
  - intros [] []; reflexivity.
  - intros [] [] []; simpl; congruence.
  - intros [] [] []; simpl; congruence.
Qed.

Lemma Laws_map {X A} (f : X -> A) cmp :
  Laws cmp -> Laws (fun x y : X => cmp (f x) (f y)).
Proof.
  intros L. split; intros.
  - apply (laws_refl _ L).
  - apply (laws_antisym _ L).
  - eapply (laws_lt_trans _ L); eauto.
  - apply (laws_eq_compat _ L); auto.
Qed.

Lemma Laws_ascii : Laws compareAscii.
Proof. apply (Laws_map N_of_ascii _ Laws_N). Qed.

Lemma Laws_ext {A} (c1 c2 : A -> A -> comparison) :
  (forall a b, c1 a b = c2 a b) -> Laws c1 -> Laws c2.
Proof.
  intros E L. split; intros *; rewrite <- !E.
  - apply (laws_refl _ L).
  - apply (laws_antisym _ L).
  - apply (laws_lt_trans _ L).
  - apply (laws_eq_compat _ L).
Qed.

Lemma Laws_string : Laws compareString.
Proof.
  split.
  - induction a as [|x a IH]; simpl; auto.
    rewrite (laws_refl _ Laws_ascii), IH. reflexivity.
  - induction a as [|x a IH]; destruct b as [|y b]; simpl; auto.
    rewrite lexc_opp, <- IH, <- (laws_antisym _ Laws_ascii). reflexivity.
  - induction a as [|x a IH]; destruct b as [|y b]; destruct c as [|z c];
      simpl; try congruence.
    destruct (compareAscii x y) eqn:E1; simpl; try discriminate.
    + rewrite (laws_eq_compat _ Laws_ascii _ _ z E1).
      destruct (compareAscii y z); simpl; try discriminate; eauto.
    + intros _. destruct (compareAscii y z) eqn:E2; simpl; try discriminate.
      * rewrite <- (laws_eq_compat_r _ Laws_ascii x _ _ E2), E1. reflexivity.
      * rewrite (laws_lt_trans _ Laws_ascii _ _ _ E1 E2). reflexivity.
  - induction a as [|x a IH]; destruct b as [|y b]; destruct c as [|z c];
      simpl; try congruence.
    destruct (compareAscii x y) eqn:E1; simpl; try discriminate.
    intros E2. rewrite (laws_eq_compat _ Laws_ascii _ _ z E1), (IH _ c E2).
    reflexivity.
Qed.

Lemma Laws_identifier : Laws compareIdentifiers.
Proof.
  split.
  - intros [n|s]; simpl;
      [apply (laws_refl _ Laws_N) | apply (laws_refl _ Laws_string)].
  - intros [n|s] [m|t]; simpl; auto;
      [apply (laws_antisym _ Laws_N) | apply (laws_antisym _ Laws_string)].
  - intros [n|s] [m|t] [k|u]; simpl; try congruence;
      [apply (laws_lt_trans _ Laws_N) | apply (laws_lt_trans _ Laws_string)].
  - intros [n|s] [m|t] [k|u]; simpl; try congruence;
      [apply (laws_eq_compat _ Laws_N) | apply (laws_eq_compat _ Laws_string)].
Qed.

Lemma Laws_identifierLists : Laws compareIdentifierLists.
Proof.
  pose proof Laws_identifier as LI.
  split.
  - induction a as [|x a IH]; simpl; auto.
    rewrite (laws_refl _ LI), IH. reflexivity.
  - induction a as [|x a IH]; destruct b as [|y b]; simpl; auto.
    rewrite lexc_opp, <- IH, <- (laws_antisym _ LI). reflexivity.
  - induction a as [|x a IH]; destruct b as [|y b]; destruct c as [|z c];
      simpl; try congruence.
    destruct (compareIdentifiers x y) eqn:E1; simpl; try discriminate.
    + rewrite (laws_eq_compat _ LI _ _ z E1).
      destruct (compareIdentifiers y z); simpl; try discriminate; eauto.
    + intros _. destruct (compareIdentifiers y z) eqn:E2; simpl; try discriminate.
      * rewrite <- (laws_eq_compat_r _ LI x _ _ E2), E1. reflexivity.
      * rewrite (laws_lt_trans _ LI _ _ _ E1 E2). reflexivity.
  - induction a as [|x a IH]; destruct b as [|y b]; destruct c as [|z c];
      simpl; try congruence.
    destruct (compareIdentifiers x y) eqn:E1; simpl; try discriminate.
    intros E2. rewrite (laws_eq_compat _ LI _ _ z E1), (IH _ c E2).
    reflexivity.
Qed.

Definition isNil {A} (l : list A) : bool :=
  match l with [] => true | _ => false end.

Lemma comparePre_lex a b :
  lexc (Bool.compare (isNil a) (isNil b)) (compareIdentifierLists a b)
  = comparePre a b.
Proof. destruct a, b; reflexivity. Qed.

Lemma Laws_pre : Laws comparePre.
Proof.
  eapply Laws_ext; [apply comparePre_lex|].
  apply (Laws_lex isNil (fun l => l) _ _ Laws_bool Laws_identifierLists).
Qed.

Lemma Laws_main : Laws compareMain.
Proof.
  unfold compareMain.
  apply (Laws_lex major (fun v => v)
           N.compare
           (fun a b => lexc (N.compare (minor a) (minor b))
                         (N.compare (patch a) (patch b)))
           Laws_N).
  apply (Laws_lex minor patch _ _ Laws_N Laws_N).
Qed.

Lemma Laws_semver : Laws compareSemVer.
Proof.
  unfold compareSemVer.
  apply (Laws_lex (fun v => v) prerelease _ _ Laws_main Laws_pre).
Qed.

End SemverOrder.

(** ** The model at work *)

Module Examples.

(** The precedence chain of the semver specification. *)
Example semver_precedence :
  map (fun pair => Semver.lt (fst pair) (snd pair))
    [ ("1.0.0-alpha", "1.0.0-alpha.1"); ("1.0.0-alpha.1", "1.0.0-alpha.beta");
      ("1.0.0-alpha.beta", "1.0.0-beta"); ("1.0.0-beta", "1.0.0-beta.2");
      ("1.0.0-beta.2", "1.0.0-beta.11"); ("1.0.0-beta.11", "1.0.0-rc.1");
      ("1.0.0-rc.1", "1.0.0"); ("1.0.0", "2.0.0"); ("2.0.0", "2.1.0");
      ("2.1.0", "2.1.1") ]
  = repeat (Some true) 10.
Proof. reflexivity. Qed.

Example semver_build_is_ignored :
  Semver.compare "1.2.3+build.5" "1.2.3" = Some Eq.
Proof. reflexivity. Qed.

Example semver_invalid :
  map Semver.valid
    ["1.2"; "1.2.3.4"; "01.2.3"; "1.2.3-"; "1.2.3-a..b"; "1.2.3-01"; "a.b.c";
     ""; "=1.2.3"; "V1.2.3"]
  = repeat false 10.
Proof. reflexivity. Qed.

Example semver_valid :
  map Semver.valid
    ["1.2.3"; "v1.2.3"; "1.2.3-0"; "1.2.3-alpha-1.x-y"; "1.2.3+01"; "0.0.0";
     "1.2.3-0a"]
  = repeat true 7.
Proof. reflexivity. Qed.

Example semver_trims :
  Semver.valid " 1.2.3 " = false /\ Semver.gt " 1.2.3 " "1.0.0" = Some true.
Proof. split; reflexivity. Qed.

Example semver_throws : Semver.gt "1.2" "0.0.0" = None.
Proof. reflexivity. Qed.

Example normalizeVersion_examples :
  map normalizeVersion
    ["1.2.3"; "1.2"; "1"; ""; "abc"; "1.2.x"; "1.x"; "1.2.3-beta.1";
     "1.2-beta.1"; "0.0.0-beta.1"; "1.2.3.4"; "014"; "v2.1"]
  = ["1.2.3"; "1.2.0"; "1.0.0"; "0.0.0"; "0.0.0"; "1.2.0"; "1.0.0";
     "1.2.3-beta.1"; "1.2.0-beta.1"; "0.0.0"; "1.2.3"; "0.0.0"; "v2.1.0"].
Proof. reflexivity. Qed.

Example split_examples :
  Js.split "-" "a-b-c" = ["a"; "b"; "c"]
  /\ Js.split "." "" = [""]
  /\ Js.split "." "1." = ["1"; ""]
  /\ Js.cutLast "@" "@scope/pkg@1.0.0" = Some ("@scope/pkg", "1.0.0")
  /\ Js.cutLast "@" "@scope/pkg" = Some ("", "scope/pkg").
Proof. repeat split; reflexivity. Qed.

Example object_examples :
  Obj.set [("a", 1); ("b", 2)] "a" 3 = [("a", 3); ("b", 2)]
  /\ Obj.set [("a", 1); ("b", 2)] "c" 3 = [("a", 1); ("b", 2); ("c", 3)]
  /\ Obj.assign [("a", 1); ("b", 2)] [("c", 3); ("a", 4)]
     = [("a", 4); ("b", 2); ("c", 3)].
Proof. repeat split; reflexivity. Qed.

Example sort_is_stable :
  JsList.sortByKey (fun s => JsList.indexOf ["x"; "y"] (fst s))
    [("y", 1); ("q", 2); ("x", 3); ("r", 4); ("y", 5)]
  = [("q", 2); ("r", 4); ("x", 3); ("y", 1); ("y", 5)].
Proof. reflexivity. Qed.

Example parser_examples :
  map parseTargetPackageAndVersion
    ["@nrwl/workspace@13.0.0"; "mypackage"; "@scope/pkg"; "next"; "14";
     "13.10"; "pkg@latest"]
  = map Returned
      [("@nrwl/workspace", "13.0.0"); ("mypackage", "latest");
       ("@scope/pkg", "latest"); ("nx", "next"); ("nx", "14.0.0");
       ("@nrwl/workspace", "13.10.0"); ("pkg", "latest")].
Proof. reflexivity. Qed.

End Examples.

(** ** Objects *)

Module ObjFacts.

Lemma get_set_eq {V} (o : Obj.t V) k v : Obj.get (Obj.set o k v) k = Some v.
Proof.
  induction o as [|[k' v'] o IH]; simpl.
  - rewrite String.eqb_refl. reflexivity.
  - destruct (String.eqb k' k) eqn:E; simpl; rewrite E; auto.
Qed.

Lemma get_set_ne {V} (o : Obj.t V) k k' v :
  k <> k' -> Obj.get (Obj.set o k v) k' = Obj.get o k'.
Proof.
  intros Hne. induction o as [|[k0 v0] o IH]; simpl.
  - destruct (String.eqb k k') eqn:E; auto.
    apply String.eqb_eq in E. contradiction.
  - destruct (String.eqb k0 k) eqn:E; simpl.
    + apply String.eqb_eq in E. subst k0.
      destruct (String.eqb k k') eqn:E'; auto.
      apply String.eqb_eq in E'. contradiction.
    + rewrite IH. reflexivity.
Qed.

Lemma get_keys {V} (o : Obj.t V) k :
  In k (Obj.keys o) -> exists v, Obj.get o k = Some v.
Proof.
  induction o as [|[k' v'] o IH]; simpl; [tauto|].
  intros [->|H].
  - rewrite String.eqb_refl. eauto.
  - destruct (String.eqb k' k); eauto.
Qed.

Lemma get_in_keys {V} (o : Obj.t V) k v :
  Obj.get o k = Some v -> In k (Obj.keys o).
Proof.
  induction o as [|[k' v'] o IH]; simpl; [discriminate|].
  destruct (String.eqb k' k) eqn:E.
  - apply String.eqb_eq in E. auto.
  - auto.
Qed.

Lemma get_In {V} (o : Obj.t V) k v : Obj.get o k = Some v -> In (k, v) o.
Proof.
  induction o as [|[k' v'] o IH]; simpl; [discriminate|].
  destruct (String.eqb k' k) eqn:E.
  - apply String.eqb_eq in E. intros [= ->]. subst. auto.
  - auto.
Qed.

End ObjFacts.

(** ** Normalised versions always parse *)

Module Normalize.

Definition zero : Semver.SemVer := Semver.mkSemVer 0 0 0 [] [].

Lemma parse_zero : Semver.parse "0.0.0" = Some zero.
Proof. reflexivity. Qed.

Lemma gt_parses a b r : Semver.gt a b = Some r ->
  exists x y, Semver.parse a = Some x /\ Semver.parse b = Some y
              /\ r = Semver.isGt (Semver.compareSemVer x y).
Proof.
  unfold Semver.gt, Semver.compare.
  destruct (Semver.parse a) as [x|], (Semver.parse b) as [y|]; simpl;
    try discriminate.
  intros [= <-]. eauto.
Qed.

(** The result of the loop is a variation above [0.0.0], or [0.0.0]. *)
Lemma firstAboveZero_spec l :
  (In (firstAboveZero l) l /\ Semver.gt (firstAboveZero l) "0.0.0" = Some true)
  \/ (firstAboveZero l = "0.0.0"
      /\ forall v, In v l -> Semver.gt v "0.0.0" <> Some true).
Proof.
  induction l as [|v l IH]; simpl.
  - right. split; [reflexivity | tauto].
  - destruct (Semver.gt v "0.0.0") as [[|]|] eqn:E.
    + left. auto.
    + destruct IH as [[H1 H2]|[H1 H2]]; [left; auto|right].
      split; [exact H1|]. intros w [<-|Hw]; [congruence | auto].
    + destruct IH as [[H1 H2]|[H1 H2]]; [left; auto|right].
      split; [exact H1|]. intros w [<-|Hw]; [congruence | auto].
Qed.

Lemma firstAboveZero_parses l :
  exists x, Semver.parse (firstAboveZero l) = Some x
            /\ Semver.compareSemVer x zero <> Lt.
Proof.
  destruct (firstAboveZero_spec l) as [[_ H]|[H _]].
  - apply gt_parses in H. destruct H as (x & y & Hx & Hy & Hr).
    rewrite parse_zero in Hy. injection Hy as <-.
    exists x. split; [exact Hx|].
    destruct (Semver.compareSemVer x zero); simpl in Hr; congruence.
  - rewrite H. exists zero. split; [reflexivity | discriminate].
Qed.

Lemma normalizeVersion_parses v :
  exists x, Semver.parse (normalizeVersion v) = Some x
            /\ Semver.compareSemVer x zero <> Lt.
Proof. unfold normalizeVersion. apply firstAboveZero_parses. Qed.

(** The parsed form of a normalised version. *)
Definition parsed (v : string) : Semver.SemVer :=
  default zero (Semver.parse (normalizeVersion v)).

Lemma parse_normalized v :
  Semver.parse (normalizeVersion v) = Some (parsed v).
Proof.
  unfold parsed. destruct (normalizeVersion_parses v) as (x & -> & _).
  reflexivity.
Qed.

Lemma parsed_above_zero v : Semver.compareSemVer (parsed v) zero <> Lt.
Proof.
  unfold parsed. destruct (normalizeVersion_parses v) as (x & -> & H).
  exact H.
Qed.

Lemma compare_normalized a b :
  Semver.compare (normalizeVersion a) (normalizeVersion b)
  = Some (Semver.compareSemVer (parsed a) (parsed b)).
Proof.
  unfold Semver.compare. rewrite !parse_normalized. reflexivity.
Qed.

(** [this.gt] and [this.lte] never throw. *)
Lemma gt_normalized a b :
  Semver.gt (normalizeVersion a) (normalizeVersion b)
  = Some (Migrator.gt a b).
Proof.
  unfold Migrator.gt, Semver.gt. rewrite compare_normalized. reflexivity.
Qed.

Lemma lte_normalized a b :
  Semver.lte (normalizeVersion a) (normalizeVersion b)
  = Some (Migrator.lte a b).
Proof.
  unfold Migrator.lte, Semver.lte. rewrite compare_normalized. reflexivity.
Qed.

Lemma gt_compare a b :
  Migrator.gt a b = Semver.isGt (Semver.compareSemVer (parsed a) (parsed b)).
Proof.
  unfold Migrator.gt, Semver.gt. rewrite compare_normalized. reflexivity.
Qed.

Lemma lte_compare a b :
  Migrator.lte a b
  = negb (Semver.isGt (Semver.compareSemVer (parsed a) (parsed b))).
Proof.
  unfold Migrator.lte, Semver.lte. rewrite compare_normalized. reflexivity.
Qed.

Lemma lte_not_gt a b : Migrator.lte a b = negb (Migrator.gt a b).
Proof. rewrite lte_compare, gt_compare. reflexivity. Qed.

Lemma lte_refl a : Migrator.lte a a = true.
Proof.
  rewrite lte_compare, (SemverOrder.laws_refl _ SemverOrder.Laws_semver).
  reflexivity.
Qed.

Lemma lte_trans a b c :
  Migrator.lte a b = true -> Migrator.lte b c = true -> Migrator.lte a c = true.
Proof.
  rewrite !lte_compare. intros H1 H2.
  pose proof (SemverOrder.laws_le_trans _ SemverOrder.Laws_semver
                (parsed a) (parsed b) (parsed c)) as T.
  destruct (Semver.compareSemVer (parsed a) (parsed b));
    destruct (Semver.compareSemVer (parsed b) (parsed c));
    destruct (Semver.compareSemVer (parsed a) (parsed c));
    simpl in *; try reflexivity; try discriminate;
    exfalso; apply T; congruence.
Qed.

Lemma gt_lte a b : Migrator.gt a b = true -> Migrator.lte b a = true.
Proof.
  rewrite gt_compare, lte_compare.
  rewrite (SemverOrder.laws_antisym _ SemverOrder.Laws_semver (parsed a)
             (parsed b)).
  destruct (Semver.compareSemVer (parsed a) (parsed b)); simpl; congruence.
Qed.

End Normalize.

(** ** The plan only goes up *)

Module UpgradeOnly.
Import Migrator.

(** A call of [addPackageJsonUpdate]: the package and the proposed update. *)
Definition Call : Type := string * PackageJsonUpdateForPackage.

Definition applyCall (st : State) (call : Call) : State :=
  addPackageJsonUpdate st (fst call) (snd call).

Definition applyCalls (calls : list Call) (st : State) : State :=
  fold_left applyCall calls st.

(** What the plan holds for [p] after the calls [seen]: the greatest of the
    updates proposed for [p], if any. *)
Definition Greatest (p : string) (seen : list Call) (st : State) : Prop :=
  match Obj.get (packageJsonUpdates st) p with
  | None => forall u, ~ In (p, u) seen
  | Some w =>
      In (p, w) seen
      /\ forall u, In (p, u) seen -> lte (pu_version u) (pu_version w) = true
  end.

Lemma addPackageJsonUpdate_kept st name u current :
  Obj.get (packageJsonUpdates st) name = Some current ->
  gt (pu_version u) (pu_version current) = false ->
  addPackageJsonUpdate st name u = st.
Proof.
  intros Hget Hgt. unfold addPackageJsonUpdate. rewrite Hget, Hgt. reflexivity.
Qed.

Lemma addPackageJsonUpdate_same st name u :
  (Obj.get (packageJsonUpdates st) name = None
   \/ exists current, Obj.get (packageJsonUpdates st) name = Some current
                      /\ gt (pu_version u) (pu_version current) = true) ->
  Obj.get (packageJsonUpdates (addPackageJsonUpdate st name u)) name = Some u.
Proof.
  unfold addPackageJsonUpdate.
  intros [->|(current & -> & ->)]; simpl; apply ObjFacts.get_set_eq.
Qed.

Lemma addPackageJsonUpdate_other st name u p :
  name <> p ->
  Obj.get (packageJsonUpdates (addPackageJsonUpdate st name u)) p
  = Obj.get (packageJsonUpdates st) p.
Proof.
  intros Hne. unfold addPackageJsonUpdate.
  destruct (match Obj.get (packageJsonUpdates st) name with
            | Some current => gt (pu_version u) (pu_version current)
            | None => true
            end); simpl; auto using ObjFacts.get_set_ne.
Qed.

Lemma Greatest_step p seen st call :
  Greatest p seen st -> Greatest p (seen ++ [call]) (applyCall st call).
Proof.
  destruct call as [name u]. unfold applyCall, Greatest; simpl.
  intros G.
  destruct (String.eqb_spec name p) as [->|Hne].
  - destruct (Obj.get (packageJsonUpdates st) p) as [w|] eqn:Hw.
    + destruct G as [Hin Hmax].
      destruct (gt (pu_version u) (pu_version w)) eqn:Hgt.
      * rewrite addPackageJsonUpdate_same by eauto.
        split; [apply in_or_app; simpl; auto|].
        intros x Hx. apply in_app_or in Hx. destruct Hx as [Hx|[[= <-]|[]]].
        -- eapply Normalize.lte_trans; [apply Hmax, Hx|].
           apply Normalize.gt_lte, Hgt.
        -- apply Normalize.lte_refl.
      * rewrite (addPackageJsonUpdate_kept st p u w Hw Hgt), Hw.
        split; [apply in_or_app; auto|].
        intros x Hx. apply in_app_or in Hx. destruct Hx as [Hx|[[= <-]|[]]].
        -- auto.
        -- rewrite Normalize.lte_not_gt, Hgt. reflexivity.
    + rewrite addPackageJsonUpdate_same by auto.
      split; [apply in_or_app; simpl; auto|].
      intros x Hx. apply in_app_or in Hx. destruct Hx as [Hx|[[= <-]|[]]].
      * exfalso. exact (G x Hx).
      * apply Normalize.lte_refl.
  - rewrite addPackageJsonUpdate_other by exact Hne.
    destruct (Obj.get (packageJsonUpdates st) p) as [w|].
    + destruct G as [Hin Hmax]. split; [apply in_or_app; auto|].
      intros x Hx. apply in_app_or in Hx.
      destruct Hx as [Hx|[[= E _]|[]]]; [auto | contradiction].
    + intros x Hx. apply in_app_or in Hx.
      destruct Hx as [Hx|[[= E _]|[]]]; [exact (G x Hx) | contradiction].
Qed.

Lemma Greatest_calls p calls : forall seen st,
  Greatest p seen st -> Greatest p (seen ++ calls) (applyCalls calls st).
Proof.
  induction calls as [|call calls IH]; intros seen st G; simpl.
  - rewrite app_nil_r. exact G.
  - replace (seen ++ call :: calls) with ((seen ++ [call]) ++ calls)
      by (rewrite <- app_assoc; reflexivity).
    apply IH, Greatest_step, G.
Qed.

Lemma Greatest_absent p st :
  Obj.get (packageJsonUpdates st) p = None -> Greatest p [] st.
Proof. unfold Greatest. intros ->. simpl. tauto. Qed.


Definition proposal (version : string) : PackageJsonUpdateForPackage :=
  mkUpdateForPackage version (Some AddFalse) None None.




End UpgradeOnly.

(** ** The manifest updater *)

Module Manifest.

(** The entries of [p] in the two sections: [devDependencies] first. *)
Definition entriesOf (json : PackageJson) (p : string)
  : option string * option string :=
  (sectionLookup (devDependencies json) p,
   sectionLookup (dependencies json) p).

(** What one step of the updater does to the entries of its package: an
    entry counts when its version string is not empty. *)
Definition Effect (update : PackageJsonUpdateForPackage)
    (before after : option string * option string) : Prop :=
  if Js.truthy (fst before) then
    after = (Some (pu_version update), snd before)
  else if Js.truthy (snd before) then
    after = (fst before, Some (pu_version update))
  else
    match pu_addToPackageJson update with
    | Some (AddTo Dependencies) => after = (fst before, Some (pu_version update))
    | Some (AddTo DevDependencies) =>
        after = (Some (pu_version update), snd before)
    | _ => after = before
    end.

Lemma sectionLookup_set_eq section p v :
  sectionLookup (setSection section p v) p = Some v.
Proof. unfold setSection; simpl. apply lookup_insert_eq. Qed.

Lemma sectionLookup_set_ne section p q v :
  p <> q -> sectionLookup (setSection section p v) q = sectionLookup section q.
Proof.
  intros Hne. unfold setSection; simpl. rewrite lookup_insert_ne by exact Hne.
  destruct section; simpl; [reflexivity | apply lookup_empty].
Qed.

Lemma updateManifestEntry_effect plan json p update :
  Obj.get plan p = Some update ->
  exists json1,
    updateManifestEntry plan json p = Returned json1
    /\ Effect update (entriesOf json p) (entriesOf json1 p)
    /\ forall q, p <> q -> entriesOf json1 q = entriesOf json q.
Proof.
  intros Hget. unfold updateManifestEntry, Effect, entriesOf. rewrite Hget.
  cbn [fst snd].
  destruct (Js.truthy (sectionLookup (devDependencies json) p)).
  { eexists. split; [reflexivity|]. cbn [devDependencies dependencies].
    rewrite sectionLookup_set_eq. split; [reflexivity|].
    intros q Hq. rewrite sectionLookup_set_ne by exact Hq. reflexivity. }
  destruct (Js.truthy (sectionLookup (dependencies json) p)).
  { eexists. split; [reflexivity|]. cbn [devDependencies dependencies].
    rewrite sectionLookup_set_eq. split; [reflexivity|].
    intros q Hq. rewrite sectionLookup_set_ne by exact Hq. reflexivity. }
  destruct (pu_addToPackageJson update) as [[|[|]]|];
    eexists; (split; [reflexivity|]); cbn [devDependencies dependencies];
    rewrite ?sectionLookup_set_eq; (split; [reflexivity|]);
    intros q Hq; rewrite ?sectionLookup_set_ne by exact Hq; reflexivity.
Qed.

Lemma forEachKey_effect plan keys :
  List.NoDup keys ->
  (forall k, In k keys -> exists u, Obj.get plan k = Some u) ->
  forall json,
  exists json',
    forEachKey plan keys json = Returned json'
    /\ (forall q, ~ In q keys -> entriesOf json' q = entriesOf json q)
    /\ (forall q u, In q keys -> Obj.get plan q = Some u ->
          Effect u (entriesOf json q) (entriesOf json' q)).
Proof.
  induction keys as [|p keys IH]; intros Hnd Hplan json; simpl.
  - exists json. split; [reflexivity|]. split; [reflexivity | tauto].
  - apply List.NoDup_cons_iff in Hnd. destruct Hnd as [Hp Hnd].
    destruct (Hplan p (or_introl eq_refl)) as (u & Hu).
    destruct (updateManifestEntry_effect plan json p u Hu)
      as (json1 & -> & Heff & Hother).
    destruct (IH Hnd (fun k Hk => Hplan k (or_intror Hk)) json1)
      as (json' & Hrun & Hout & Hin).
    exists json'. split; [exact Hrun|]. split.
    + intros q Hq. rewrite Hout by tauto. apply Hother. intros ->. tauto.
    + intros q w [<-|Hq] Hw.
      * rewrite Hout by exact Hp. congruence.
      * rewrite <- Hother by (intros ->; contradiction). apply Hin; assumption.
Qed.

Lemma updatePackageJson_effect json plan :
  List.NoDup (Obj.keys plan) ->
  exists json',
    updatePackageJson json plan = Returned json'
    /\ (forall p u, Obj.get plan p = Some u ->
          Effect u (entriesOf json p) (entriesOf json' p))
    /\ (forall q, Obj.get plan q = None -> entriesOf json' q = entriesOf json q).
Proof.
  intros Hnd.
  destruct (forEachKey_effect plan (Obj.keys plan) Hnd
              (ObjFacts.get_keys plan) json) as (json' & Hrun & Hout & Hin).
  exists json'. split; [exact Hrun|]. split.
  - intros q u Hu. apply Hin; [|exact Hu]. eapply ObjFacts.get_in_keys, Hu.
  - intros q Hq. apply Hout. intros Hk.
    destruct (ObjFacts.get_keys plan q Hk) as (u & Hu). congruence.
Qed.

(** An entry of a section that the updater takes into account: one whose
    version string is not empty. *)
Definition present (section : option (gmap string string)) (p : string)
  : Prop :=
  Js.truthy (sectionLookup section p) = true.

(** An entry of a section, whatever its version string. *)
Definition appears (section : option (gmap string string)) (p : string)
  : Prop :=
  is_Some (sectionLookup section p).

Definition sectionOf (json : PackageJson) (section : DependencyType)
  : option (gmap string string) :=
  match section with
  | Dependencies => dependencies json
  | DevDependencies => devDependencies json
  end.

(** The behaviour of the updater in the words of the specification, with
    "appears" read as "has an entry". *)
Definition UpdatedAsSpecified (json : PackageJson)
    (plan : Obj.t PackageJsonUpdateForPackage) (json' : PackageJson) : Prop :=
  (forall p u, Obj.get plan p = Some u ->
     (appears (devDependencies json) p \/ appears (dependencies json) p ->
      (appears (devDependencies json) p
       /\ sectionLookup (devDependencies json') p = Some (pu_version u))
      \/ (appears (dependencies json) p
          /\ sectionLookup (dependencies json') p = Some (pu_version u)))
     /\ (~ appears (devDependencies json) p ->
         ~ appears (dependencies json) p ->
         forall section, pu_addToPackageJson u = Some (AddTo section) ->
           sectionLookup (sectionOf json' section) p = Some (pu_version u))
     /\ (~ appears (devDependencies json) p ->
         ~ appears (dependencies json) p ->
         pu_addToPackageJson u = Some AddFalse ->
         entriesOf json' p = entriesOf json p))
  /\ (forall q, Obj.get plan q = None -> entriesOf json' q = entriesOf json q).

(** With a package in both sections, only [devDependencies] is rewritten, in
    the words of the specification. *)
Definition DevDependenciesFirstAsSpecified (json : PackageJson)
    (plan : Obj.t PackageJsonUpdateForPackage) (json' : PackageJson) : Prop :=
  forall p u, Obj.get plan p = Some u ->
    appears (devDependencies json) p ->
    appears (dependencies json) p ->
    sectionLookup (devDependencies json') p = Some (pu_version u)
    /\ sectionLookup (dependencies json') p
       = sectionLookup (dependencies json) p.




(** C9, the counterexample: [p] has an entry in both sections, the one in
    [devDependencies] with the empty version string; the updater rewrites
    the entry in [dependencies] and leaves [devDependencies] alone. *)
Lemma updatePackageJson_empty_devDependency_skipped :
  exists json',
    updatePackageJson
      (mkPackageJson (Some {[ "p" := "1.0.0" ]}) (Some {[ "p" := "" ]}))
      [("p", mkUpdateForPackage "2.0.0" (Some AddFalse) None None)]
    = Returned json'
    /\ ~ DevDependenciesFirstAsSpecified
           (mkPackageJson (Some {[ "p" := "1.0.0" ]}) (Some {[ "p" := "" ]}))
           [("p", mkUpdateForPackage "2.0.0" (Some AddFalse) None None)]
           json'.
Proof.
  eexists. split; [reflexivity|].
  intros H.
  destruct (H "p" _ eq_refl) as [E _].
  - exists "". reflexivity.
  - exists "1.0.0". reflexivity.
  - vm_compute in E. discriminate.
Qed.

(** C9, as amended.  When a planned package has an entry with a non-empty
    version string in [devDependencies] and also an entry in
    [dependencies], the updater gives the entry in [devDependencies] the
    planned version and leaves the entry in [dependencies] with its old
    version string. *)
Theorem updatePackageJson_devDependencies_first
    (json : PackageJson) (plan : Obj.t PackageJsonUpdateForPackage)
    (p old : string) (u : PackageJsonUpdateForPackage) :
  List.NoDup (Obj.keys plan) ->
  Obj.get plan p = Some u ->
  present (devDependencies json) p ->
  sectionLookup (dependencies json) p = Some old ->
  exists json',
    updatePackageJson json plan = Returned json'
    /\ sectionLookup (devDependencies json') p = Some (pu_version u)
    /\ sectionLookup (dependencies json') p = Some old.
Proof.
  intros Hnd Hu Hdev Hold.
  destruct (updatePackageJson_effect json plan Hnd) as (json' & Hrun & Hin & _).
  exists json'. split; [exact Hrun|].
  specialize (Hin p u Hu). unfold Effect, entriesOf, present in *.
  cbn [fst snd] in Hin. rewrite Hdev in Hin.
  injection Hin as -> ->. auto.
Qed.

Lemma updatePackageJson_devDependencies_first_witness :
  exists json',
    updatePackageJson
      (mkPackageJson (Some {[ "p" := "1.0.0" ]}) (Some {[ "p" := "1.1.0" ]}))
      [("p", mkUpdateForPackage "2.0.0" (Some AddFalse) None None)]
    = Returned json'
    /\ sectionLookup (devDependencies json') "p" = Some "2.0.0"
    /\ sectionLookup (dependencies json') "p" = Some "1.0.0".
Proof.
  apply (updatePackageJson_devDependencies_first
           (mkPackageJson (Some {[ "p" := "1.0.0" ]})
              (Some {[ "p" := "1.1.0" ]}))
           [("p", mkUpdateForPackage "2.0.0" (Some AddFalse) None None)]
           "p" "1.0.0"
           (mkUpdateForPackage "2.0.0" (Some AddFalse) None None)).
  - repeat constructor; simpl; intuition discriminate.
  - reflexivity.
  - reflexivity.
  - reflexivity.
Defined.

End Manifest.

(** ** The planner: a package that is not installed *)

Module NotInstalled.
Import Migrator.

(** The update the planner would record if [to] applied to a package that is
    not installed, as the specification has it. *)
Definition overriddenTarget (options : MigratorOptions) (pkg : string)
    (target : PackageJsonUpdateForPackage) : PackageJsonUpdateForPackage :=
  mkUpdateForPackage
    (if Js.truthy (Obj.get (to options) pkg)
     then default EmptyString (Obj.get (to options) pkg)
     else pu_version target)
    (Some (orFalse (pu_addToPackageJson target))) None None.

(** Nothing is installed, and every fetch fails. *)
Definition emptyWorkspace (to : Obj.t string) : MigratorOptions :=
  mkMigratorOptions (mkPackageJson None None) (fun _ _ => None)
    (fun _ _ => inl (Error "unreachable")) [] to false.

(** C4, the counterexample: with [--to q@3.0.0], [q] not installed and an
    update that proposes [q] at 2.0.0, the planner records 2.0.0. *)
Lemma populate_ignores_to_when_not_installed :
  exists st',
    populatePackageJsonUpdatesAndGetPackagesToCheck
      (emptyWorkspace [("q", "3.0.0")]) 1 "q"
      (mkUpdateForPackage "2.0.0" None None None)
      (create (emptyWorkspace [("q", "3.0.0")]))
    = Returned ([], st')
    /\ Obj.get (packageJsonUpdates st') "q"
       <> Some (overriddenTarget (emptyWorkspace [("q", "3.0.0")]) "q"
                  (mkUpdateForPackage "2.0.0" None None None))
    /\ option_map pu_version (Obj.get (packageJsonUpdates st') "q")
       = Some "2.0.0".
Proof.
  eexists. split; [reflexivity|]. split; [|reflexivity].
  vm_compute. discriminate.
Qed.

(** C4, as amended.  The [to] override of a package, when set, replaces the
    version of the incoming update in the call of [fetch] for an installed
    package (a failing fetch shows the version asked for).  When the
    installed version of [pkg] is null, the planner calls
    [addPackageJsonUpdate] for [pkg] with the version of the incoming update
    (the [to] override does not enter it) and its [addToPackageJson], or
    [false] without one, and returns the empty list; it makes no call to
    [fetch], and a package with no entry in the plan yet gets exactly that
    entry. *)
Theorem populate_records_uninstalled_package
    (options : MigratorOptions) (fuel : nat) (pkg : string)
    (target : PackageJsonUpdateForPackage) (st : State) :
  let targetVersion :=
    match Obj.get (to options) pkg with
    | Some version => if nonEmpty version then version else pu_version target
    | None => pu_version target
    end in
  let recorded :=
    mkUpdateForPackage (pu_version target)
      (Some (default AddFalse (pu_addToPackageJson target))) None None in
  (forall e,
     Js.truthy (getPkgVersion options st pkg) = true ->
     fetch options pkg targetVersion = inl e ->
     populatePackageJsonUpdatesAndGetPackagesToCheck options (S fuel) pkg
       target st = Threw (wrapFetchError e))
  /\ (getPkgVersion options st pkg = None ->
      populatePackageJsonUpdatesAndGetPackagesToCheck options (S fuel) pkg
        target st
      = Returned ([], addPackageJsonUpdate st pkg recorded)
      /\ fetchLog (addPackageJsonUpdate st pkg recorded) = fetchLog st
      /\ (Obj.get (packageJsonUpdates st) pkg = None ->
          Obj.get (packageJsonUpdates (addPackageJsonUpdate st pkg recorded))
            pkg = Some recorded)).
Proof.
  intros targetVersion recorded. split.
  - intros e Hinst Hfetch.
    cbn [populatePackageJsonUpdatesAndGetPackagesToCheck].
    rewrite Hinst. cbn [negb]. unfold callFetch.
    replace (if Js.truthy (Obj.get (to options) pkg)
             then default EmptyString (Obj.get (to options) pkg)
             else pu_version target) with targetVersion.
    + rewrite Hfetch. reflexivity.
    + unfold targetVersion, Js.truthy, nonEmpty.
      destruct (Obj.get (to options) pkg) as [version|]; [|reflexivity].
      destruct (negb (String.eqb version EmptyString)); reflexivity.
  - intros Hnull. split; [|split].
    + cbn [populatePackageJsonUpdatesAndGetPackagesToCheck].
      rewrite Hnull. reflexivity.
    + unfold addPackageJsonUpdate.
      destruct (match Obj.get (packageJsonUpdates st) pkg with
                | Some current => gt (pu_version recorded) (pu_version current)
                | None => true
                end); reflexivity.
    + intros Habsent. apply UpgradeOnly.addPackageJsonUpdate_same. auto.
Qed.

(** [q] is installed, and the registry has no version of it to match. *)
Definition unmatchedWorkspace (to : Obj.t string) : MigratorOptions :=
  mkMigratorOptions (mkPackageJson None None) (fun _ _ => Some "1.0.0")
    (fun pkg version =>
       if String.eqb version "3.0.0"
       then inl (Error "No matching version found for q@3.0.0")
       else inr (mkConfiguration version None None None None))
    [] to false.

Lemma populate_records_uninstalled_package_witness :
  populatePackageJsonUpdatesAndGetPackagesToCheck
    (emptyWorkspace [("q", "3.0.0")]) 1 "q"
    (mkUpdateForPackage "2.0.0" (Some (AddTo DevDependencies)) None None)
    (create (emptyWorkspace [("q", "3.0.0")]))
  = Returned
      ([], mkState
             [("q", mkUpdateForPackage "2.0.0" (Some (AddTo DevDependencies))
                      None None)] [] [] [])
  /\ populatePackageJsonUpdatesAndGetPackagesToCheck
       (unmatchedWorkspace [("q", "3.0.0")]) 1 "q"
       (mkUpdateForPackage "2.0.0" None None None)
       (create (unmatchedWorkspace [("q", "3.0.0")]))
     = Threw
         (wrapFetchError (Error "No matching version found for q@3.0.0")).
Proof.
  split.
  - refine (proj1 (proj2 (populate_records_uninstalled_package
                            (emptyWorkspace [("q", "3.0.0")]) 0 "q"
                            (mkUpdateForPackage "2.0.0"
                               (Some (AddTo DevDependencies)) None None)
                            (create (emptyWorkspace [("q", "3.0.0")]))) _)).
    reflexivity.
  - refine (proj1 (populate_records_uninstalled_package
                     (unmatchedWorkspace [("q", "3.0.0")]) 0 "q"
                     (mkUpdateForPackage "2.0.0" None None None)
                     (create (unmatchedWorkspace [("q", "3.0.0")])))
              _ _ _); reflexivity.
Defined.

End NotInstalled.

(** ** The list of migrations *)

Module MigrateJson.
Import Migrator.

Section Facts.

Variable options : MigratorOptions.
Variable imports : Imports.

(** Two states with the same plan and the same overrides: they differ at
    most in the versions collected and in the calls of [fetch] recorded. *)
Definition SamePlan (st st' : State) : Prop :=
  packageJsonUpdates st' = packageJsonUpdates st
  /\ installedPkgVersionOverrides st' = installedPkgVersionOverrides st.

Lemma SamePlan_refl st : SamePlan st st.
Proof. split; reflexivity. Qed.

Lemma SamePlan_trans st1 st2 st3 :
  SamePlan st1 st2 -> SamePlan st2 st3 -> SamePlan st1 st3.
Proof. intros [H1 H2] [H3 H4]. split; congruence. Qed.

Lemma getPkgVersion_SamePlan st st' pkg :
  SamePlan st st' -> getPkgVersion options st' pkg = getPkgVersion options st pkg.
Proof. intros [_ H]. unfold getPkgVersion. rewrite H. reflexivity. Qed.

Lemma areRequirementsMet_SamePlan st st' requirements extra :
  SamePlan st st' ->
  areRequirementsMet options imports st' requirements extra
  = areRequirementsMet options imports st requirements extra.
Proof.
  intros [H1 H2]. unfold areRequirementsMet, requirementMet, getPkgVersion.
  rewrite H1, H2. reflexivity.
Qed.

Lemma callFetch_spec st pkg version config st' :
  callFetch options st pkg version = Returned (config, st') ->
  fetch options pkg version = inr config /\ st' = logFetch st pkg version.
Proof.
  unfold callFetch. destruct (fetch options pkg version); [discriminate|].
  intros [= -> ->]. auto.
Qed.

(** A requirement met by the installed version or by the planned one. *)
Definition RequirementHolds (st : State) (pkgName versionRange : string)
  : Prop :=
  (exists installed,
     getPkgVersion options st pkgName = Some installed
     /\ installed <> EmptyString
     /\ satisfies imports installed versionRange = true)
  \/ (exists planned,
        Obj.get (packageJsonUpdates st) pkgName = Some planned
        /\ pu_version planned <> EmptyString
        /\ satisfies imports (pu_version planned) versionRange = true).

Lemma nonEmpty_true s : nonEmpty s = true -> s <> EmptyString.
Proof.
  unfold nonEmpty. intros H ->. discriminate.
Qed.

Lemma truthy_Some v :
 Js.truthy v = true -> exists s, v = Some s /\ s <> EmptyString.
Proof.
  destruct v as [s|]; simpl; [|discriminate].
  intros H. exists s. split; [reflexivity|]. intros ->. discriminate.
Qed.

Lemma requirementMet_holds st pkgName versionRange :
  requirementMet options imports st None (pkgName, versionRange) = true ->
  RequirementHolds st pkgName versionRange.
Proof.
  unfold requirementMet. rewrite orb_false_r.
  intros H. apply orb_true_iff in H. destruct H as [H|H].
  - apply andb_true_iff in H. destruct H as [H1 H2].
    apply truthy_Some in H1. destruct H1 as (i & Hi & Hne).
    left. exists i. rewrite Hi in H2. simpl in H2. auto.
  - destruct (Obj.get (packageJsonUpdates st) pkgName) as [u|] eqn:Hu;
      [|discriminate].
    apply andb_true_iff in H. destruct H as [H1 H2].
    right. exists u. auto using nonEmpty_true.
Qed.

Lemma areRequirementsMet_holds st requirements :
  areRequirementsMet options imports st requirements None = true ->
  forall pkgName versionRange,
    In (pkgName, versionRange) (default [] requirements) ->
    RequirementHolds st pkgName versionRange.
Proof.
  unfold areRequirementsMet. destruct requirements as [reqs|]; simpl; [|tauto].
  destruct reqs as [|r reqs]; [simpl; tauto|].
  cbn [Obj.keys map length Nat.eqb Obj.entries].
  intros H pkgName versionRange Hin.
  rewrite forallb_forall in H.
  apply requirementMet_holds, H, Hin.
Qed.

(** What holds of every migration that is kept for a package. *)
Definition Emitted (st : State) (m : Migration) : Prop :=
  exists installed planned version config generators,
    getPkgVersion options st (m_package m) = Some installed
    /\ Obj.get (packageJsonUpdates st) (m_package m) = Some planned
    /\ fetch options (m_package m) (pu_version planned) = inr config
    /\ c_generators config = Some generators
    /\ In (m_name m, m_entry m) (Obj.entries generators)
    /\ g_version (m_entry m) = Some version
    /\ Semver.gt (normalizeVersion version) (normalizeVersion installed)
       = Some true
    /\ Semver.lte (normalizeVersion version)
         (normalizeVersion (pu_version planned)) = Some true
    /\ forall pkgName versionRange,
         In (pkgName, versionRange) (default [] (g_requires (m_entry m))) ->
         RequirementHolds st pkgName versionRange.

Lemma RequirementHolds_SamePlan st st' pkgName versionRange :
  SamePlan st st' ->
  RequirementHolds st' pkgName versionRange ->
  RequirementHolds st pkgName versionRange.
Proof.
  intros HS. unfold RequirementHolds.
  rewrite (getPkgVersion_SamePlan st st' _ HS).
  destruct HS as [-> _]. tauto.
Qed.

Lemma Emitted_SamePlan st st' m :
  SamePlan st st' -> Emitted st' m -> Emitted st m.
Proof.
  intros HS (i & pl & v & c & g & H1 & H2 & H3 & H4 & H5 & H6 & H7 & H8 & H9).
  exists i, pl, v, c, g.
  rewrite <- (getPkgVersion_SamePlan st st' _ HS).
  destruct HS as [HS1 HS2]. rewrite <- HS1.
  repeat (split; [assumption|]).
  intros pkgName versionRange Hin.
  apply (RequirementHolds_SamePlan st st'); [split; assumption | auto].
Qed.

Lemma keepMigration_spec st currentVersion version name entry :
  keepMigration options imports st currentVersion version (name, entry) = true ->
  exists v,
    g_version entry = Some v
    /\ gt v currentVersion = true
    /\ lte v version = true
    /\ areRequirementsMet options imports st (g_requires entry) None = true.
Proof.
  unfold keepMigration; cbn [snd].
  rewrite !andb_true_iff. intros [[[H1 H2] H3] H4].
  apply truthy_Some in H1. destruct H1 as (v & Hv & _).
  rewrite Hv in *. exists v. auto.
Qed.

Lemma migrationsOfPackage_spec packageName st ms st' :
  migrationsOfPackage options imports packageName st = Returned (ms, st') ->
  SamePlan st st' /\ forall m, In m ms -> Emitted st m.
Proof.
  unfold migrationsOfPackage.
  destruct (getPkgVersion options st packageName) as [currentVersion|] eqn:Hcur.
  2:{ intros [= <- <-]. split; [apply SamePlan_refl | simpl; tauto]. }
  destruct (Obj.get (packageJsonUpdates st) packageName) as [planned|] eqn:Hpl;
    [|discriminate].
  destruct (callFetch options st packageName (pu_version planned))
    as [| |[config st1]] eqn:Hfetch; try discriminate.
  apply callFetch_spec in Hfetch. destruct Hfetch as [Hfetch ->].
  cbn [mbind Outcome_bind].
  destruct (c_generators config) as [generators|] eqn:Hgen.
  2:{ intros [= <- <-]. split; [split; reflexivity | simpl; tauto]. }
  intros [= <- <-]. split; [split; reflexivity|].
  intros m Hm. apply in_map_iff in Hm.
  destruct Hm as ([name entry] & <- & Hin).
  apply filter_In in Hin. destruct Hin as [Hin Hkeep].
  apply keepMigration_spec in Hkeep.
  destruct Hkeep as (v & Hv & Hgt & Hlte & Hreq).
  exists currentVersion, planned, v, config, generators.
  cbn [m_package m_name m_entry fst snd].
  repeat (split; [assumption|]).
  split; [rewrite Normalize.gt_normalized; congruence|].
  split; [rewrite Normalize.lte_normalized; congruence|].
  intros pkgName versionRange Hr.
  apply (RequirementHolds_SamePlan st (logFetch st packageName (pu_version planned)));
    [split; reflexivity|].
  eapply areRequirementsMet_holds; eauto.
Qed.

Lemma mapM_migrationsOfPackage names : forall st results st',
  JsList.mapM (migrationsOfPackage options imports) names st
  = Returned (results, st') ->
  SamePlan st st'
  /\ forall ms m, In ms results -> In m ms -> Emitted st m.
Proof.
  induction names as [|name names IH]; intros st results st'; simpl.
  - intros [= <- <-]. split; [apply SamePlan_refl | simpl; tauto].
  - destruct (migrationsOfPackage options imports name st)
      as [| |[ms st1]] eqn:H1; try discriminate.
    cbn [mbind Outcome_bind].
    destruct (JsList.mapM (migrationsOfPackage options imports) names st1)
      as [| |[rest st2]] eqn:H2; try discriminate.
    cbn [mbind Outcome_bind]. intros [= <- <-].
    apply migrationsOfPackage_spec in H1. destruct H1 as [S1 E1].
    apply IH in H2. destruct H2 as [S2 E2].
    split; [eapply SamePlan_trans; eauto|].
    intros ms' m [<-|Hin] Hm; [auto|].
    eapply Emitted_SamePlan; eauto.
Qed.

End Facts.


(** A workspace with [p] installed at 1.0.0, whose manifest at 2.0.0 has a
    migration below the installed version, one in range that requires [p],
    and one above the planned version. *)
Definition sampleGenerators : Obj.t MigrationsJsonEntry :=
  [ ("old", mkMigrationsJsonEntry (Some "0.9.0") None None None None None);
    ("in-range",
     mkMigrationsJsonEntry (Some "1.5") None None None None
       (Some [("p", ">=1.0.0")]));
    ("future", mkMigrationsJsonEntry (Some "2.1.0") None None None None None) ].

Definition sampleOptions : MigratorOptions :=
  mkMigratorOptions (mkPackageJson None None)
    (fun pkg _ => if String.eqb pkg "p" then Some "1.0.0" else None)
    (fun pkg version =>
       inr (mkConfiguration version None (Some sampleGenerators) None None))
    [] [] false.

(** A semver that knows one range. *)
Definition sampleImports : Imports :=
  mkImports (fun _ => true)
    (fun version range =>
       String.eqb range ">=1.0.0"
       && default false (Semver.gte version "1.0.0"))
    (fun version => Some version).

Definition samplePlan : State :=
  mkState [("p", mkUpdateForPackage "2.0.0" (Some AddFalse) None None)]
    [("p", "2.0.0")] [] [].


End MigrateJson.

(** ** The normaliser *)

Module NormalizeFacts.

Lemma split_cutFirst sep s :
  Js.split sep s
  = fst (Js.cutFirst sep s)
    :: match snd (Js.cutFirst sep s) with
       | Some rest => Js.split sep rest
       | None => []
       end.
Proof.
  induction s as [|c s IH]; simpl; [reflexivity|].
  destruct (Ascii.eqb c sep); simpl; [reflexivity|].
  rewrite IH. destruct (Js.cutFirst sep s) as [h t]. reflexivity.
Qed.

Lemma split_without sep s : Js.includes sep s = false -> Js.split sep s = [s].
Proof.
  induction s as [|c s IH]; simpl; [reflexivity|].
  intros H. apply orb_false_iff in H. destruct H as [H1 H2].
  rewrite H1, (IH H2). reflexivity.
Qed.

(** Where the code and the specification agree: at most one ['-']. *)
Lemma normalizeVersion_one_hyphen version :
  match snd (Js.cutFirst "-" version) with
  | Some rest => Js.includes "-" rest = false
  | None => True
  end ->
  normalizeVersion version = normalizeVersionAsSpecified version.
Proof.
  unfold normalizeVersion, normalizeVersionAsSpecified.
  rewrite (split_cutFirst "-" version).
  destruct (Js.cutFirst "-" version) as [semver [rest|]]; cbn [fst snd].
  - intros H. rewrite (split_without _ _ H). reflexivity.
  - reflexivity.
Qed.

(** The result is the first of the four variations that is above [0.0.0],
    and [0.0.0] when there is none; no input makes the function throw. *)
Lemma normalizeVersion_result version :
  Semver.gt (normalizeVersion version) "0.0.0" = Some true
  \/ normalizeVersion version = "0.0.0".
Proof.
  unfold normalizeVersion.
  match goal with |- context [firstAboveZero ?l] =>
    destruct (Normalize.firstAboveZero_spec l) as [[_ H]|[H _]]
  end; auto.
Qed.

(** C7, at the failing input: of [1.0.0-beta-next.2] the code keeps
    [1.0.0-beta], a lower version; cut at the first ['-'] the full candidate
    is the version itself, which is above [0.0.0]. *)
Theorem normalizeVersion_drops_prerelease_tail :
  normalizeVersion "1.0.0-beta-next.2" = "1.0.0-beta"
  /\ normalizeVersionAsSpecified "1.0.0-beta-next.2" = "1.0.0-beta-next.2"
  /\ Semver.gt "1.0.0-beta-next.2" "0.0.0" = Some true
  /\ Semver.lt "1.0.0-beta" "1.0.0-beta-next.2" = Some true.
Proof. repeat split; reflexivity. Qed.

End NormalizeFacts.

(** ** The target parser *)

Module ParserFacts.

(** A non-empty run of digits. *)
Definition Digits (s : string) : Prop :=
  s <> EmptyString /\ Js.all Semver.isDigit s = true.

(** The numeric shorthand [N], [N.N] or [N.N.N]. *)
Definition NumericShorthand (args : string) : Prop :=
  exists a, Digits a
    /\ (args = a
        \/ exists b, Digits b
             /\ (args = a +:+ "." +:+ b
                 \/ exists c, Digits c /\ args = a +:+ "." +:+ b +:+ "." +:+ c)).

Lemma digit_not_dot c : Semver.isDigit c = true -> Ascii.eqb c "." = false.
Proof.
  destruct (Ascii.eqb_spec c "."); [subst; discriminate | reflexivity].
Qed.

Lemma digits_no_dot s :
  Js.all Semver.isDigit s = true -> Js.includes "." s = false.
Proof.
  induction s as [|c s IH]; simpl; [reflexivity|].
  intros H. apply andb_true_iff in H. destruct H as [H1 H2].
  rewrite (digit_not_dot c H1), (IH H2). reflexivity.
Qed.

Lemma split_app sep a b :
  Js.includes sep a = false ->
  Js.split sep (a +:+ String sep b) = a :: Js.split sep b.
Proof.
  induction a as [|c a IH]; simpl.
  - rewrite Ascii.eqb_refl. reflexivity.
  - intros H. apply orb_false_iff in H. destruct H as [H1 H2].
    rewrite H1, (IH H2). reflexivity.
Qed.

Lemma isDigits_Digits s : Digits s -> isDigits s = true.
Proof.
  intros [Hne Hall]. unfold isDigits, Migrator.nonEmpty. rewrite Hall.
  destruct (String.eqb_spec s EmptyString); [contradiction | reflexivity].
Qed.

Lemma matches_shorthand args :
  NumericShorthand args -> matchesNumericShorthand args = true.
Proof.
  intros (a & Ha & [->|(b & Hb & [->|(c & Hc & ->)])]);
    unfold matchesNumericShorthand;
    pose proof (digits_no_dot a (proj2 Ha)) as Na.
  - rewrite (NormalizeFacts.split_without _ _ Na). apply isDigits_Digits, Ha.
  - pose proof (digits_no_dot b (proj2 Hb)) as Nb.
    change (a +:+ "." +:+ b) with (a +:+ String "." b).
    rewrite (split_app _ _ _ Na), (NormalizeFacts.split_without _ _ Nb).
    rewrite !isDigits_Digits by assumption. reflexivity.
  - pose proof (digits_no_dot b (proj2 Hb)) as Nb.
    pose proof (digits_no_dot c (proj2 Hc)) as Nc.
    change (a +:+ "." +:+ b +:+ "." +:+ c)
      with (a +:+ String "." (b +:+ String "." c)).
    rewrite (split_app _ _ _ Na), (split_app _ _ _ Nb),
      (NormalizeFacts.split_without _ _ Nc).
    rewrite !isDigits_Digits by assumption. reflexivity.
Qed.

Lemma shorthand_nonempty args : NumericShorthand args -> args <> EmptyString.
Proof.
  intros (a & [Ha _] & H) ->. destruct a as [|x a]; [contradiction|].
  destruct H as [H|(b & _ & [H|(c & _ & H)])]; discriminate.
Qed.

Definition beta14 : Semver.SemVer :=
  Semver.mkSemVer 14 0 0 [Semver.IdStr "beta"; Semver.IdNum 0] [].

Lemma parse_beta14 : Semver.parse "14.0.0-beta.0" = Some beta14.
Proof. reflexivity. Qed.

Lemma lt_normalized_beta14 v :
  Semver.lt (normalizeVersion v) "14.0.0-beta.0"
  = Some (Semver.isLt (Semver.compareSemVer (Normalize.parsed v) beta14)).
Proof.
  unfold Semver.lt, Semver.compare.
  rewrite Normalize.parse_normalized, parse_beta14. reflexivity.
Qed.

(** C8.  An input without ['@'] that is [latest], [next], a valid semver or a
    numeric shorthand is taken as a bare version: the target version is the
    input normalised (a tag as it is), and the target package is [nx] for a
    tag and for a normalised version at or above [14.0.0-beta.0], and
    [@nrwl/workspace] for a normalised version below it.  So [13.9.0] gives
    [@nrwl/workspace] at [13.9.0], [16.0.0] gives [nx] at [16.0.0], and
    [latest] gives [nx] at [latest]. *)
Theorem parseTargetPackageAndVersion_bare_version :
  (forall args,
     Js.includes "@" args = false ->
     args = "latest" \/ args = "next" \/ Semver.valid args = true
     \/ NumericShorthand args ->
     exists targetPackage,
       parseTargetPackageAndVersion args
       = Returned (targetPackage, normalizeVersionWithTagCheck args)
       /\ (args = "latest" \/ args = "next"
           \/ Semver.gte (normalizeVersion args) "14.0.0-beta.0" = Some true ->
           targetPackage = "nx")
       /\ (args <> "latest" -> args <> "next" ->
           Semver.lt (normalizeVersion args) "14.0.0-beta.0" = Some true ->
           targetPackage = "@nrwl/workspace")
       /\ (targetPackage = "nx" \/ targetPackage = "@nrwl/workspace"))
  /\ parseTargetPackageAndVersion "13.9.0"
     = Returned ("@nrwl/workspace", "13.9.0")
  /\ parseTargetPackageAndVersion "16.0.0" = Returned ("nx", "16.0.0")
  /\ parseTargetPackageAndVersion "latest" = Returned ("nx", "latest").
Proof.
  split; [|repeat split; reflexivity].
  intros args Hat Hkind.
  assert (Hne : String.eqb args EmptyString = false).
  { destruct (String.eqb_spec args EmptyString) as [->|]; [|reflexivity].
    destruct Hkind as [H|[H|[H|H]]]; try discriminate.
    exfalso. exact (shorthand_nonempty _ H eq_refl). }
  assert (Hbare : isTag args || Semver.valid args || matchesNumericShorthand args
                  = true).
  { destruct Hkind as [->|[->|[H|H]]]; try reflexivity.
    - rewrite H, orb_true_r. reflexivity.
    - rewrite (matches_shorthand _ H), orb_true_r. reflexivity. }
  unfold parseTargetPackageAndVersion. rewrite Hne, Hat, Hbare.
  destruct (isTag args) eqn:Htag.
  - cbn [negb mbind Outcome_bind]. exists "nx".
    split; [reflexivity|]. split; [reflexivity|]. split; [|auto].
    unfold isTag in Htag. apply orb_true_iff in Htag.
    destruct Htag as [H|H]; apply String.eqb_eq in H; congruence.
  - cbn [negb]. unfold normalizeVersionWithTagCheck.
    unfold isTag in Htag. rewrite Htag.
    unfold semverCall. rewrite lt_normalized_beta14.
    cbn [mbind Outcome_bind].
    apply orb_false_iff in Htag. destruct Htag as [H1 H2].
    apply String.eqb_neq in H1, H2.
    unfold Semver.gte, Semver.compare.
    rewrite Normalize.parse_normalized, parse_beta14. simpl.
    destruct (Semver.compareSemVer (Normalize.parsed args) beta14); simpl;
      eexists; (split; [reflexivity|]);
      repeat split; intros; auto; try congruence;
      repeat match goal with H : _ \/ _ |- _ => destruct H end;
      congruence.
Qed.

Lemma parseTargetPackageAndVersion_bare_version_witness :
  exists targetPackage,
    parseTargetPackageAndVersion "15.8"
    = Returned (targetPackage, normalizeVersionWithTagCheck "15.8")
    /\ targetPackage = "nx".
Proof.
  destruct (proj1 parseTargetPackageAndVersion_bare_version "15.8" eq_refl)
    as (targetPackage & Hrun & Hnx & _).
  - right. right. right. exists "15". split; [split; [discriminate|reflexivity]|].
    right. exists "8". split; [split; [discriminate|reflexivity]|].
    left. reflexivity.
  - exists targetPackage. split; [exact Hrun|].
    apply Hnx. right. right. reflexivity.
Defined.

End ParserFacts.

(** ** The fetcher *)

Module FetcherFacts.
Import Fetcher.

Definition noCaches : Caches := mkCaches [] [].

(** A registry that knows [pkg@1.0.0] and declares [migrations.json] for it,
    a tarball from which that file cannot be read, and a temporary install
    that succeeds and finds no migrations file. *)
Definition unreadable : Exception := Error "ENOENT".

Definition fallbackConfiguration : ResolvedMigrationConfiguration :=
  mkConfiguration "1.0.0" None None None None.

Definition sampleFetch (packageName packageVersion : string)
  : Settled ResolvedMigrationConfiguration * Caches :=
  nxMigrateFetcher
    (fun _ version => inr version)
    (fun _ _ =>
       inr (Some (mkNxMigrationsConfiguration (Some "migrations.json") None)))
    (fun _ _ => inr "pkg-1.0.0.tgz")
    (fun _ _ => inl unreadable)
    (fun _ _ => inr tt)
    (fun _ => inr (None, None, "1.0.0"))
    (fun _ => inl unreadable)
    noCaches packageName packageVersion.

(** C6, the counterexample: the registry path finds the configuration, the
    migrations file cannot be read from the tarball, and [fetch] resolves
    with the manifest of the temporary install; it does not reject with the
    error of the missing file. *)
Lemma fetch_falls_back_when_file_is_missing :
  fst (sampleFetch "pkg" "1.0.0") = inr fallbackConfiguration
  /\ fst (sampleFetch "pkg" "1.0.0")
     <> inl (failedToFindMigrationsFile "migrations.json" "pkg" "1.0.0").
Proof. split; [reflexivity | discriminate]. Qed.

Section Facts.

Variable resolvePackageVersionUsingRegistry :
  string -> string -> Settled string.
Variable registryMigrationsConfig :
  string -> string -> Settled (option NxMigrationsConfiguration).
Variable packageRegistryPack : string -> string -> Settled string.
Variable readMigrationsFromTarball : string -> string -> Settled MigrationsJson.
Variable installPackage : string -> string -> Settled unit.
Variable readPackageMigrationConfig :
  string -> Settled (option string * option PackageGroup * string).
Variable readJsonFile : string -> Settled MigrationsJson.

Lemma download_fails_when_unreadable packageName packageVersion config
    migrationsFilePath tarballPath e :
  migrations config = Some migrationsFilePath ->
  packageRegistryPack packageName packageVersion = inr tarballPath ->
  readMigrationsFromTarball tarballPath migrationsFilePath = inl e ->
  downloadPackageMigrationsFromRegistry packageRegistryPack
    readMigrationsFromTarball packageName packageVersion config
  = inl (failedToFindMigrationsFile migrationsFilePath packageName
           packageVersion).
Proof.
  intros Hm Hpack Hread. unfold downloadPackageMigrationsFromRegistry.
  rewrite Hm, Hpack. simpl. rewrite Hread. reflexivity.
Qed.

End Facts.

(** C6, as amended.  When nothing is cached for the request, the registry
    resolves the version, finds a migrations configuration that declares a
    migrations file, and that file cannot be read from the packed tarball,
    [downloadPackageMigrationsFromRegistry] throws the error "Failed to find
    migrations file ... in package ...", the [catch] of [fetchMigrations]
    takes it, and [fetch] settles to what the temporary install gives (with
    [schematics] renamed): its manifest or its own error. *)
Theorem fetch_settles_to_install_when_file_is_missing
    (resolvePackageVersionUsingRegistry : string -> string -> Settled string)
    (registryMigrationsConfig :
       string -> string -> Settled (option NxMigrationsConfiguration))
    (packageRegistryPack : string -> string -> Settled string)
    (readMigrationsFromTarball : string -> string -> Settled MigrationsJson)
    (installPackage : string -> string -> Settled unit)
    (readPackageMigrationConfig :
       string -> Settled (option string * option PackageGroup * string))
    (readJsonFile : string -> Settled MigrationsJson)
    (caches : Caches) (packageName packageVersion resolvedVersion : string)
    (config : NxMigrationsConfiguration)
    (migrationsFilePath tarballPath : string) (e : Exception) :
  Obj.get (migrationsCache caches) (cacheKey packageName packageVersion)
  = None ->
  Obj.get (resolvedVersionCache caches) (cacheKey packageName packageVersion)
  = None ->
  resolvePackageVersionUsingRegistry packageName packageVersion
  = inr resolvedVersion ->
  Obj.get (migrationsCache caches) (cacheKey packageName resolvedVersion)
  = None ->
  registryMigrationsConfig packageName resolvedVersion = inr (Some config) ->
  migrations config = Some migrationsFilePath ->
  migrationsFilePath <> EmptyString ->
  packageRegistryPack packageName resolvedVersion = inr tarballPath ->
  readMigrationsFromTarball tarballPath migrationsFilePath = inl e ->
  downloadPackageMigrationsFromRegistry packageRegistryPack
    readMigrationsFromTarball packageName resolvedVersion config
  = inl (failedToFindMigrationsFile migrationsFilePath packageName
           resolvedVersion)
  /\ fst (nxMigrateFetcher resolvePackageVersionUsingRegistry
            registryMigrationsConfig packageRegistryPack
            readMigrationsFromTarball installPackage
            readPackageMigrationConfig readJsonFile
            caches packageName packageVersion)
     = match getPackageMigrationsUsingInstall installPackage
               readPackageMigrationConfig readJsonFile
               packageName packageVersion with
       | inl installError => inl installError
       | inr installed => inr (renameSchematics installed)
       end.
Proof.
  intros Hmiss Hver Hresolve Hmiss' Hconfig Hfile Hne Hpack Hread.
  pose proof (download_fails_when_unreadable packageRegistryPack
                readMigrationsFromTarball packageName resolvedVersion config
                migrationsFilePath tarballPath e Hfile Hpack Hread) as Hdown.
  split; [exact Hdown|].
  unfold nxMigrateFetcher. rewrite Hmiss.
  unfold fetchMigrations, registryPath.
  rewrite Hver, Hresolve, Hmiss'.
  unfold getPackageMigrationsUsingRegistry. rewrite Hconfig, Hfile.
  assert (Ht : Js.truthy (Some migrationsFilePath) = true).
  { simpl. destruct (String.eqb_spec migrationsFilePath EmptyString);
      [contradiction | reflexivity]. }
  rewrite Ht. cbn [negb]. rewrite Hdown.
  destruct (getPackageMigrationsUsingInstall installPackage
              readPackageMigrationConfig readJsonFile packageName
              packageVersion); reflexivity.
Qed.

Lemma fetch_settles_to_install_when_file_is_missing_witness :
  fst (sampleFetch "pkg" "1.0.0") = inr (renameSchematics fallbackConfiguration).
Proof.
  refine (proj2 (fetch_settles_to_install_when_file_is_missing
                   (fun _ version => inr version)
                   (fun _ _ =>
                      inr (Some (mkNxMigrationsConfiguration
                                   (Some "migrations.json") None)))
                   (fun _ _ => inr "pkg-1.0.0.tgz")
                   (fun _ _ => inl unreadable)
                   (fun _ _ => inr tt)
                   (fun _ => inr (None, None, "1.0.0"))
                   (fun _ => inl unreadable)
                   noCaches "pkg" "1.0.0" "1.0.0"
                   (mkNxMigrationsConfiguration (Some "migrations.json") None)
                   "migrations.json" "pkg-1.0.0.tgz" unreadable
                   eq_refl eq_refl eq_refl eq_refl eq_refl eq_refl _
                   eq_refl eq_refl)).
  discriminate.
Defined.

End FetcherFacts.

(** ** The traversal terminates *)

Module Termination.
Import Migrator.

(** A call that returns or throws. *)
Definition Finishes {A} (o : Outcome A) : Prop := o <> OutOfFuel.

Lemma Finishes_Returned {A} (a : A) : Finishes (Returned a).
Proof. discriminate. Qed.

Lemma Finishes_Threw {A} e : Finishes (@Threw A e).
Proof. discriminate. Qed.

Lemma Finishes_bind {A B} (m : Outcome A) (f : A -> Outcome B) :
  Finishes m -> (forall a, m = Returned a -> Finishes (f a)) ->
  Finishes (m ≫= f).
Proof.
  destruct m as [| e | a]; intros Hm Hf; cbn [mbind Outcome_bind].
  - contradiction.
  - apply Finishes_Threw.
  - apply Hf. reflexivity.
Qed.

Lemma semverCall_Finishes f a b : Finishes (semverCall f a b).
Proof. unfold semverCall. destruct (f a b); discriminate. Qed.

Lemma semverCall_Returned f a b r :
  semverCall f a b = Returned r -> f a b = Some r.
Proof. unfold semverCall. destruct (f a b); congruence. Qed.

(** *** Comparisons of versions as they come *)

Lemma gte_false a b :
  Semver.gte a b = Some false <->
  exists x y, Semver.parse a = Some x /\ Semver.parse b = Some y
              /\ Semver.compareSemVer x y = Lt.
Proof.
  unfold Semver.gte, Semver.compare.
  destruct (Semver.parse a) as [x|], (Semver.parse b) as [y|]; simpl;
    try (split; [discriminate | intros (? & ? & ? & ? & ?); discriminate]).
  split.
  - intros [= H]. exists x, y. repeat split.
    destruct (Semver.compareSemVer x y); simpl in H; congruence.
  - intros (x' & y' & [= <-] & [= <-] & ->). reflexivity.
Qed.

Lemma gte_false_trans a b c :
  Semver.gte a b = Some false -> Semver.gte b c = Some false ->
  Semver.gte a c = Some false.
Proof.
  rewrite !gte_false.
  intros (x & y & Hx & Hy & H1) (y' & z & Hy' & Hz & H2).
  rewrite Hy in Hy'. injection Hy' as <-.
  exists x, z. repeat split; try assumption.
  exact (SemverOrder.laws_lt_trans _ SemverOrder.Laws_semver x y z H1 H2).
Qed.

Lemma gte_self a : Semver.gte a a <> Some false.
Proof.
  rewrite gte_false. intros (x & y & Hx & Hy & H).
  rewrite Hx in Hy. injection Hy as <-.
  rewrite (SemverOrder.laws_refl _ SemverOrder.Laws_semver) in H. discriminate.
Qed.

(** *** The measure: the manifests that could still be entered *)

(** The test of [collectedVersions] before the traversal enters a
    manifest. *)
Definition covered (collected : Obj.t string) (pkg version : string)
  : Outcome bool :=
  if Js.truthy (Obj.get collected pkg)
  then semverCall Semver.gte (default EmptyString (Obj.get collected pkg))
         version
  else Returned false.

(** The manifest [pkg]@[version] is not covered: the traversal would enter
    it. *)
Definition open (collected : Obj.t string) (node : string * string) : bool :=
  match covered collected (fst node) (snd node) with
  | Returned false => true
  | _ => false
  end.

Definition remaining (graph : list (string * string)) (st : State) : nat :=
  length (List.filter (open (collectedVersions st)) graph).

Lemma filter_length_le {A} (f g : A -> bool) l :
  (forall x, In x l -> f x = true -> g x = true) ->
  length (List.filter f l) <= length (List.filter g l).
Proof.
  induction l as [|x l IH]; intros H; simpl; [lia|].
  assert (IH' : length (List.filter f l) <= length (List.filter g l)).
  { apply IH. intros y Hy. apply H. right. exact Hy. }
  destruct (f x) eqn:Ef.
  - rewrite (H x (or_introl eq_refl) Ef). simpl. lia.
  - destruct (g x); simpl; lia.
Qed.

Lemma filter_length_lt {A} (f g : A -> bool) l x :
  (forall y, In y l -> f y = true -> g y = true) ->
  In x l -> f x = false -> g x = true ->
  length (List.filter f l) < length (List.filter g l).
Proof.
  induction l as [|y l IH]; intros H Hin Hf Hg; simpl; [destruct Hin|].
  assert (Hle : length (List.filter f l) <= length (List.filter g l)).
  { apply filter_length_le. intros z Hz. apply H. right. exact Hz. }
  destruct Hin as [->|Hin].
  - rewrite Hf, Hg. simpl. lia.
  - assert (IH' : length (List.filter f l) < length (List.filter g l)).
    { apply IH; auto. intros z Hz. apply H. right. exact Hz. }
    destruct (f y) eqn:Ef.
    + rewrite (H y (or_introl eq_refl) Ef). simpl. lia.
    + destruct (g y); simpl; lia.
Qed.

Lemma remaining_le_graph graph st : remaining graph st <= length graph.
Proof. unfold remaining. apply List.filter_length_le. Qed.

(** Entering [pkg]@[version] closes it, and opens nothing. *)
Lemma falsy_empty version : Js.truthy (Some version) = false -> version = "".
Proof.
  simpl. destruct (String.eqb_spec version EmptyString); [auto | discriminate].
Qed.

Lemma open_after_entering collected pkg version node :
  covered collected pkg version = Returned false ->
  open (Obj.set collected pkg version) node = true ->
  open collected node = true.
Proof.
  destruct node as [q u]. unfold open, covered; cbn [fst snd].
  intros Hcov Hopen.
  destruct (String.eqb_spec pkg q) as [<-|Hne].
  - rewrite ObjFacts.get_set_eq in Hopen. cbn [default] in Hopen.
    destruct (Js.truthy (Obj.get collected pkg)); [|reflexivity].
    apply semverCall_Returned in Hcov.
    destruct (Js.truthy (Some version)) eqn:Hv.
    + unfold id in Hopen.
      destruct (semverCall Semver.gte version u) as [| |[|]] eqn:E1;
        try discriminate Hopen.
      apply semverCall_Returned in E1.
      unfold semverCall.
      rewrite (gte_false_trans _ _ _ Hcov E1). reflexivity.
    + apply falsy_empty in Hv. subst version.
      apply gte_false in Hcov. destruct Hcov as (x & y & _ & Hy & _).
      discriminate.
  - rewrite ObjFacts.get_set_ne in Hopen by exact Hne. exact Hopen.
Qed.

(** Entering a manifest whose version is not empty closes it. *)
Lemma closed_after_entering collected pkg version :
  version <> EmptyString ->
  open (Obj.set collected pkg version) (pkg, version) = false.
Proof.
  intros Hne. unfold open, covered; cbn [fst snd].
  rewrite ObjFacts.get_set_eq. cbn [default]. unfold id.
  assert (Ht : Js.truthy (Some version) = true).
  { simpl. destruct (String.eqb_spec version EmptyString);
      [contradiction | reflexivity]. }
  rewrite Ht. unfold semverCall.
  destruct (Semver.gte version version) as [[|]|] eqn:E; try reflexivity.
  exfalso. exact (gte_self version E).
Qed.

Lemma remaining_setCollectedVersion_le graph st pkg version :
  covered (collectedVersions st) pkg version = Returned false ->
  remaining graph (setCollectedVersion st pkg version) <= remaining graph st.
Proof.
  intros Hcov. unfold remaining. cbn [setCollectedVersion collectedVersions].
  apply filter_length_le. intros node _.
  apply open_after_entering, Hcov.
Qed.

Lemma remaining_setCollectedVersion_lt graph st pkg version :
  covered (collectedVersions st) pkg version = Returned false ->
  version <> EmptyString ->
  In (pkg, version) graph ->
  remaining graph (setCollectedVersion st pkg version) < remaining graph st.
Proof.
  intros Hcov Hne Hin. unfold remaining.
  cbn [setCollectedVersion collectedVersions].
  apply (filter_length_lt _ _ graph (pkg, version)).
  - intros node _. apply open_after_entering, Hcov.
  - exact Hin.
  - apply closed_after_entering, Hne.
  - unfold open. cbn [fst snd]. rewrite Hcov. reflexivity.
Qed.

(** *** What the helpers leave alone *)

Lemma addPackageJsonUpdate_collected st name u :
  collectedVersions (addPackageJsonUpdate st name u) = collectedVersions st.
Proof.
  unfold addPackageJsonUpdate.
  destruct (match Obj.get (packageJsonUpdates st) name with
            | Some current => gt (pu_version u) (pu_version current)
            | None => true
            end); reflexivity.
Qed.

Lemma normalizeGroupMember_collected packageName members : forall st,
  collectedVersions (fold_left (normalizeGroupMember packageName) members st)
  = collectedVersions st.
Proof.
  induction members as [|[pkg version] members IH]; intros st; simpl;
    [reflexivity|].
  rewrite IH.
  destruct (Js.truthy (Obj.get (installedPkgVersionOverrides st) packageName)
            && String.eqb version "*"); reflexivity.
Qed.

Lemma normalizeGroupItem_collected packageName targetVersion items :
  forall done st,
  collectedVersions
    (snd (fold_left (normalizeGroupItem packageName targetVersion) items
            (done, st)))
  = collectedVersions st.
Proof.
  induction items as [|item items IH]; intros done st; simpl; [reflexivity|].
  rewrite IH.
  destruct (Js.truthy (Obj.get (installedPkgVersionOverrides st) packageName));
    [|reflexivity].
  destruct item as [name|pkg version]; [reflexivity|].
  destruct (String.eqb version "*"); reflexivity.
Qed.

Lemma normalizePackageGroup_spec st packageName targetVersion packageGroup :
  Finishes (normalizePackageGroup st packageName targetVersion packageGroup)
  /\ forall group st',
       normalizePackageGroup st packageName targetVersion packageGroup
       = Returned (group, st') ->
       collectedVersions st' = collectedVersions st.
Proof.
  unfold normalizePackageGroup.
  destruct (if String.eqb packageName "@nrwl/workspace"
            then semverCall Semver.lt targetVersion "14.0.0-beta.0"
            else Returned false) as [| e | useLegacy] eqn:E.
  - exfalso. destruct (String.eqb packageName "@nrwl/workspace");
      [exact (semverCall_Finishes _ _ _ E) | discriminate].
  - cbn [mbind Outcome_bind]. split; [discriminate | discriminate].
  - cbn [mbind Outcome_bind].
    destruct (if useLegacy then Some (GroupMap legacyPackageGroup)
              else packageGroup) as [[items|members]|].
    + split; [discriminate|]. intros group st' [= Hst].
      pose proof (normalizeGroupItem_collected packageName targetVersion items
                    [] st) as H.
      rewrite Hst in H. exact H.
    + split; [discriminate|]. intros group st' [= <- <-].
      apply normalizeGroupMember_collected.
    + split; [discriminate|]. intros group st' [= <- <-]. reflexivity.
Qed.

Section Planner.

Variable options : MigratorOptions.

Lemma filterPackageJsonUpdates_Finishes st updates packageName targetVersion :
  Finishes
    (filterPackageJsonUpdates options st updates packageName targetVersion).
Proof.
  induction updates as [|update updates IH]; simpl; [discriminate|].
  destruct (u_packages update); [|exact IH].
  destruct (getPkgVersion options st packageName); [|discriminate].
  destruct (lte (u_version update) s || gt (u_version update) targetVersion);
    [exact IH|].
  apply Finishes_bind; [exact IH|]. intros others _.
  destruct (Nat.eqb _ 0); discriminate.
Qed.

Lemma parsed_empty : Normalize.parsed "" = Normalize.zero.
Proof. reflexivity. Qed.

(** No update is above the installed version and at most the empty target
    version, which normalises to [0.0.0]. *)
Lemma no_update_below_zero version installed :
  lte version installed || gt version "" = true.
Proof.
  rewrite Normalize.lte_compare, Normalize.gt_compare, parsed_empty.
  pose proof SemverOrder.Laws_semver as L.
  pose proof (Normalize.parsed_above_zero version) as Hv.
  pose proof (Normalize.parsed_above_zero installed) as Hi.
  destruct (Semver.compareSemVer (Normalize.parsed version) Normalize.zero)
    eqn:E; [|contradiction|rewrite orb_true_r; reflexivity].
  rewrite (SemverOrder.laws_eq_compat _ L _ _ (Normalize.parsed installed) E).
  rewrite (SemverOrder.laws_antisym _ L (Normalize.parsed installed)
             Normalize.zero).
  destruct (Semver.compareSemVer (Normalize.parsed installed) Normalize.zero);
    simpl; [reflexivity | contradiction | reflexivity].
Qed.

Lemma filterPackageJsonUpdates_empty_target st updates packageName kept :
  filterPackageJsonUpdates options st updates packageName "" = Returned kept ->
  kept = [].
Proof.
  revert kept. induction updates as [|update updates IH]; intros kept; simpl.
  - intros [= <-]. reflexivity.
  - destruct (u_packages update); [|apply IH].
    destruct (getPkgVersion options st packageName); [|discriminate].
    rewrite no_update_below_zero. apply IH.
Qed.

Lemma getPackageJsonUpdates_spec st packageName targetVersion config :
  Finishes
    (getPackageJsonUpdatesFromMigrationConfig options st packageName
       targetVersion config)
  /\ forall updates order st',
       getPackageJsonUpdatesFromMigrationConfig options st packageName
         targetVersion config = Returned ((updates, order), st') ->
       collectedVersions st' = collectedVersions st
       /\ (targetVersion = EmptyString -> updates = []).
Proof.
  unfold getPackageJsonUpdatesFromMigrationConfig.
  destruct (normalizePackageGroup_spec st packageName targetVersion
              (c_packageGroup config)) as [Hfin Hcol].
  destruct (normalizePackageGroup st packageName targetVersion
              (c_packageGroup config)) as [| e | [group st1]].
  - contradiction.
  - cbn [mbind Outcome_bind]. split; discriminate.
  - cbn [mbind Outcome_bind]. specialize (Hcol group st1 eq_refl).
    destruct (c_packageJsonUpdates
                (if Nat.eqb (length group) 0 then config
                 else setPackageGroupAsPackageJsonUpdate group targetVersion
                        config)) as [updates|].
    2:{ split; [discriminate|]. intros us order st' [= <- _ <-]. auto. }
    destruct (negb (Js.truthy (getPkgVersion options st1 packageName))).
    { split; [discriminate|]. intros us order st' [= <- _ <-]. auto. }
    pose proof (filterPackageJsonUpdates_Finishes st1 (Obj.values updates)
                  packageName targetVersion) as Hf.
    destruct (filterPackageJsonUpdates options st1 (Obj.values updates)
                packageName targetVersion) as [| e | kept] eqn:Ek.
    + contradiction.
    + cbn [mbind Outcome_bind]. split; discriminate.
    + cbn [mbind Outcome_bind]. split; [discriminate|].
      intros us order st' [= <- _ <-]. split; [exact Hcol|].
      intros ->. eapply filterPackageJsonUpdates_empty_target, Ek.
Qed.

End Planner.

(** *** The induction on the fuel *)

Section Traversal.

Variable options : MigratorOptions.
Variable imports : Imports.

(** The manifests the fetcher can answer with, each named by its package and
    its resolved version: a finite list. *)
Variable graph : list (string * string).
Hypothesis graph_finite :
  forall pkg version config,
    fetch options pkg version = inr config -> In (pkg, c_version config) graph.

(** A call in the state [st] finishes and leaves no more manifests open
    than there were. *)
Definition Settles {A} (st : State) (o : Outcome (A * State)) : Prop :=
  Finishes o
  /\ forall a st', o = Returned (a, st') ->
       remaining graph st' <= remaining graph st.

(** And when it returns packages to check, it has closed a manifest. *)
Definition Progresses (st : State)
    (o : Outcome (list PackagesToCheck * State)) : Prop :=
  Finishes o
  /\ forall checks st', o = Returned (checks, st') ->
       remaining graph st' <= remaining graph st
       /\ (checks <> [] -> remaining graph st' < remaining graph st).

Lemma Progresses_Settles st o : Progresses st o -> Settles st o.
Proof.
  intros [Hf Hp]. split; [exact Hf|].
  intros a st' E. apply (Hp a st' E).
Qed.

Lemma mapM_Settles {A B} (f : A -> State -> Outcome (B * State)) bound l :
  (forall x st, In x l -> remaining graph st <= bound -> Settles st (f x st)) ->
  forall st, remaining graph st <= bound -> Settles st (JsList.mapM f l st).
Proof using Type.
  induction l as [|x l IH]; intros Hf st Hst; simpl.
  - split; [discriminate|]. intros a st' [= <- <-]. lia.
  - destruct (Hf x st (or_introl eq_refl) Hst) as [Hfin Hle].
    destruct (f x st) as [| e | [y st1]]; [contradiction | |].
    + cbn [mbind Outcome_bind]. split; discriminate.
    + cbn [mbind Outcome_bind]. specialize (Hle y st1 eq_refl).
      destruct (IH (fun z s Hz => Hf z s (or_intror Hz)) st1 ltac:(lia))
        as [Hfin' Hle'].
      destruct (JsList.mapM f l st1) as [| e | [ys st2]]; [contradiction | |].
      * cbn [mbind Outcome_bind]. split; discriminate.
      * cbn [mbind Outcome_bind]. specialize (Hle' ys st2 eq_refl).
        split; [discriminate|]. intros a st' [= <- <-]. lia.
Qed.

Lemma callFetch_graph st pkg version config st' :
  callFetch options st pkg version = Returned (config, st') ->
  In (pkg, c_version config) graph
  /\ collectedVersions st' = collectedVersions st.
Proof using graph_finite.
  unfold callFetch.
  destruct (fetch options pkg version) as [e|c] eqn:E; [discriminate|].
  intros [= <- <-]. split; [eapply graph_finite, E | reflexivity].
Qed.

Lemma remaining_collected st st' :
  collectedVersions st' = collectedVersions st ->
  remaining graph st' = remaining graph st.
Proof. unfold remaining. intros ->. reflexivity. Qed.

Lemma concat_nonempty {A} (lists : list (list A)) :
  concat (List.filter (fun l => negb (Nat.eqb (length l) 0)) lists) <> [] ->
  lists <> [].
Proof. destruct lists; simpl; congruence. Qed.

Lemma sortByKey_nil {A} (key : A -> Z) l :
  JsList.sortByKey key l <> [] -> l <> [].
Proof. destruct l; simpl; congruence. Qed.

Lemma populate_Progresses fuel : forall pkg target st,
  remaining graph st < fuel ->
  Progresses st
    (populatePackageJsonUpdatesAndGetPackagesToCheck options fuel pkg target st).
Proof using graph_finite.
  induction fuel as [|fuel IH]; intros pkg target st Hfuel; [lia|].
  cbn [populatePackageJsonUpdatesAndGetPackagesToCheck].
  destruct (negb (Js.truthy (getPkgVersion options st pkg))).
  { split; [discriminate|]. intros checks st' [= <- <-].
    rewrite (remaining_collected _ _ (addPackageJsonUpdate_collected _ _ _)).
    split; [lia | congruence]. }
  destruct (callFetch options st pkg _) as [| e | [config st0]] eqn:Efetch.
  { discriminate Efetch || (unfold callFetch in Efetch;
      destruct (fetch options pkg _); discriminate). }
  { split; discriminate. }
  apply callFetch_graph in Efetch. destruct Efetch as [Hnode Hcol0].
  pose proof (remaining_collected _ _ Hcol0) as Hrem0.
  fold (covered (collectedVersions st0) pkg (c_version config)).
  destruct (covered (collectedVersions st0) pkg (c_version config))
    as [| e | [|]] eqn:Ecov.
  { exfalso. unfold covered in Ecov.
    destruct (Js.truthy (Obj.get (collectedVersions st0) pkg));
      [exact (semverCall_Finishes _ _ _ Ecov) | discriminate]. }
  { cbn [mbind Outcome_bind]. split; discriminate. }
  { cbn [mbind Outcome_bind]. split; [discriminate|].
    intros checks st' [= <- <-]. split; [lia | congruence]. }
  cbn [mbind Outcome_bind].
  set (st1 := setCollectedVersion st0 pkg (c_version config)).
  assert (Hle1 : remaining graph st1 <= remaining graph st).
  { rewrite <- Hrem0. apply remaining_setCollectedVersion_le, Ecov. }
  destruct (getPackageJsonUpdates_spec options st1 pkg (c_version config)
              config) as [Hfin Hspec].
  destruct (getPackageJsonUpdatesFromMigrationConfig options st1 pkg
              (c_version config) config) as [| e | [[updates order] st2]].
  { contradiction. }
  { cbn [mbind Outcome_bind]. split; discriminate. }
  cbn [mbind Outcome_bind].
  destruct (Hspec updates order st2 eq_refl) as [Hcol2 Hempty].
  set (st3 := addPackageJsonUpdate st2 pkg _).
  assert (Hrem3 : remaining graph st3 = remaining graph st1).
  { unfold st3.
    rewrite (remaining_collected _ _ (addPackageJsonUpdate_collected _ _ _)).
    apply remaining_collected, Hcol2. }
  destruct (String.eqb_spec (c_version config) EmptyString) as [Hv|Hv].
  { (* an empty resolved version: no updates survive the filter *)
    rewrite (Hempty Hv). simpl.
    split; [discriminate|]. intros checks st' [= <- <-].
    split; [lia | congruence]. }
  assert (Hlt1 : remaining graph st1 < remaining graph st).
  { rewrite <- Hrem0. apply remaining_setCollectedVersion_lt; assumption. }
  destruct (existsb (shouldCheck options) updates).
  { split; [discriminate|]. intros checks st' [= <- <-]. lia. }
  match goal with |- Progresses _ (mbind _ (JsList.mapM ?f ?l ?s)) =>
    destruct (mapM_Settles f (remaining graph st3) l) with (st := s)
      as [Hfin' Hle'];
      [ | lia | destruct (JsList.mapM f l s) as [| e | [results st4]] ]
  end.
  - intros entry s _ Hs. apply Progresses_Settles, IH. lia.
  - contradiction.
  - cbn [mbind Outcome_bind]. split; discriminate.
  - cbn [mbind Outcome_bind]. specialize (Hle' results st4 eq_refl).
    split; [discriminate|]. intros checks st' [= <- <-]. lia.
Qed.

Lemma collectAllFilteredUpdates_Finishes st updates : forall filteredUpdates,
  Finishes
    (collectAllFilteredUpdates options imports st filteredUpdates updates).
Proof.
  induction updates as [|update updates IH]; intros filteredUpdates; simpl;
    [discriminate|].
  apply Finishes_bind; [|intros; apply IH].
  unfold collectFilteredUpdates.
  destruct (areRequirementsMet options imports st (u_requires update)
              (Some filteredUpdates)
            && (negb (interactive options)
                || runPackageJsonUpdatesConfirmationPrompt imports
                     (u_xprompt update))); [|discriminate].
  destruct (u_packages update); discriminate.
Qed.

Lemma build_Settles fuel : forall pkg target st,
  remaining graph st + 1 < fuel ->
  Settles st (buildPackageJsonUpdates options imports fuel pkg target st).
Proof using graph_finite.
  induction fuel as [|fuel IH]; intros pkg target st Hfuel; [lia|].
  cbn [buildPackageJsonUpdates].
  destruct (populate_Progresses fuel pkg target st ltac:(lia)) as [Hfin Hp].
  destruct (populatePackageJsonUpdatesAndGetPackagesToCheck options fuel pkg
              target st) as [| e | [checks st1]]; [contradiction | |].
  { cbn [mbind Outcome_bind]. split; discriminate. }
  cbn [mbind Outcome_bind].
  destruct (Hp checks st1 eq_refl) as [Hle Hlt].
  match goal with |- Settles _ (mbind _ (JsList.mapM ?f ?l ?s)) =>
    destruct (mapM_Settles f (remaining graph st1) l) with (st := s)
      as [Hfin' Hle'];
      [ | lia | destruct (JsList.mapM f l s) as [| e | [units st2]] ]
  end.
  - intros check s Hin Hs.
    assert (Hstrict : remaining graph st1 < remaining graph st).
    { apply Hlt. intros ->. destruct Hin. }
    pose proof (collectAllFilteredUpdates_Finishes s (updates check) [])
      as Hcollect.
    destruct (collectAllFilteredUpdates options imports s [] (updates check))
      as [| e | filteredUpdates]; [contradiction | |].
    { cbn [mbind Outcome_bind]. split; discriminate. }
    cbn [mbind Outcome_bind].
    match goal with |- Settles _ (mbind _ (JsList.mapM ?g ?k ?t)) =>
      destruct (mapM_Settles g (remaining graph s) k) with (st := t)
        as [Hfin2 Hle2];
        [ | lia | destruct (JsList.mapM g k t) as [| e | [units s2]] ]
    end.
    + intros entry s' _ Hs'. apply IH. lia.
    + contradiction.
    + cbn [mbind Outcome_bind]. split; discriminate.
    + cbn [mbind Outcome_bind]. specialize (Hle2 units s2 eq_refl).
      split; [discriminate|]. intros a st' [= <- <-]. exact Hle2.
  - contradiction.
  - cbn [mbind Outcome_bind]. split; discriminate.
  - cbn [mbind Outcome_bind]. specialize (Hle' units st2 eq_refl).
    split; [discriminate|]. intros a st' [= <- <-]. lia.
Qed.

Lemma mapM_Finishes {A B} (f : A -> State -> Outcome (B * State)) l :
  (forall x st, Finishes (f x st)) -> forall st, Finishes (JsList.mapM f l st).
Proof using Type.
  intros Hf. induction l as [|x l IH]; intros st; simpl; [discriminate|].
  apply Finishes_bind; [apply Hf|]. intros [y st1] _.
  apply Finishes_bind; [apply IH|]. intros [ys st2] _. discriminate.
Qed.

Lemma createMigrateJson_Finishes st :
  Finishes (createMigrateJson options imports st).
Proof using Type.
  unfold createMigrateJson. apply Finishes_bind.
  - apply mapM_Finishes. intros packageName s. unfold migrationsOfPackage.
    destruct (getPkgVersion options s packageName); [|discriminate].
    destruct (Obj.get (packageJsonUpdates s) packageName); [|discriminate].
    apply Finishes_bind.
    + unfold callFetch. destruct (fetch options packageName _); discriminate.
    + intros [config s1] _. destruct (c_generators config); discriminate.
  - intros [migrations s1] _. discriminate.
Qed.

End Traversal.

(** *** The collected versions only go up *)

(** Every package with a collected version still has one afterwards, the
    same or a greater one. *)
Definition Increases (collected collected' : Obj.t string) : Prop :=
  forall p v,
    Obj.get collected p = Some v -> v <> EmptyString ->
    exists v',
      Obj.get collected' p = Some v' /\ v' <> EmptyString
      /\ (v' = v \/ Semver.gte v v' = Some false).

Lemma Increases_refl collected : Increases collected collected.
Proof. intros p v Hv Hne. exists v. auto. Qed.

Lemma Increases_trans c1 c2 c3 :
  Increases c1 c2 -> Increases c2 c3 -> Increases c1 c3.
Proof.
  intros H12 H23 p v Hv Hne.
  destruct (H12 p v Hv Hne) as (v2 & Hv2 & Hne2 & Hrel2).
  destruct (H23 p v2 Hv2 Hne2) as (v3 & Hv3 & Hne3 & Hrel3).
  exists v3. split; [exact Hv3|]. split; [exact Hne3|].
  destruct Hrel2 as [->|H2]; [exact Hrel3|].
  destruct Hrel3 as [->|H3]; [right; exact H2|].
  right. eapply gte_false_trans; eauto.
Qed.

Lemma Increases_eq c c' : c' = c -> Increases c c'.
Proof. intros ->. apply Increases_refl. Qed.

Lemma Increases_set collected pkg version :
  covered collected pkg version = Returned false ->
  Increases collected (Obj.set collected pkg version).
Proof.
  intros Hcov p v Hv Hne.
  destruct (String.eqb_spec pkg p) as [<-|Hp].
  - unfold covered in Hcov. rewrite Hv in Hcov. cbn [default] in Hcov.
    unfold id in Hcov.
    assert (Ht : Js.truthy (Some v) = true).
    { simpl. destruct (String.eqb_spec v EmptyString);
        [contradiction | reflexivity]. }
    rewrite Ht in Hcov. apply semverCall_Returned in Hcov.
    exists version. rewrite ObjFacts.get_set_eq.
    split; [reflexivity|]. split; [|right; exact Hcov].
    apply gte_false in Hcov. destruct Hcov as (x & y & _ & Hy & _).
    intros ->. discriminate.
  - exists v. rewrite ObjFacts.get_set_ne by exact Hp. auto.
Qed.

Section Monotone.

Variable options : MigratorOptions.
Variable imports : Imports.

Lemma mapM_Increases {A B} (f : A -> State -> Outcome (B * State)) l :
  (forall x st y st', In x l -> f x st = Returned (y, st') ->
     Increases (collectedVersions st) (collectedVersions st')) ->
  forall st ys st', JsList.mapM f l st = Returned (ys, st') ->
    Increases (collectedVersions st) (collectedVersions st').
Proof.
  induction l as [|x l IH]; intros Hf st ys st'; simpl.
  - intros [= <- <-]. apply Increases_refl.
  - destruct (f x st) as [| e | [y st1]] eqn:E1; try discriminate.
    cbn [mbind Outcome_bind].
    destruct (JsList.mapM f l st1) as [| e | [zs st2]] eqn:E2; try discriminate.
    cbn [mbind Outcome_bind]. intros [= <- <-].
    eapply Increases_trans.
    + exact (Hf x st y st1 (or_introl eq_refl) E1).
    + eapply IH; [|exact E2]. intros z s w s' Hz. apply Hf. right. exact Hz.
Qed.

Lemma populate_Increases fuel : forall pkg target st checks st',
  populatePackageJsonUpdatesAndGetPackagesToCheck options fuel pkg target st
  = Returned (checks, st') ->
  Increases (collectedVersions st) (collectedVersions st').
Proof.
  induction fuel as [|fuel IH]; intros pkg target st checks st';
    [discriminate|].
  cbn [populatePackageJsonUpdatesAndGetPackagesToCheck].
  destruct (negb (Js.truthy (getPkgVersion options st pkg))).
  { intros [= <- <-]. apply Increases_eq, addPackageJsonUpdate_collected. }
  destruct (callFetch options st pkg _) as [| e | [config st0]] eqn:Efetch;
    try discriminate.
  assert (Hcol0 : collectedVersions st0 = collectedVersions st).
  { unfold callFetch in Efetch. destruct (fetch options pkg _); [discriminate|].
    injection Efetch as <- <-. reflexivity. }
  fold (covered (collectedVersions st0) pkg (c_version config)).
  destruct (covered (collectedVersions st0) pkg (c_version config))
    as [| e | [|]] eqn:Ecov; cbn [mbind Outcome_bind]; try discriminate.
  { intros [= <- <-]. apply Increases_eq, Hcol0. }
  set (st1 := setCollectedVersion st0 pkg (c_version config)).
  assert (H1 : Increases (collectedVersions st) (collectedVersions st1)).
  { rewrite <- Hcol0. apply Increases_set, Ecov. }
  destruct (getPackageJsonUpdates_spec options st1 pkg (c_version config)
              config) as [_ Hspec].
  destruct (getPackageJsonUpdatesFromMigrationConfig options st1 pkg
              (c_version config) config) as [| e | [[updates order] st2]];
    cbn [mbind Outcome_bind]; try discriminate.
  destruct (Hspec updates order st2 eq_refl) as [Hcol2 _].
  set (st3 := addPackageJsonUpdate st2 pkg _).
  assert (H3 : Increases (collectedVersions st) (collectedVersions st3)).
  { unfold st3. rewrite addPackageJsonUpdate_collected, Hcol2. exact H1. }
  destruct (existsb (shouldCheck options) updates).
  { intros [= <- <-]. exact H3. }
  match goal with |- context [JsList.mapM ?f ?l ?s] =>
    destruct (JsList.mapM f l s) as [| e | [results st4]] eqn:Emap
  end; cbn [mbind Outcome_bind]; try discriminate.
  intros [= <- <-]. eapply Increases_trans; [exact H3|].
  eapply mapM_Increases; [|exact Emap].
  intros entry s y s' _. apply IH.
Qed.

Lemma build_Increases fuel : forall pkg target st r st',
  buildPackageJsonUpdates options imports fuel pkg target st
  = Returned (r, st') ->
  Increases (collectedVersions st) (collectedVersions st').
Proof.
  induction fuel as [|fuel IH]; intros pkg target st r st'; [discriminate|].
  cbn [buildPackageJsonUpdates].
  destruct (populatePackageJsonUpdatesAndGetPackagesToCheck options fuel pkg
              target st) as [| e | [checks st1]] eqn:Epop;
    cbn [mbind Outcome_bind]; try discriminate.
  apply populate_Increases in Epop.
  match goal with |- context [JsList.mapM ?f ?l ?s] =>
    destruct (JsList.mapM f l s) as [| e | [units st2]] eqn:Emap
  end; cbn [mbind Outcome_bind]; try discriminate.
  intros [= <- <-]. eapply Increases_trans; [exact Epop|].
  eapply mapM_Increases; [|exact Emap].
  intros check s y s' _. cbv beta.
  destruct (collectAllFilteredUpdates options imports s [] (updates check))
    as [| e | filteredUpdates]; cbn [mbind Outcome_bind]; try discriminate.
  match goal with |- context [JsList.mapM ?g ?k ?t] =>
    destruct (JsList.mapM g k t) as [| e | [us s2]] eqn:Einner
  end; cbn [mbind Outcome_bind]; try discriminate.
  intros [= <- <-].
  eapply mapM_Increases; [|exact Einner].
  intros entry t z t' _. apply IH.
Qed.

(** *** More fuel, same outcome *)

Lemma bind_not_OutOfFuel {A B} (m : Outcome A) (f : A -> Outcome B) :
  m ≫= f <> OutOfFuel -> m <> OutOfFuel.
Proof. destruct m; cbn [mbind Outcome_bind]; congruence. Qed.

Lemma mapM_stable {A B} (f g : A -> State -> Outcome (B * State)) l :
  (forall x st, In x l -> f x st <> OutOfFuel -> g x st = f x st) ->
  forall st, JsList.mapM f l st <> OutOfFuel ->
    JsList.mapM g l st = JsList.mapM f l st.
Proof.
  induction l as [|x l IH]; intros Hfg st Hrun; simpl; [reflexivity|].
  simpl in Hrun.
  rewrite (Hfg x st (or_introl eq_refl) (bind_not_OutOfFuel _ _ Hrun)).
  destruct (f x st) as [| e | [y st1]]; cbn [mbind Outcome_bind] in *;
    try reflexivity.
  rewrite (IH (fun z s Hz => Hfg z s (or_intror Hz)) st1
             (bind_not_OutOfFuel _ _ Hrun)).
  reflexivity.
Qed.

Lemma populate_stable fuel : forall fuel' pkg target st,
  fuel <= fuel' ->
  populatePackageJsonUpdatesAndGetPackagesToCheck options fuel pkg target st
  <> OutOfFuel ->
  populatePackageJsonUpdatesAndGetPackagesToCheck options fuel' pkg target st
  = populatePackageJsonUpdatesAndGetPackagesToCheck options fuel pkg target st.
Proof.
  induction fuel as [|fuel IH]; intros fuel' pkg target st Hle;
    [intros H; contradiction H; reflexivity|].
  destruct fuel' as [|fuel']; [lia|].
  cbn [populatePackageJsonUpdatesAndGetPackagesToCheck].
  destruct (negb (Js.truthy (getPkgVersion options st pkg))); [reflexivity|].
  destruct (callFetch options st pkg _) as [| e | [config st0]];
    try reflexivity.
  destruct (if Js.truthy (Obj.get (collectedVersions st0) pkg)
            then semverCall Semver.gte
                   (default EmptyString (Obj.get (collectedVersions st0) pkg))
                   (c_version config)
            else Returned false) as [| e | [|]];
    cbn [mbind Outcome_bind]; try reflexivity.
  destruct (getPackageJsonUpdatesFromMigrationConfig options _ pkg
              (c_version config) config) as [| e | [[updates order] st2]];
    cbn [mbind Outcome_bind]; try reflexivity.
  destruct (existsb (shouldCheck options) updates); [reflexivity|].
  intros Hrun. apply bind_not_OutOfFuel in Hrun.
  rewrite (mapM_stable
             (fun entry =>
                populatePackageJsonUpdatesAndGetPackagesToCheck options fuel
                  (fst entry) (snd entry))
             (fun entry =>
                populatePackageJsonUpdatesAndGetPackagesToCheck options fuel'
                  (fst entry) (snd entry))
             _ (fun entry s _ => IH fuel' (fst entry) (snd entry) s ltac:(lia))
             _ Hrun).
  reflexivity.
Qed.

Lemma build_stable fuel : forall fuel' pkg target st,
  fuel <= fuel' ->
  buildPackageJsonUpdates options imports fuel pkg target st <> OutOfFuel ->
  buildPackageJsonUpdates options imports fuel' pkg target st
  = buildPackageJsonUpdates options imports fuel pkg target st.
Proof.
  induction fuel as [|fuel IH]; intros fuel' pkg target st Hle;
    [intros H; contradiction H; reflexivity|].
  destruct fuel' as [|fuel']; [lia|].
  cbn [buildPackageJsonUpdates]. intros Hrun.
  rewrite (populate_stable fuel fuel' pkg target st ltac:(lia)
             (bind_not_OutOfFuel _ _ Hrun)).
  destruct (populatePackageJsonUpdatesAndGetPackagesToCheck options fuel pkg
              target st) as [| e | [checks st1]];
    cbn [mbind Outcome_bind] in *; try reflexivity.
  apply bind_not_OutOfFuel in Hrun.
  erewrite mapM_stable; [reflexivity | | exact Hrun].
  intros check s _ Hcheck. cbv beta in *.
  destruct (collectAllFilteredUpdates options imports s [] (updates check))
    as [| e | filteredUpdates]; cbn [mbind Outcome_bind] in *;
    try reflexivity.
  apply bind_not_OutOfFuel in Hcheck.
  rewrite (mapM_stable
             (fun entry =>
                buildPackageJsonUpdates options imports fuel (fst entry)
                  (snd entry))
             (fun entry =>
                buildPackageJsonUpdates options imports fuel' (fst entry)
                  (snd entry))
             _ (fun entry t _ => IH fuel' (fst entry) (snd entry) t ltac:(lia))
             _ Hcheck).
  reflexivity.
Qed.

(** A package is not entered again at a version that is at most the one
    collected for it. *)
Lemma populate_covered fuel pkg target st collected config :
  Js.truthy (getPkgVersion options st pkg) = true ->
  Obj.get (collectedVersions st) pkg = Some collected ->
  collected <> EmptyString ->
  fetch options pkg
    (if Js.truthy (Obj.get (to options) pkg)
     then default EmptyString (Obj.get (to options) pkg)
     else pu_version target) = inr config ->
  Semver.gte collected (c_version config) = Some true ->
  exists st',
    populatePackageJsonUpdatesAndGetPackagesToCheck options (S fuel) pkg target
      st = Returned ([], st')
    /\ packageJsonUpdates st' = packageJsonUpdates st
    /\ collectedVersions st' = collectedVersions st.
Proof.
  intros Hinst Hcol Hne Hfetch Hgte.
  cbn [populatePackageJsonUpdatesAndGetPackagesToCheck].
  rewrite Hinst. cbn [negb]. unfold callFetch. rewrite Hfetch.
  cbn [logFetch collectedVersions]. rewrite Hcol. cbn [default]. unfold id.
  assert (Ht : Js.truthy (Some collected) = true).
  { simpl. destruct (String.eqb_spec collected EmptyString);
      [contradiction | reflexivity]. }
  rewrite Ht. unfold semverCall. rewrite Hgte. cbn [mbind Outcome_bind].
  eexists. split; [reflexivity|]. split; reflexivity.
Qed.

End Monotone.

(** *** Whatever the order of the calls *)

(** What a call does to the state between the answer of [fetch] for a
    manifest that is not covered and the calls for the packages of that
    manifest: it collects the version, normalises the package group and
    records the update of the package. *)
Definition enterManifest (options : MigratorOptions) (st : State)
    (pkg : string) (target : PackageJsonUpdateForPackage)
    (config : ResolvedMigrationConfiguration)
  : Outcome ((list PackageJsonUpdate * list string) * State) :=
  '(found, st2) ←
    getPackageJsonUpdatesFromMigrationConfig options
      (setCollectedVersion st pkg (c_version config)) pkg (c_version config)
      config;
  Returned
    (found,
     addPackageJsonUpdate st2 pkg
       (mkUpdateForPackage (c_version config)
          (Some (orFalse (pu_addToPackageJson target))) None None)).

(** The state changes that the planner makes without being interrupted, one
    per turn: a call records a package that is not installed; a call asks
    for a manifest; a call that has its manifest enters it, unless
    [collectedVersions] covers it.  Every run of the planner, however its
    calls take turns at their [await]s, is a sequence of such turns; [true]
    marks the turns that enter a manifest with a non-empty version. *)
Inductive Turn (options : MigratorOptions) : State -> bool -> State -> Prop :=
| turn_record st pkg target :
    Js.truthy (getPkgVersion options st pkg) = false ->
    Turn options st false
      (addPackageJsonUpdate st pkg
         (mkUpdateForPackage (pu_version target)
            (Some (orFalse (pu_addToPackageJson target))) None None))
| turn_fetch st pkg version :
    Turn options st false (logFetch st pkg version)
| turn_enter st pkg target version config found st' :
    fetch options pkg version = inr config ->
    covered (collectedVersions st) pkg (c_version config) = Returned false ->
    enterManifest options st pkg target config = Returned (found, st') ->
    Turn options st (nonEmpty (c_version config)) st'.

(** A sequence of turns, with the number of manifests entered. *)
Inductive Turns (options : MigratorOptions) : State -> nat -> State -> Prop :=
| turns_done st : Turns options st 0 st
| turns_step st entered st1 n st2 :
    Turn options st entered st1 ->
    Turns options st1 n st2 ->
    Turns options st ((if entered then 1 else 0) + n) st2.

Lemma enterManifest_collected options st pkg target config found st' :
  enterManifest options st pkg target config = Returned (found, st') ->
  collectedVersions st'
  = Obj.set (collectedVersions st) pkg (c_version config)
  /\ (c_version config = EmptyString -> fst found = []).
Proof.
  unfold enterManifest.
  destruct (getPackageJsonUpdates_spec options
              (setCollectedVersion st pkg (c_version config)) pkg
              (c_version config) config) as [_ Hspec].
  destruct (getPackageJsonUpdatesFromMigrationConfig options
              (setCollectedVersion st pkg (c_version config)) pkg
              (c_version config) config) as [| e | [[updates order] st2]];
    cbn [mbind Outcome_bind]; try discriminate.
  intros [= <- <-].
  destruct (Hspec updates order st2 eq_refl) as [Hcol Hempty].
  rewrite addPackageJsonUpdate_collected, Hcol. auto.
Qed.

(** The calls of [populatePackageJsonUpdatesAndGetPackagesToCheck] are made
    of these turns. *)
Lemma populate_turns options fuel pkg target st config :
  Js.truthy (getPkgVersion options st pkg) = true ->
  fetch options pkg
    (if Js.truthy (Obj.get (to options) pkg)
     then default EmptyString (Obj.get (to options) pkg)
     else pu_version target) = inr config ->
  covered (collectedVersions st) pkg (c_version config) = Returned false ->
  populatePackageJsonUpdatesAndGetPackagesToCheck options (S fuel) pkg target
    st
  = '(found, st3) ←
      enterManifest options
        (logFetch st pkg
           (if Js.truthy (Obj.get (to options) pkg)
            then default EmptyString (Obj.get (to options) pkg)
            else pu_version target))
        pkg target config;
    if existsb (shouldCheck options) (fst found) then
      Returned ([mkPackagesToCheck pkg (fst found)], st3)
    else
      '(results, st4) ←
        JsList.mapM
          (fun entry =>
             populatePackageJsonUpdatesAndGetPackagesToCheck options fuel
               (fst entry) (snd entry))
          (Obj.entries
             (fold_left (fun m c => Obj.assign m (default [] (u_packages c)))
                (fst found) [])) st3;
      Returned
        (JsList.sortByKey
           (fun pkgUpdate => JsList.indexOf (snd found) (package pkgUpdate))
           (concat
              (List.filter (fun pkgs => negb (Nat.eqb (length pkgs) 0))
                 results)),
         st4).
Proof.
  intros Hinst Hfetch Hcov.
  cbn [populatePackageJsonUpdatesAndGetPackagesToCheck].
  rewrite Hinst. cbn [negb]. unfold callFetch. rewrite Hfetch.
  fold (covered (collectedVersions
                   (logFetch st pkg
                      (if Js.truthy (Obj.get (to options) pkg)
                       then default EmptyString (Obj.get (to options) pkg)
                       else pu_version target)))
          pkg (c_version config)).
  cbn [logFetch collectedVersions]. rewrite Hcov. cbn [mbind Outcome_bind].
  unfold enterManifest.
  match goal with |- context [getPackageJsonUpdatesFromMigrationConfig ?o ?s ?p ?v ?c] =>
    destruct (getPackageJsonUpdatesFromMigrationConfig o s p v c)
      as [| e | [[updates order] st2]]
  end; reflexivity.
Qed.

Lemma Turn_remaining options graph st entered st' :
  (forall pkg version config,
     fetch options pkg version = inr config ->
     In (pkg, c_version config) graph) ->
  Turn options st entered st' ->
  (if entered then 1 else 0) + remaining graph st' <= remaining graph st.
Proof.
  intros Hgraph Hturn. destruct Hturn as [st pkg target Hinst
    | st pkg version
    | st pkg target version config found st' Hfetch Hcov Henter].
  - unfold remaining. rewrite addPackageJsonUpdate_collected. simpl. lia.
  - unfold remaining. simpl. lia.
  - apply enterManifest_collected in Henter. destruct Henter as [Hcol _].
    unfold nonEmpty.
    destruct (String.eqb_spec (c_version config) EmptyString) as [Hv|Hv];
      cbn [negb].
    + pose proof (remaining_setCollectedVersion_le graph st pkg
                    (c_version config) Hcov) as Hle.
      unfold remaining in *. rewrite Hcol. cbn [setCollectedVersion
        collectedVersions] in Hle. lia.
    + pose proof (remaining_setCollectedVersion_lt graph st pkg
                    (c_version config) Hcov Hv
                    (Hgraph pkg version config Hfetch)) as Hlt.
      unfold remaining in *. rewrite Hcol. cbn [setCollectedVersion
        collectedVersions] in Hlt. lia.
Qed.

(** In whatever order the calls take their turns, no more manifests are
    entered than the graph has. *)
Lemma Turns_bounded options graph st n st' :
  (forall pkg version config,
     fetch options pkg version = inr config ->
     In (pkg, c_version config) graph) ->
  Turns options st n st' ->
  n + remaining graph st' <= remaining graph st.
Proof.
  intros Hgraph Hturns. induction Hturns as [st | st entered st1 n st2 H1 _ IH].
  - lia.
  - pose proof (Turn_remaining options graph st entered st1 Hgraph H1). lia.
Qed.


(** Two packages whose package groups name each other. *)
Definition cyclicFetch (pkg version : string)
  : Exception + ResolvedMigrationConfiguration :=
  if String.eqb pkg "a" then
    inr (mkConfiguration "2.0.0" None None None
           (Some (GroupList [GroupName "b"])))
  else if String.eqb pkg "b" then
    inr (mkConfiguration "2.0.0" None None None
           (Some (GroupList [GroupName "a"])))
  else inl (Error "E404").

Definition cyclicOptions : MigratorOptions :=
  mkMigratorOptions
    (mkPackageJson (Some {[ "a" := "1.0.0"; "b" := "1.0.0" ]}) None)
    (fun pkg _ =>
       if String.eqb pkg "a" || String.eqb pkg "b" then Some "1.0.0" else None)
    cyclicFetch [] [] false.

Definition cyclicGraph : list (string * string) :=
  [("a", "2.0.0"); ("b", "2.0.0")].

Lemma cyclicGraph_finite pkg version config :
  fetch cyclicOptions pkg version = inr config ->
  In (pkg, c_version config) cyclicGraph.
Proof.
  cbn [fetch cyclicOptions]. unfold cyclicFetch.
  destruct (String.eqb_spec pkg "a") as [->|_].
  - intros [= <-]. simpl. auto.
  - destruct (String.eqb_spec pkg "b") as [->|_]; [|discriminate].
    intros [= <-]. simpl. auto.
Defined.

(** The state once [a] has been entered at 2.0.0. *)
Definition enteredOnce : State := mkState [] [("a", "2.0.0")] [] [].

(** One turn from the start: [a] is entered. *)
Lemma cyclicTurn :
  exists st',
    Turns cyclicOptions (create cyclicOptions) 1 st'
    /\ collectedVersions st' = [("a", "2.0.0")].
Proof.
  eexists. split.
  - eapply (turns_step cyclicOptions _ true _ 0); [|apply turns_done].
    eapply (turn_enter cyclicOptions (create cyclicOptions) "a"
              (mkUpdateForPackage "latest" (Some AddFalse) None None) "latest"
              (mkConfiguration "2.0.0" None None None
                 (Some (GroupList [GroupName "b"])))); reflexivity.
  - reflexivity.
Defined.


End Termination.

(** ** More on normalised versions *)

Module VersionFacts.

(** A piece of a version: not empty, and with no ['.'] and no ['-']. *)
Definition Plain (s : string) : Prop :=
  s <> EmptyString /\ Js.includes "." s = false /\ Js.includes "-" s = false.

Lemma includes_append c a b :
  Js.includes c (a +:+ b) = Js.includes c a || Js.includes c b.
Proof.
  induction a as [|d a IH]; simpl; [reflexivity|].
  rewrite IH, orb_assoc. reflexivity.
Qed.

Lemma split_not_nil sep s : Js.split sep s <> [].
Proof.
  destruct s as [|c s]; simpl; [discriminate|].
  destruct (Ascii.eqb c sep); [discriminate|].
  destruct (Js.split sep s); discriminate.
Qed.

(** A piece of [s.split(sep)] has no [sep], and no character that [s] does
    not have. *)
Lemma split_piece sep c s x :
  In x (Js.split sep s) ->
  Js.includes sep x = false
  /\ (Js.includes c s = false -> Js.includes c x = false).
Proof.
  revert x. induction s as [|d s IH]; intros x; simpl.
  - intros [<-|[]]. auto.
  - destruct (Ascii.eqb d sep) eqn:E.
    + intros [<-|Hx]; [simpl; split; [reflexivity | auto]|].
      destruct (IH x Hx) as [H1 H2]. split; [exact H1|].
      intros H. apply orb_false_iff in H. apply H2, H.
    + destruct (Js.split sep s) as [|h t] eqn:Es.
      { exfalso. exact (split_not_nil sep s Es). }
      intros [<-|Hx].
      * destruct (IH h (or_introl eq_refl)) as [H1 H2]. simpl.
        rewrite E, H1. split; [reflexivity|].
        intros H. apply orb_false_iff in H. destruct H as [Hd Hs].
        rewrite Hd, (H2 Hs). reflexivity.
      * destruct (IH x (or_intror Hx)) as [H1 H2]. split; [exact H1|].
        intros H. apply orb_false_iff in H. apply H2, H.
Qed.

Lemma lookup_In {A} (l : list A) i x : l !! i = Some x -> In x l.
Proof.
  revert i. induction l as [|y l IH]; intros [|i]; simpl; try discriminate.
  - intros [= ->]. auto.
  - intros H. right. exact (IH i H).
Qed.

Lemma truthy_nonempty s : s <> EmptyString -> Js.truthy (Some s) = true.
Proof.
  intros H. simpl. destruct (String.eqb_spec s EmptyString);
    [contradiction | reflexivity].
Qed.

Lemma orZero_Plain version i :
  Plain
    (Js.orZero
       (Js.split "." (default EmptyString (Js.split "-" version !! 0%nat))
        !! i)).
Proof.
  assert (Hzero : Plain "0") by (repeat split; discriminate).
  assert (Hsemver : Js.includes "-"
                      (default EmptyString (Js.split "-" version !! 0%nat))
                    = false).
  { destruct (Js.split "-" version !! 0%nat) as [semver|] eqn:E;
      [|reflexivity].
    apply lookup_In in E.
    exact (proj1 (split_piece "-" "-" version semver E)). }
  unfold Js.orZero.
  destruct (_ !! i) as [x|] eqn:E; [|exact Hzero].
  destruct (Js.truthy (Some x)) eqn:Ht; [|exact Hzero].
  apply lookup_In in E. cbn [default]. unfold id.
  split; [intros ->; discriminate|].
  split.
  - exact (proj1 (split_piece "." "." _ x E)).
  - exact (proj2 (split_piece "." "-" _ x E) Hsemver).
Qed.

Lemma orZero_nonempty s : s <> EmptyString -> Js.orZero (Some s) = s.
Proof.
  intros H. unfold Js.orZero. rewrite (truthy_nonempty s H). reflexivity.
Qed.

Lemma split_three A B C :
  Plain A -> Plain B -> Plain C ->
  Js.split "." (A +:+ "." +:+ B +:+ "." +:+ C) = [A; B; C].
Proof.
  intros (_ & HA & _) (_ & HB & _) (_ & HC & _).
  change (A +:+ "." +:+ B +:+ "." +:+ C)
    with (A +:+ String "." (B +:+ String "." C)).
  rewrite (ParserFacts.split_app _ _ _ HA), (ParserFacts.split_app _ _ _ HB),
    (NormalizeFacts.split_without _ _ HC).
  reflexivity.
Qed.

Lemma no_hyphen_three A B C :
  Plain A -> Plain B -> Plain C ->
  Js.includes "-" (A +:+ "." +:+ B +:+ "." +:+ C) = false.
Proof.
  intros (_ & _ & HA) (_ & _ & HB) (_ & _ & HC).
  rewrite !includes_append, HA, HB, HC. reflexivity.
Qed.

(** A version [A.B.C] of plain pieces that is above [0.0.0] is kept. *)
Lemma normalizeVersion_keeps_plain A B C :
  Plain A -> Plain B -> Plain C ->
  Semver.gt (A +:+ "." +:+ B +:+ "." +:+ C) "0.0.0" = Some true ->
  normalizeVersion (A +:+ "." +:+ B +:+ "." +:+ C)
  = A +:+ "." +:+ B +:+ "." +:+ C.
Proof.
  intros HA HB HC Hgt. unfold normalizeVersion.
  rewrite (NormalizeFacts.split_without _ _ (no_hyphen_three A B C HA HB HC)).
  cbn [lookup list_lookup default]. unfold id.
  rewrite (split_three A B C HA HB HC).
  cbn [lookup list_lookup].
  rewrite (orZero_nonempty A (proj1 HA)), (orZero_nonempty B (proj1 HB)),
    (orZero_nonempty C (proj1 HC)).
  cbn [Js.truthy firstAboveZero]. rewrite Hgt. reflexivity.
Qed.

(** And so is [A.B.C-tag] for a tag with no ['-']. *)
Lemma normalizeVersion_keeps_tagged A B C tag :
  Plain A -> Plain B -> Plain C ->
  tag <> EmptyString -> Js.includes "-" tag = false ->
  Semver.gt ((A +:+ "." +:+ B +:+ "." +:+ C) +:+ "-" +:+ tag) "0.0.0"
  = Some true ->
  normalizeVersion ((A +:+ "." +:+ B +:+ "." +:+ C) +:+ "-" +:+ tag)
  = (A +:+ "." +:+ B +:+ "." +:+ C) +:+ "-" +:+ tag.
Proof.
  intros HA HB HC Htag Hno Hgt. unfold normalizeVersion.
  change ((A +:+ "." +:+ B +:+ "." +:+ C) +:+ "-" +:+ tag)
    with ((A +:+ "." +:+ B +:+ "." +:+ C) +:+ String "-" tag) in *.
  rewrite (ParserFacts.split_app _ _ _ (no_hyphen_three A B C HA HB HC)),
    (NormalizeFacts.split_without _ _ Hno).
  cbn [lookup list_lookup default]. unfold id.
  rewrite (split_three A B C HA HB HC).
  cbn [lookup list_lookup].
  rewrite (orZero_nonempty A (proj1 HA)), (orZero_nonempty B (proj1 HB)),
    (orZero_nonempty C (proj1 HC)).
  rewrite (truthy_nonempty tag Htag).
  change ((A +:+ "." +:+ B +:+ "." +:+ C) +:+ "-" +:+ tag)
    with ((A +:+ "." +:+ B +:+ "." +:+ C) +:+ String "-" tag).
  cbn [firstAboveZero]. rewrite Hgt. reflexivity.
Qed.

(** X1.  Whatever the input, [normalizeVersion] returns a string that the
    semver package parses: [0.0.0], or a version above [0.0.0]. *)
Theorem normalizeVersion_returns_a_version (version : string) :
  (exists parsed, Semver.parse (normalizeVersion version) = Some parsed)
  /\ (normalizeVersion version = "0.0.0"
      \/ Semver.gt (normalizeVersion version) "0.0.0" = Some true).
Proof.
  split.
  - destruct (Normalize.normalizeVersion_parses version) as (x & Hx & _).
    exists x. exact Hx.
  - destruct (NormalizeFacts.normalizeVersion_result version); auto.
Qed.

(** X2.  [normalizeVersion] is idempotent: a normalised version is
    normalised to itself. *)
Theorem normalizeVersion_idempotent (version : string) :
  normalizeVersion (normalizeVersion version) = normalizeVersion version.
Proof.
  assert (Hzero : Plain "0") by (repeat split; discriminate).
  unfold normalizeVersion at 2 3.
  set (numbers :=
         Js.split "." (default EmptyString (Js.split "-" version !! 0%nat))).
  pose proof (orZero_Plain version 0) as HA.
  pose proof (orZero_Plain version 1) as HB.
  pose proof (orZero_Plain version 2) as HC.
  fold numbers in HA, HB, HC.
  set (A := Js.orZero (numbers !! 0%nat)) in *.
  set (B := Js.orZero (numbers !! 1%nat)) in *.
  set (C := Js.orZero (numbers !! 2%nat)) in *.
  match goal with |- context [firstAboveZero ?l] =>
    destruct (Normalize.firstAboveZero_spec l) as [[Hin Hgt]|[-> _]];
      [|reflexivity]
  end.
  revert Hgt.
  destruct Hin as [<-|[<-|[<-|[<-|[]]]]]; intros Hgt.
  - destruct (Js.split "-" version !! 1%nat) as [tag|] eqn:Etag.
    + destruct (Js.truthy (Some tag)) eqn:Ht.
      * cbn [default] in *. unfold id in *.
        apply normalizeVersion_keeps_tagged; try assumption.
        -- intros ->. discriminate.
        -- apply lookup_In in Etag.
           exact (proj1 (split_piece "-" "-" version tag Etag)).
      * apply normalizeVersion_keeps_plain; assumption.
    + cbn [Js.truthy] in *. apply normalizeVersion_keeps_plain; assumption.
  - apply normalizeVersion_keeps_plain; assumption.
  - change (A +:+ "." +:+ B +:+ ".0") with (A +:+ "." +:+ B +:+ "." +:+ "0")
      in *.
    apply normalizeVersion_keeps_plain; assumption.
  - change (A +:+ ".0.0") with (A +:+ "." +:+ "0" +:+ "." +:+ "0") in *.
    apply normalizeVersion_keeps_plain; assumption.
Qed.



End VersionFacts.

(** ** A workspace to run the planner on

    Two packages are installed, [a] and [b], both at 1.0.0; [c] is not.
    The registry knows [a] at 2.0.0, whose manifest moves [b] to 1.5.0, adds
    [c] at 3.0.0 to the [devDependencies], has [b] in its package group and
    declares three migrations; it resolves [b] to the version asked for, and
    has no other package.  The user overrides the installed version of [a]
    with 0.9.0. *)

Module Sample.
Import Migrator.

Definition updatesOfA : Obj.t PackageJsonUpdate :=
  [ ("2.0.0",
     mkPackageJsonUpdate "2.0.0"
       (Some
          [ ("b", mkUpdateForPackage "1.5.0" None None None);
            ("c",
             mkUpdateForPackage "3.0.0" (Some (AddTo DevDependencies)) None
               None) ])
       None None) ].

Definition generatorsOfA : Obj.t MigrationsJsonEntry :=
  [ ("early", mkMigrationsJsonEntry (Some "0.8.0") None None None None None);
    ("rename", mkMigrationsJsonEntry (Some "1.4") None None None None None);
    ("late", mkMigrationsJsonEntry (Some "2.1.0") None None None None None) ].

Definition registry (pkg version : string)
  : Exception + ResolvedMigrationConfiguration :=
  if String.eqb pkg "a" then
    inr (mkConfiguration "2.0.0" (Some updatesOfA) (Some generatorsOfA) None
           (Some (GroupList [GroupName "b"])))
  else if String.eqb pkg "b" then
    inr (mkConfiguration version None None None None)
  else inl (Error "No matching version found").

Definition installed (pkg : string) (overrides : Obj.t string)
  : option string :=
  if Js.truthy (Obj.get overrides pkg) then Obj.get overrides pkg
  else if String.eqb pkg "a" || String.eqb pkg "b" then Some "1.0.0"
  else None.

Definition workspace : MigratorOptions :=
  mkMigratorOptions
    (mkPackageJson (Some {[ "a" := "1.0.0"; "b" := "1.0.0" ]}) None)
    installed registry [("a", "0.9.0")] [] false.

(** No range is satisfied, and no prompt is confirmed. *)
Definition imports : Imports :=
  mkImports (fun _ => false) (fun _ _ => false) (fun version => Some version).

(** A state in which [b] is planned at 1.2.0 already. *)
Definition started : State :=
  mkState [("b", mkUpdateForPackage "1.2.0" (Some AddFalse) None None)] []
    [("a", "0.9.0")] [].

Definition latest : PackageJsonUpdateForPackage :=
  mkUpdateForPackage "latest" (Some AddFalse) None None.

(** The state after the call for [a] from [started]. *)
Definition afterA : State :=
  match
    populatePackageJsonUpdatesAndGetPackagesToCheck workspace 5 "a" latest
      started
  with
  | Returned (_, st) => st
  | _ => started
  end.

(** The state after the whole plan for [a] from a new [Migrator]. *)
Definition planned : State :=
  match
    Migrator.updatePackageJson workspace imports 6 "a" "latest"
      (create workspace)
  with
  | Returned (_, st) => st
  | _ => create workspace
  end.

(** And what it returns: the plan and the migrations. *)
Definition result : Obj.t PackageJsonUpdateForPackage * list Migration :=
  match
    Migrator.updatePackageJson workspace imports 6 "a" "latest"
      (create workspace)
  with
  | Returned (r, _) => r
  | _ => ([], [])
  end.

Lemma planned_run :
  Migrator.updatePackageJson workspace imports 6 "a" "latest"
    (create workspace)
  = Returned ((fst result, snd result), planned).
Proof. vm_compute. reflexivity. Qed.

Lemma afterA_run :
  populatePackageJsonUpdatesAndGetPackagesToCheck workspace 5 "a" latest
    started
  = Returned ([], afterA).
Proof. vm_compute. reflexivity. Qed.

End Sample.

(** ** What a run of the planner does to its state *)

Module PlannerFacts.
Import Migrator.

(** A call of one of the three methods that build the plan, from the state
    in which it starts to the state in which it returns. *)
Inductive PlannerCall (options : MigratorOptions) (imports : Imports)
  : State -> State -> Prop :=
| call_populate fuel pkg target st checks st' :
    populatePackageJsonUpdatesAndGetPackagesToCheck options fuel pkg target st
    = Returned (checks, st') ->
    PlannerCall options imports st st'
| call_build fuel pkg target st st' :
    buildPackageJsonUpdates options imports fuel pkg target st
    = Returned (tt, st') ->
    PlannerCall options imports st st'
| call_update fuel targetPackage targetVersion st result st' :
    Migrator.updatePackageJson options imports fuel targetPackage
      targetVersion st = Returned (result, st') ->
    PlannerCall options imports st st'.

(** The overrides after the package group of [packageName] was normalised:
    what was there is kept, and what is new is the override of
    [packageName]. *)
Definition Inherits (packageName : string) (before after : Obj.t string)
  : Prop :=
  (forall p v, Obj.get before p = Some v -> Obj.get after p = Some v)
  /\ (forall p v, Obj.get after p = Some v ->
        Obj.get before p = Some v \/ Obj.get before packageName = Some v).

Lemma Inherits_refl packageName overrides :
  Inherits packageName overrides overrides.
Proof. split; auto. Qed.

Lemma Inherits_trans packageName o1 o2 o3 :
  Inherits packageName o1 o2 -> Inherits packageName o2 o3 ->
  Inherits packageName o1 o3.
Proof.
  intros [K12 N12] [K23 N23]. split; [auto|].
  intros p v H. destruct (N23 p v H) as [H2|H2];
    [exact (N12 p v H2)|].
  destruct (N12 packageName v H2); auto.
Qed.

Lemma Inherits_inheritOverride packageName overrides pkg :
  Inherits packageName overrides (inheritOverride overrides packageName pkg).
Proof.
  unfold inheritOverride.
  destruct (Obj.get overrides pkg) as [w|] eqn:Hpkg;
    [apply Inherits_refl|].
  destruct (Obj.get overrides packageName) as [v|] eqn:Hname;
    [|apply Inherits_refl].
  split.
  - intros p w Hp. rewrite ObjFacts.get_set_ne; [exact Hp|].
    intros ->. congruence.
  - intros p w. destruct (String.eqb_spec pkg p) as [<-|Hne].
    + rewrite ObjFacts.get_set_eq. intros [= <-]. auto.
    + rewrite ObjFacts.get_set_ne by exact Hne. auto.
Qed.

(** Two states that differ at most in the overrides, which the second
    inherits from the first. *)
Definition OverridesInherited (packageName : string) (st st' : State) : Prop :=
  packageJsonUpdates st' = packageJsonUpdates st
  /\ collectedVersions st' = collectedVersions st
  /\ fetchLog st' = fetchLog st
  /\ Inherits packageName (installedPkgVersionOverrides st)
       (installedPkgVersionOverrides st').

Lemma OverridesInherited_refl packageName st :
  OverridesInherited packageName st st.
Proof. repeat split; auto. Qed.

Lemma OverridesInherited_trans packageName st1 st2 st3 :
  OverridesInherited packageName st1 st2 ->
  OverridesInherited packageName st2 st3 ->
  OverridesInherited packageName st1 st3.
Proof.
  intros (A1 & A2 & A3 & A4) (B1 & B2 & B3 & B4).
  repeat split; try congruence.
  - apply (Inherits_trans _ _ _ _ A4 B4).
  - apply (Inherits_trans _ _ _ _ A4 B4).
Qed.

Lemma OverridesInherited_setOverrides packageName st pkg :
  OverridesInherited packageName st
    (setOverrides st
       (inheritOverride (installedPkgVersionOverrides st) packageName pkg)).
Proof.
  split; [reflexivity|]. split; [reflexivity|]. split; [reflexivity|].
  apply Inherits_inheritOverride.
Qed.

Lemma normalizeGroupMember_state packageName members : forall st,
  OverridesInherited packageName st
    (fold_left (normalizeGroupMember packageName) members st).
Proof.
  induction members as [|[pkg version] members IH]; intros st; simpl;
    [apply OverridesInherited_refl|].
  eapply OverridesInherited_trans; [|apply IH].
  destruct (Js.truthy (Obj.get (installedPkgVersionOverrides st) packageName)
            && String.eqb version "*");
    [apply OverridesInherited_setOverrides | apply OverridesInherited_refl].
Qed.

Lemma normalizeGroupItem_state packageName targetVersion items :
  forall done st,
  OverridesInherited packageName st
    (snd (fold_left (normalizeGroupItem packageName targetVersion) items
            (done, st))).
Proof.
  induction items as [|item items IH]; intros done st; simpl;
    [apply OverridesInherited_refl|].
  eapply OverridesInherited_trans; [|apply IH].
  destruct (Js.truthy (Obj.get (installedPkgVersionOverrides st) packageName));
    [|apply OverridesInherited_refl].
  destruct item as [name|pkg version];
    [apply OverridesInherited_setOverrides|].
  destruct (String.eqb version "*");
    [apply OverridesInherited_setOverrides | apply OverridesInherited_refl].
Qed.

Lemma normalizePackageGroup_state st packageName targetVersion packageGroup
    group st' :
  normalizePackageGroup st packageName targetVersion packageGroup
  = Returned (group, st') ->
  OverridesInherited packageName st st'.
Proof.
  unfold normalizePackageGroup.
  destruct (if String.eqb packageName "@nrwl/workspace"
            then semverCall Semver.lt targetVersion "14.0.0-beta.0"
            else Returned false) as [| e | useLegacy];
    cbn [mbind Outcome_bind]; try discriminate.
  destruct (if useLegacy then Some (GroupMap legacyPackageGroup)
            else packageGroup) as [[items|members]|].
  - intros [= Hst].
    pose proof (normalizeGroupItem_state packageName targetVersion items [] st)
      as H.
    rewrite Hst in H. exact H.
  - intros [= <- <-]. apply normalizeGroupMember_state.
  - intros [= <- <-]. apply OverridesInherited_refl.
Qed.

Section Planner.

Variable options : MigratorOptions.
Variable imports : Imports.

Lemma getPackageJsonUpdates_state st packageName targetVersion config found
    st' :
  getPackageJsonUpdatesFromMigrationConfig options st packageName targetVersion
    config = Returned (found, st') ->
  OverridesInherited packageName st st'.
Proof.
  unfold getPackageJsonUpdatesFromMigrationConfig.
  destruct (normalizePackageGroup st packageName targetVersion
              (c_packageGroup config)) as [| e | [group st1]] eqn:Egroup;
    cbn [mbind Outcome_bind]; try discriminate.
  apply normalizePackageGroup_state in Egroup.
  destruct (c_packageJsonUpdates _) as [updates|];
    [|intros [= <- <-]; exact Egroup].
  destruct (negb (Js.truthy (getPkgVersion options st1 packageName)));
    [intros [= <- <-]; exact Egroup|].
  destruct (filterPackageJsonUpdates options st1 (Obj.values updates)
              packageName targetVersion) as [| e | kept];
    cbn [mbind Outcome_bind]; try discriminate.
  intros [= <- <-]. exact Egroup.
Qed.

(** Entering a manifest: the version is collected, the overrides are
    inherited in the package group, and the update of the package is
    proposed to the plan. *)
Lemma enterManifest_state st pkg target config found st' :
  Termination.enterManifest options st pkg target config
  = Returned (found, st') ->
  exists st2,
    OverridesInherited pkg (setCollectedVersion st pkg (c_version config)) st2
    /\ st' = addPackageJsonUpdate st2 pkg
               (mkUpdateForPackage (c_version config)
                  (Some (orFalse (pu_addToPackageJson target))) None None).
Proof.
  unfold Termination.enterManifest.
  destruct (getPackageJsonUpdatesFromMigrationConfig options
              (setCollectedVersion st pkg (c_version config)) pkg
              (c_version config) config) as [| e | [updates st2]] eqn:E;
    cbn [mbind Outcome_bind]; try discriminate.
  intros [= <- <-]. exists st2. split; [|reflexivity].
  eapply getPackageJsonUpdates_state, E.
Qed.

(** *** A relation that every step keeps is kept by every call *)

Section Preserved.

Variable R : State -> State -> Prop.
Hypothesis R_refl : forall st, R st st.
Hypothesis R_trans : forall st1 st2 st3, R st1 st2 -> R st2 st3 -> R st1 st3.
Hypothesis R_record :
  forall st pkg update, R st (addPackageJsonUpdate st pkg update).
Hypothesis R_fetch : forall st pkg version, R st (logFetch st pkg version).
Hypothesis R_enter :
  forall st pkg target config found st',
    Termination.enterManifest options st pkg target config
    = Returned (found, st') ->
    R st st'.

Lemma mapM_preserves {A B} (f : A -> State -> Outcome (B * State)) l :
  (forall x st y st', In x l -> f x st = Returned (y, st') -> R st st') ->
  forall st ys st', JsList.mapM f l st = Returned (ys, st') -> R st st'.
Proof using R_refl R_trans.
  induction l as [|x l IH]; intros Hf st ys st'; simpl.
  - intros [= <- <-]. apply R_refl.
  - destruct (f x st) as [| e | [y st1]] eqn:E1; try discriminate.
    cbn [mbind Outcome_bind].
    destruct (JsList.mapM f l st1) as [| e | [zs st2]] eqn:E2; try discriminate.
    cbn [mbind Outcome_bind]. intros [= <- <-].
    eapply R_trans.
    + exact (Hf x st y st1 (or_introl eq_refl) E1).
    + eapply IH; [|exact E2]. intros z s w s' Hz. apply Hf. right. exact Hz.
Qed.

Lemma populate_preserves fuel : forall pkg target st checks st',
  populatePackageJsonUpdatesAndGetPackagesToCheck options fuel pkg target st
  = Returned (checks, st') ->
  R st st'.
Proof using R_refl R_trans R_record R_fetch R_enter.
  induction fuel as [|fuel IH]; intros pkg target st checks st';
    [discriminate|].
  cbn [populatePackageJsonUpdatesAndGetPackagesToCheck].
  destruct (negb (Js.truthy (getPkgVersion options st pkg))).
  { intros [= <- <-]. apply R_record. }
  destruct (callFetch options st pkg _) as [| e | [config st0]] eqn:Efetch;
    try discriminate.
  assert (Hst0 : R st st0).
  { unfold callFetch in Efetch. destruct (fetch options pkg _); [discriminate|].
    injection Efetch as <- <-. apply R_fetch. }
  destruct (if Js.truthy (Obj.get (collectedVersions st0) pkg)
            then semverCall Semver.gte
                   (default EmptyString (Obj.get (collectedVersions st0) pkg))
                   (c_version config)
            else Returned false) as [| e | [|]];
    cbn [mbind Outcome_bind]; try discriminate.
  { intros [= <- <-]. exact Hst0. }
  pose proof (R_enter st0 pkg target config) as Henter.
  unfold Termination.enterManifest in Henter.
  destruct (getPackageJsonUpdatesFromMigrationConfig options
              (setCollectedVersion st0 pkg (c_version config)) pkg
              (c_version config) config) as [| e | [[updates order] st2]];
    cbn [mbind Outcome_bind] in *; try discriminate.
  specialize (Henter _ _ eq_refl).
  destruct (existsb (shouldCheck options) updates).
  { intros [= <- <-]. eapply R_trans; eassumption. }
  match goal with |- context [JsList.mapM ?f ?l ?s] =>
    destruct (JsList.mapM f l s) as [| e | [results st4]] eqn:Emap
  end; cbn [mbind Outcome_bind]; try discriminate.
  intros [= <- <-].
  eapply R_trans; [exact Hst0|]. eapply R_trans; [exact Henter|].
  eapply mapM_preserves; [|exact Emap].
  intros entry s y s' _. apply IH.
Qed.

Lemma build_preserves fuel : forall pkg target st r st',
  buildPackageJsonUpdates options imports fuel pkg target st
  = Returned (r, st') ->
  R st st'.
Proof using R_refl R_trans R_record R_fetch R_enter.
  induction fuel as [|fuel IH]; intros pkg target st r st'; [discriminate|].
  cbn [buildPackageJsonUpdates].
  destruct (populatePackageJsonUpdatesAndGetPackagesToCheck options fuel pkg
              target st) as [| e | [checks st1]] eqn:Epop;
    cbn [mbind Outcome_bind]; try discriminate.
  apply populate_preserves in Epop.
  match goal with |- context [JsList.mapM ?f ?l ?s] =>
    destruct (JsList.mapM f l s) as [| e | [units st2]] eqn:Emap
  end; cbn [mbind Outcome_bind]; try discriminate.
  intros [= <- <-]. eapply R_trans; [exact Epop|].
  eapply mapM_preserves; [|exact Emap].
  intros check s y s' _. cbv beta.
  destruct (collectAllFilteredUpdates options imports s [] (updates check))
    as [| e | filteredUpdates]; cbn [mbind Outcome_bind]; try discriminate.
  match goal with |- context [JsList.mapM ?g ?k ?t] =>
    destruct (JsList.mapM g k t) as [| e | [us s2]] eqn:Einner
  end; cbn [mbind Outcome_bind]; try discriminate.
  intros [= <- <-].
  eapply mapM_preserves; [|exact Einner].
  intros entry t z t' _. apply IH.
Qed.

Lemma migrationsOfPackage_state packageName st ms st' :
  migrationsOfPackage options imports packageName st = Returned (ms, st') ->
  st' = st \/ exists version, st' = logFetch st packageName version.
Proof.
  unfold migrationsOfPackage.
  destruct (getPkgVersion options st packageName); [|intros [= <- <-]; auto].
  destruct (Obj.get (packageJsonUpdates st) packageName) as [planned|];
    [|discriminate].
  unfold callFetch. destruct (fetch options packageName _) as [e|config];
    cbn [mbind Outcome_bind]; [discriminate|].
  destruct (c_generators config); intros [= <- <-]; eauto.
Qed.

Lemma createMigrateJson_preserves st ms st' :
  createMigrateJson options imports st = Returned (ms, st') -> R st st'.
Proof using R_refl R_trans R_fetch.
  unfold createMigrateJson.
  destruct (JsList.mapM (migrationsOfPackage options imports)
              (Obj.keys (packageJsonUpdates st)) st)
    as [| e | [results st1]] eqn:Emap; cbn [mbind Outcome_bind];
    try discriminate.
  intros [= <- <-]. eapply mapM_preserves; [|exact Emap].
  intros packageName s y s' _ H.
  apply migrationsOfPackage_state in H. destruct H as [->|[version ->]];
    [apply R_refl | apply R_fetch].
Qed.

Lemma PlannerCall_preserves st st' :
  PlannerCall options imports st st' -> R st st'.
Proof using R_refl R_trans R_record R_fetch R_enter.
  intros [fuel pkg target s checks s' H
         | fuel pkg target s s' H
         | fuel targetPackage targetVersion s result s' H].
  - eapply populate_preserves, H.
  - eapply build_preserves, H.
  - unfold Migrator.updatePackageJson in H.
    destruct (buildPackageJsonUpdates options imports fuel targetPackage _ s)
      as [| e | [u s1]] eqn:Ebuild; cbn [mbind Outcome_bind] in H;
      try discriminate.
    destruct (createMigrateJson options imports s1) as [| e | [ms s2]] eqn:Ecreate;
      cbn [mbind Outcome_bind] in H; try discriminate.
    injection H as _ <-.
    eapply R_trans; [eapply build_preserves, Ebuild|].
    eapply createMigrateJson_preserves, Ecreate.
Qed.

End Preserved.

End Planner.

(** *** The plan only grows *)

(** The packages of the plan keep their places, new ones come after them,
    and the version planned for a package stays or goes up in the order of
    normalised semver. *)
Definition Grows (st st' : State) : Prop :=
  (exists added,
     Obj.keys (packageJsonUpdates st')
     = Obj.keys (packageJsonUpdates st) ++ added)
  /\ forall p u,
       Obj.get (packageJsonUpdates st) p = Some u ->
       exists u',
         Obj.get (packageJsonUpdates st') p = Some u'
         /\ lte (pu_version u) (pu_version u') = true.

Lemma Grows_refl st : Grows st st.
Proof.
  split; [exists []; rewrite app_nil_r; reflexivity|].
  intros p u Hu. exists u. split; [exact Hu | apply Normalize.lte_refl].
Qed.

Lemma Grows_trans st1 st2 st3 : Grows st1 st2 -> Grows st2 st3 -> Grows st1 st3.
Proof.
  intros [[a1 K1] V1] [[a2 K2] V2]. split.
  - exists (a1 ++ a2). rewrite K2, K1, app_assoc. reflexivity.
  - intros p u Hu. destruct (V1 p u Hu) as (u2 & Hu2 & L1).
    destruct (V2 p u2 Hu2) as (u3 & Hu3 & L2).
    exists u3. split; [exact Hu3|]. eapply Normalize.lte_trans; eassumption.
Qed.

Lemma Grows_same st st' :
  packageJsonUpdates st' = packageJsonUpdates st -> Grows st st'.
Proof.
  intros H. split; [exists []; rewrite H, app_nil_r; reflexivity|].
  intros p u Hu. exists u. rewrite H.
  split; [exact Hu | apply Normalize.lte_refl].
Qed.

Lemma keys_set {V} (o : Obj.t V) k v :
  Obj.keys (Obj.set o k v)
  = match Obj.get o k with
    | Some _ => Obj.keys o
    | None => Obj.keys o ++ [k]
    end.
Proof.
  induction o as [|[k' v'] o IH]; simpl; [reflexivity|].
  destruct (String.eqb_spec k' k) as [->|Hne]; simpl; [reflexivity|].
  rewrite IH. destruct (Obj.get o k); reflexivity.
Qed.

Lemma Grows_addPackageJsonUpdate st name update :
  Grows st (addPackageJsonUpdate st name update).
Proof.
  unfold addPackageJsonUpdate.
  destruct (Obj.get (packageJsonUpdates st) name) as [current|] eqn:Hcur.
  - destruct (gt (pu_version update) (pu_version current)) eqn:Hgt;
      [|apply Grows_refl].
    split; cbn [packageJsonUpdates].
    + rewrite keys_set, Hcur. exists []. rewrite app_nil_r. reflexivity.
    + intros p u Hu. destruct (String.eqb_spec name p) as [<-|Hne].
      * rewrite ObjFacts.get_set_eq. exists update. split; [reflexivity|].
        rewrite Hcur in Hu. injection Hu as <-.
        apply Normalize.gt_lte, Hgt.
      * rewrite ObjFacts.get_set_ne by exact Hne. exists u.
        split; [exact Hu | apply Normalize.lte_refl].
  - split; cbn [packageJsonUpdates].
    + rewrite keys_set, Hcur. eauto.
    + intros p u Hu. destruct (String.eqb_spec name p) as [<-|Hne];
        [congruence|].
      rewrite ObjFacts.get_set_ne by exact Hne. exists u.
      split; [exact Hu | apply Normalize.lte_refl].
Qed.

Lemma Grows_enterManifest options st pkg target config found st' :
  Termination.enterManifest options st pkg target config
  = Returned (found, st') ->
  Grows st st'.
Proof.
  intros H. apply enterManifest_state in H.
  destruct H as (st2 & (Hplan & _) & ->).
  eapply Grows_trans; [|apply Grows_addPackageJsonUpdate].
  apply Grows_same. exact Hplan.
Qed.



(** *** The plan covers the versions collected *)

(** Every package with a collected version is planned, at that version at
    least. *)
Definition Covers (st : State) : Prop :=
  forall p collected,
    Obj.get (collectedVersions st) p = Some collected ->
    exists u,
      Obj.get (packageJsonUpdates st) p = Some u
      /\ lte collected (pu_version u) = true.

Lemma Covers_Grows st st' :
  collectedVersions st' = collectedVersions st ->
  Grows st st' -> Covers st -> Covers st'.
Proof.
  intros Hcol [_ V] C p collected Hp. rewrite Hcol in Hp.
  destruct (C p collected Hp) as (u & Hu & L).
  destruct (V p u Hu) as (u' & Hu' & L').
  exists u'. split; [exact Hu'|]. eapply Normalize.lte_trans; eassumption.
Qed.

Lemma addPackageJsonUpdate_present st name update :
  exists u,
    Obj.get (packageJsonUpdates (addPackageJsonUpdate st name update)) name
    = Some u
    /\ lte (pu_version update) (pu_version u) = true.
Proof.
  unfold addPackageJsonUpdate.
  destruct (Obj.get (packageJsonUpdates st) name) as [current|] eqn:Hcur.
  - destruct (gt (pu_version update) (pu_version current)) eqn:Hgt.
    + cbn [packageJsonUpdates]. rewrite ObjFacts.get_set_eq.
      exists update. split; [reflexivity | apply Normalize.lte_refl].
    + exists current. split; [exact Hcur|].
      rewrite Normalize.lte_not_gt, Hgt. reflexivity.
  - cbn [packageJsonUpdates]. rewrite ObjFacts.get_set_eq.
    exists update. split; [reflexivity | apply Normalize.lte_refl].
Qed.

Lemma Covers_enterManifest options st pkg target config found st' :
  Termination.enterManifest options st pkg target config
  = Returned (found, st') ->
  Covers st -> Covers st'.
Proof.
  intros H C. apply enterManifest_state in H.
  destruct H as (st2 & (Hplan & Hcol & _) & ->).
  intros p collected.
  rewrite Termination.addPackageJsonUpdate_collected, Hcol.
  cbn [setCollectedVersion collectedVersions].
  destruct (String.eqb_spec pkg p) as [<-|Hne].
  - rewrite ObjFacts.get_set_eq. intros [= <-].
    apply addPackageJsonUpdate_present.
  - rewrite ObjFacts.get_set_ne by exact Hne. intros Hp.
    destruct (C p collected Hp) as (u & Hu & L).
    destruct (Grows_addPackageJsonUpdate st2 pkg
                (mkUpdateForPackage (c_version config)
                   (Some (orFalse (pu_addToPackageJson target))) None None))
      as [_ V].
    destruct (V p u) as (u' & Hu' & L').
    { rewrite Hplan. exact Hu. }
    exists u'. split; [exact Hu'|]. eapply Normalize.lte_trans; eassumption.
Qed.

Lemma PlannerCall_Covers options imports st st' :
  PlannerCall options imports st st' -> Covers st -> Covers st'.
Proof.
  apply (PlannerCall_preserves options imports
           (fun s s' => Covers s -> Covers s')).
  - auto.
  - auto.
  - intros s pkg update. apply Covers_Grows;
      [apply Termination.addPackageJsonUpdate_collected
      | apply Grows_addPackageJsonUpdate].
  - intros s pkg version. apply Covers_Grows; [reflexivity|].
    apply Grows_same. reflexivity.
  - apply Covers_enterManifest.
Qed.



(** *** The overrides *)

(** What was overridden stays overridden as it was, and an override that is
    new has the value of one that was there. *)
Definition Propagated (st st' : State) : Prop :=
  (forall p v,
     Obj.get (installedPkgVersionOverrides st) p = Some v ->
     Obj.get (installedPkgVersionOverrides st') p = Some v)
  /\ (forall p v,
        Obj.get (installedPkgVersionOverrides st') p = Some v ->
        exists q, Obj.get (installedPkgVersionOverrides st) q = Some v).

Lemma Propagated_same st st' :
  installedPkgVersionOverrides st' = installedPkgVersionOverrides st ->
  Propagated st st'.
Proof. intros H. unfold Propagated. rewrite H. split; eauto. Qed.

Lemma Propagated_trans st1 st2 st3 :
  Propagated st1 st2 -> Propagated st2 st3 -> Propagated st1 st3.
Proof.
  intros [K1 N1] [K2 N2]. split; [auto|].
  intros p v H. destruct (N2 p v H) as (q & Hq). exact (N1 q v Hq).
Qed.

Lemma addPackageJsonUpdate_overrides st name update :
  installedPkgVersionOverrides (addPackageJsonUpdate st name update)
  = installedPkgVersionOverrides st.
Proof.
  unfold addPackageJsonUpdate.
  destruct (match Obj.get (packageJsonUpdates st) name with
            | Some current => gt (pu_version update) (pu_version current)
            | None => true
            end); reflexivity.
Qed.

Lemma Propagated_enterManifest options st pkg target config found st' :
  Termination.enterManifest options st pkg target config
  = Returned (found, st') ->
  Propagated st st'.
Proof.
  intros H. apply enterManifest_state in H.
  destruct H as (st2 & (_ & _ & _ & [K N]) & ->).
  unfold Propagated. rewrite addPackageJsonUpdate_overrides.
  cbn [setCollectedVersion installedPkgVersionOverrides] in K, N.
  split; [exact K|].
  intros p v Hp. destruct (N p v Hp); eauto.
Qed.



(** *** The plan that is returned *)

Lemma set_NoDup {V} (o : Obj.t V) k v :
  List.NoDup (Obj.keys o) -> List.NoDup (Obj.keys (Obj.set o k v)).
Proof.
  intros H. rewrite keys_set.
  destruct (Obj.get o k) eqn:E; [exact H|].
  apply List.NoDup_app; [exact H | repeat constructor; simpl; tauto |].
  intros x Hx [->|[]].
  destruct (ObjFacts.get_keys o x Hx) as (w & Hw). congruence.
Qed.

Definition Distinct (st : State) : Prop :=
  List.NoDup (Obj.keys (packageJsonUpdates st)).

Lemma Distinct_addPackageJsonUpdate st name update :
  Distinct st -> Distinct (addPackageJsonUpdate st name update).
Proof.
  unfold Distinct, addPackageJsonUpdate.
  destruct (match Obj.get (packageJsonUpdates st) name with
            | Some current => gt (pu_version update) (pu_version current)
            | None => true
            end); [|auto].
  cbn [packageJsonUpdates]. apply set_NoDup.
Qed.

Lemma PlannerCall_Distinct options imports st st' :
  PlannerCall options imports st st' -> Distinct st -> Distinct st'.
Proof.
  apply (PlannerCall_preserves options imports
           (fun s s' => Distinct s -> Distinct s')).
  - auto.
  - auto.
  - intros s pkg update. apply Distinct_addPackageJsonUpdate.
  - auto.
  - intros s pkg target config found s' H D.
    apply enterManifest_state in H. destruct H as (st2 & (Hplan & _) & ->).
    apply Distinct_addPackageJsonUpdate. unfold Distinct. rewrite Hplan.
    exact D.
Qed.

Lemma populate_Grows options fuel pkg target st checks st' :
  populatePackageJsonUpdatesAndGetPackagesToCheck options fuel pkg target st
  = Returned (checks, st') ->
  Grows st st'.
Proof.
  apply (populate_preserves options Grows Grows_refl Grows_trans
           Grows_addPackageJsonUpdate
           (fun s _ _ => Grows_same s _ eq_refl)
           (Grows_enterManifest options)).
Qed.

(** A call for a package leaves the package planned. *)
Lemma populate_plans options fuel pkg target st checks st' :
  populatePackageJsonUpdatesAndGetPackagesToCheck options fuel pkg target st
  = Returned (checks, st') ->
  Covers st ->
  exists u, Obj.get (packageJsonUpdates st') pkg = Some u.
Proof.
  destruct fuel as [|fuel]; [discriminate|].
  cbn [populatePackageJsonUpdatesAndGetPackagesToCheck]. intros H C.
  destruct (negb (Js.truthy (getPkgVersion options st pkg))).
  { injection H as <- <-.
    destruct (addPackageJsonUpdate_present st pkg
                (mkUpdateForPackage (pu_version target)
                   (Some (orFalse (pu_addToPackageJson target))) None None))
      as (u & Hu & _).
    eauto. }
  destruct (callFetch options st pkg _) as [| e | [config st0]] eqn:Efetch;
    try discriminate.
  assert (Hst0 : packageJsonUpdates st0 = packageJsonUpdates st
                 /\ collectedVersions st0 = collectedVersions st).
  { unfold callFetch in Efetch. destruct (fetch options pkg _); [discriminate|].
    injection Efetch as <- <-. auto. }
  destruct Hst0 as [Hplan0 Hcol0].
  destruct (if Js.truthy (Obj.get (collectedVersions st0) pkg)
            then semverCall Semver.gte
                   (default EmptyString (Obj.get (collectedVersions st0) pkg))
                   (c_version config)
            else Returned false) as [| e | [|]] eqn:Ecov;
    cbn [mbind Outcome_bind] in H; try discriminate.
  { injection H as <- <-. rewrite Hcol0 in Ecov.
    destruct (Obj.get (collectedVersions st) pkg) as [c|] eqn:Hc;
      [|discriminate].
    destruct (C pkg c Hc) as (u & Hu & _).
    exists u. rewrite Hplan0. exact Hu. }
  destruct (getPackageJsonUpdatesFromMigrationConfig options
              (setCollectedVersion st0 pkg (c_version config)) pkg
              (c_version config) config) as [| e | [[updates order] st2]];
    cbn [mbind Outcome_bind] in H; try discriminate.
  destruct (addPackageJsonUpdate_present st2 pkg
              (mkUpdateForPackage (c_version config)
                 (Some (orFalse (pu_addToPackageJson target))) None None))
    as (u & Hu & _).
  destruct (existsb (shouldCheck options) updates).
  { injection H as <- <-. eauto. }
  match type of H with context [JsList.mapM ?f ?l ?s] =>
    destruct (JsList.mapM f l s) as [| e | [results st4]] eqn:Emap
  end; cbn [mbind Outcome_bind] in H; try discriminate.
  injection H as <- <-.
  assert (G : Grows (addPackageJsonUpdate st2 pkg
                       (mkUpdateForPackage (c_version config)
                          (Some (orFalse (pu_addToPackageJson target))) None
                          None)) st4).
  { eapply (mapM_preserves Grows Grows_refl Grows_trans); [|exact Emap].
    intros entry s y s' _. apply populate_Grows. }
  destruct G as [_ V]. destruct (V pkg u Hu) as (u' & Hu' & _). eauto.
Qed.

End PlannerFacts.

(** ** From the plan to the manifest *)

Module PlanFacts.



End PlanFacts.

(** ** Prompts and requirements *)

Module DecisionFacts.
Import Migrator.

Lemma mapM_ext {S A B} (f g : A -> S -> Outcome (B * S)) l :
  (forall x st, In x l -> f x st = g x st) ->
  forall st, JsList.mapM f l st = JsList.mapM g l st.
Proof.
  induction l as [|x l IH]; intros H st; simpl; [reflexivity|].
  rewrite (H x st (or_introl eq_refl)).
  destruct (g x st) as [| e | [y st1]]; cbn [mbind Outcome_bind];
    try reflexivity.
  rewrite (IH (fun z s Hz => H z s (or_intror Hz)) st1). reflexivity.
Qed.

(** The imports with another answer to the prompts. *)
Definition withPrompt (imports : Imports) (answer : string -> bool) : Imports :=
  mkImports answer (satisfies imports) (cleanSemver imports).

Section Facts.

Variable options : MigratorOptions.
Variable imports : Imports.
Variable answer : string -> bool.
Hypothesis not_interactive : interactive options = false.

Lemma collectAllFilteredUpdates_answer st updates : forall filteredUpdates,
  collectAllFilteredUpdates options (withPrompt imports answer) st
    filteredUpdates updates
  = collectAllFilteredUpdates options imports st filteredUpdates updates.
Proof using not_interactive.
  induction updates as [|update updates IH]; intros filteredUpdates; simpl;
    [reflexivity|].
  unfold collectFilteredUpdates. rewrite not_interactive. cbn [negb orb].
  change (areRequirementsMet options (withPrompt imports answer))
    with (areRequirementsMet options imports).
  destruct (areRequirementsMet options imports st (u_requires update)
              (Some filteredUpdates) && true);
    [destruct (u_packages update)|]; cbn [mbind Outcome_bind];
    try reflexivity; apply IH.
Qed.

Lemma build_answer fuel : forall pkg target st,
  buildPackageJsonUpdates options (withPrompt imports answer) fuel pkg target st
  = buildPackageJsonUpdates options imports fuel pkg target st.
Proof using not_interactive.
  induction fuel as [|fuel IH]; intros pkg target st; [reflexivity|].
  cbn [buildPackageJsonUpdates].
  destruct (populatePackageJsonUpdatesAndGetPackagesToCheck options fuel pkg
              target st) as [| e | [checks st1]]; cbn [mbind Outcome_bind];
    try reflexivity.
  f_equal. apply mapM_ext. intros check s _.
  rewrite collectAllFilteredUpdates_answer.
  destruct (collectAllFilteredUpdates options imports s [] (updates check))
    as [| e | filteredUpdates]; cbn [mbind Outcome_bind]; try reflexivity.
  f_equal. apply mapM_ext. intros entry t _. apply IH.
Qed.

End Facts.



(** An update that needs a decision before it is followed: it has a prompt
    and the planner is interactive, or it has requirements. *)
Definition NeedsDecision (options : MigratorOptions)
    (packageJsonUpdate : PackageJsonUpdate) : Prop :=
  (interactive options = true
   /\ exists message,
        u_xprompt packageJsonUpdate = Some message /\ message <> EmptyString)
  \/ exists requirements,
       u_requires packageJsonUpdate = Some requirements /\ requirements <> [].

Lemma shouldCheck_NeedsDecision options packageJsonUpdate :
  shouldCheck options packageJsonUpdate = true ->
  NeedsDecision options packageJsonUpdate.
Proof.
  unfold shouldCheck. intros H. apply orb_true_iff in H. destruct H as [H|H].
  - apply andb_true_iff in H. destruct H as [Hi Hp]. left.
    split; [exact Hi|]. apply MigrateJson.truthy_Some in Hp. exact Hp.
  - right. destruct (u_requires packageJsonUpdate) as [requirements|];
      [|discriminate].
    exists requirements. split; [reflexivity|].
    intros ->. discriminate.
Qed.

Lemma insertByKey_In {A} (key : A -> Z) x y l :
  In y (JsList.insertByKey key x l) -> y = x \/ In y l.
Proof.
  induction l as [|z l IH]; simpl.
  - intros [<-|[]]. auto.
  - destruct (key x <=? key z)%Z; simpl.
    + intros [<-|H]; auto.
    + intros [<-|H]; [auto|]. destruct (IH H); auto.
Qed.

Lemma sortByKey_In {A} (key : A -> Z) y l :
  In y (JsList.sortByKey key l) -> In y l.
Proof.
  induction l as [|x l IH]; simpl; [auto|].
  intros H. apply insertByKey_In in H. destruct H as [->|H]; auto.
Qed.

Lemma mapM_results {S A B} (f : A -> S -> Outcome (B * S)) (P : B -> Prop) l :
  (forall x st y st', In x l -> f x st = Returned (y, st') -> P y) ->
  forall st ys st', JsList.mapM f l st = Returned (ys, st') ->
    forall y, In y ys -> P y.
Proof.
  induction l as [|x l IH]; intros Hf st ys st'; simpl.
  - intros [= <- <-] y [].
  - destruct (f x st) as [| e | [y0 st1]] eqn:E1; try discriminate.
    cbn [mbind Outcome_bind].
    destruct (JsList.mapM f l st1) as [| e | [zs st2]] eqn:E2; try discriminate.
    cbn [mbind Outcome_bind]. intros [= <- <-] y [<-|Hy].
    + exact (Hf x st y0 st1 (or_introl eq_refl) E1).
    + eapply IH; [|exact E2|exact Hy].
      intros z s w s' Hz. apply Hf. right. exact Hz.
Qed.


(** A manifest whose only update requires [b] at 1.0.0 or above. *)
Definition gated : MigratorOptions :=
  mkMigratorOptions
    (mkPackageJson (Some {[ "a" := "1.0.0"; "b" := "1.0.0" ]}) None)
    Sample.installed
    (fun _ _ =>
       inr (mkConfiguration "2.0.0"
              (Some
                 [ ("2.0.0",
                    mkPackageJsonUpdate "2.0.0"
                      (Some [("b", mkUpdateForPackage "1.5.0" None None None)])
                      (Some [("b", ">=1.0.0")]) None) ])
              None None None))
    [] [] false.

Definition gatedRun : list PackagesToCheck * State :=
  match
    populatePackageJsonUpdatesAndGetPackagesToCheck gated 3 "a" Sample.latest
      (create gated)
  with
  | Returned r => r
  | _ => ([], create gated)
  end.

Lemma gated_run :
  populatePackageJsonUpdatesAndGetPackagesToCheck gated 3 "a" Sample.latest
    (create gated)
  = Returned (fst gatedRun, snd gatedRun).
Proof. vm_compute. reflexivity. Qed.


End DecisionFacts.

(** ** The updates that a manifest contributes *)

Module FilterFacts.
Import Migrator.

Lemma In_set {V} (o : Obj.t V) k v k' v' :
  In (k', v') (Obj.set o k v) -> (k', v') = (k, v) \/ In (k', v') o.
Proof.
  induction o as [|[k0 v0] o IH]; simpl.
  - intros [H|[]]. auto.
  - destruct (String.eqb_spec k0 k) as [->|Hne]; simpl.
    + intros [H|H]; auto.
    + intros [H|H]; [auto|]. destruct (IH H); auto.
Qed.

(** What [filterPackageJsonUpdates] writes for a package that it keeps. *)
Definition canonical (packageUpdate : PackageJsonUpdateForPackage)
  : PackageJsonUpdateForPackage :=
  mkUpdateForPackage (pu_version packageUpdate)
    (Some (if default false (pu_alwaysAddToPackageJson packageUpdate)
           then AddTo Dependencies
           else orFalse (pu_addToPackageJson packageUpdate)))
    None None.

Lemma canonicalUpdate_In entries : forall acc name written,
  In (name, written) (fold_left canonicalUpdate entries acc) ->
  In (name, written) acc
  \/ exists original, In (name, original) entries /\ written = canonical original.
Proof.
  induction entries as [|[k u] entries IH]; intros acc name written; simpl;
    [auto|].
  intros H. destruct (IH _ _ _ H) as [Hacc|(original & Hin & ->)].
  - apply In_set in Hacc. destruct Hacc as [[= -> ->]|Hacc]; [|auto].
    right. exists u. auto.
  - right. exists original. auto.
Qed.

(** What is said of an update that is kept, [kept], of a manifest with the
    updates [packageJsonUpdates]. *)
Definition KeptFrom (options : MigratorOptions) (st : State)
    (packageJsonUpdates : list PackageJsonUpdate)
    (packageName targetVersion : string) (kept : PackageJsonUpdate) : Prop :=
  exists update packages installed keptPackages,
    In update packageJsonUpdates
    /\ u_packages update = Some packages
    /\ getPkgVersion options st packageName = Some installed
    /\ Semver.gt (normalizeVersion (u_version update))
         (normalizeVersion installed) = Some true
    /\ Semver.lte (normalizeVersion (u_version update))
         (normalizeVersion targetVersion) = Some true
    /\ u_version kept = u_version update
    /\ u_requires kept = u_requires update
    /\ u_xprompt kept = u_xprompt update
    /\ u_packages kept = Some keptPackages
    /\ keptPackages <> []
    /\ forall name written,
         In (name, written) keptPackages ->
         exists original,
           In (name, original) packages
           /\ pu_version written = pu_version original
           /\ pu_addToPackageJson written
              = Some (if default false (pu_alwaysAddToPackageJson original)
                      then AddTo Dependencies
                      else default AddFalse (pu_addToPackageJson original))
           /\ (Js.truthy (pu_ifPackageInstalled original) = true ->
               Js.truthy
                 (getPkgVersion options st
                    (default EmptyString (pu_ifPackageInstalled original)))
               = true)
           /\ (pu_alwaysAddToPackageJson original = Some true
               \/ (exists section,
                     pu_addToPackageJson original = Some (AddTo section))
               \/ Js.truthy
                    (sectionLookup (dependencies (packageJson options)) name)
                  = true
               \/ Js.truthy
                    (sectionLookup (devDependencies (packageJson options))
                       name) = true)
           /\ (Js.truthy (Obj.get (collectedVersions st) name) = true ->
               Semver.gt (normalizeVersion (pu_version original))
                 (normalizeVersion
                    (default EmptyString
                       (Obj.get (collectedVersions st) name))) = Some true).

Lemma KeptFrom_cons options st update rest packageName targetVersion kept :
  KeptFrom options st rest packageName targetVersion kept ->
  KeptFrom options st (update :: rest) packageName targetVersion kept.
Proof.
  intros (u0 & packages & installed & keptPackages & H0 & H).
  exists u0, packages, installed, keptPackages.
  split; [right; exact H0 | exact H].
Qed.

Lemma filterPackageJsonUpdates_KeptFrom options st packageName targetVersion
    kept packageJsonUpdates : forall filtered,
  filterPackageJsonUpdates options st packageJsonUpdates packageName
    targetVersion = Returned filtered ->
  In kept filtered ->
  KeptFrom options st packageJsonUpdates packageName targetVersion kept.
Proof.
  induction packageJsonUpdates as [|update rest IH]; intros filtered;
    cbn [filterPackageJsonUpdates].
  { intros [= <-] []. }
  destruct (u_packages update) as [packages|] eqn:Hpackages;
    [|intros; eapply KeptFrom_cons, IH; eassumption].
  destruct (getPkgVersion options st packageName) as [installed|] eqn:Hinst;
    [|discriminate].
  destruct (lte (u_version update) installed
            || gt (u_version update) targetVersion) eqn:Hrange;
    [intros; eapply KeptFrom_cons, IH; eassumption|].
  destruct (filterPackageJsonUpdates options st rest packageName targetVersion)
    as [| e | others] eqn:Hothers; cbn [mbind Outcome_bind]; try discriminate.
  set (keptPackages :=
         fold_left canonicalUpdate
           (List.filter (keepPackageUpdate options st) (Obj.entries packages))
           []).
  destruct (Nat.eqb (length (Obj.keys keptPackages)) 0) eqn:Hempty.
  { intros [= <-] Hin. eapply KeptFrom_cons, IH; [reflexivity | exact Hin]. }
  intros [= <-] [<-|Hin];
    [|eapply KeptFrom_cons, IH; [reflexivity | exact Hin]].
  exists update, packages, installed, keptPackages.
  apply orb_false_iff in Hrange. destruct Hrange as [Hlte Hgt].
  split; [left; reflexivity|]. split; [exact Hpackages|].
  split; [exact Hinst|].
  split.
  { rewrite Normalize.gt_normalized. f_equal.
    rewrite Normalize.lte_not_gt in Hlte.
    destruct (gt (u_version update) installed); [reflexivity | discriminate]. }
  split.
  { rewrite Normalize.lte_normalized. f_equal.
    rewrite Normalize.lte_not_gt, Hgt. reflexivity. }
  split; [reflexivity|]. split; [reflexivity|]. split; [reflexivity|].
  split; [reflexivity|].
  split.
  { intros E. rewrite E in Hempty. discriminate. }
  intros name written Hin.
  apply canonicalUpdate_In in Hin. destruct Hin as [[]|(original & Hin & ->)].
  apply filter_In in Hin. destruct Hin as [Hin Hkeep].
  exists original. split; [exact Hin|].
  split; [reflexivity|]. split; [reflexivity|].
  unfold keepPackageUpdate in Hkeep.
  apply andb_true_iff in Hkeep. destruct Hkeep as [Hkeep Hcollected].
  apply andb_true_iff in Hkeep. destruct Hkeep as [Hif Hadd].
  split.
  { intros Ht. rewrite Ht in Hif. exact Hif. }
  split.
  { rewrite !orb_true_iff in Hadd.
    destruct Hadd as [[[H|H]|H]|H]; auto.
    - left. destruct (pu_alwaysAddToPackageJson original) as [[|]|];
        try discriminate. reflexivity.
    - right. left. unfold isAdding in H.
      destruct (pu_addToPackageJson original) as [[|section]|];
        try discriminate. eauto. }
  intros Ht. rewrite Ht in Hcollected. cbn [negb orb] in Hcollected.
  rewrite Normalize.gt_normalized, Hcollected. reflexivity.
Qed.

(** X8.  Every entry of the list that [filterPackageJsonUpdates] returns
    comes from an update of the manifest that has [packages] and whose
    version is above the installed version of the package and at most the
    target version, in the order of normalised semver: none is outside that
    range.  It keeps the [requires] and the prompt of that update, and its
    [packages] are not empty; each of them has the version that the update
    gave it, is installed in the root manifest or has to be added to it, is
    not held back by an [ifPackageInstalled] that is not installed, and
    has no collected version or is above it. *)
Theorem filterPackageJsonUpdates_keeps_what_applies
    (options : MigratorOptions) (st : State)
    (packageJsonUpdates : list PackageJsonUpdate)
    (packageName targetVersion : string)
    (filtered : list PackageJsonUpdate) (kept : PackageJsonUpdate) :
  filterPackageJsonUpdates options st packageJsonUpdates packageName
    targetVersion = Returned filtered ->
  In kept filtered ->
  exists update packages installed keptPackages,
    In update packageJsonUpdates
    /\ u_packages update = Some packages
    /\ getPkgVersion options st packageName = Some installed
    /\ Semver.gt (normalizeVersion (u_version update))
         (normalizeVersion installed) = Some true
    /\ Semver.lte (normalizeVersion (u_version update))
         (normalizeVersion targetVersion) = Some true
    /\ u_version kept = u_version update
    /\ u_requires kept = u_requires update
    /\ u_xprompt kept = u_xprompt update
    /\ u_packages kept = Some keptPackages
    /\ keptPackages <> []
    /\ forall name written,
         In (name, written) keptPackages ->
         exists original,
           In (name, original) packages
           /\ pu_version written = pu_version original
           /\ pu_addToPackageJson written
              = Some (if default false (pu_alwaysAddToPackageJson original)
                      then AddTo Dependencies
                      else default AddFalse (pu_addToPackageJson original))
           /\ (Js.truthy (pu_ifPackageInstalled original) = true ->
               Js.truthy
                 (getPkgVersion options st
                    (default EmptyString (pu_ifPackageInstalled original)))
               = true)
           /\ (pu_alwaysAddToPackageJson original = Some true
               \/ (exists section,
                     pu_addToPackageJson original = Some (AddTo section))
               \/ Js.truthy
                    (sectionLookup (dependencies (packageJson options)) name)
                  = true
               \/ Js.truthy
                    (sectionLookup (devDependencies (packageJson options))
                       name) = true)
           /\ (Js.truthy (Obj.get (collectedVersions st) name) = true ->
               Semver.gt (normalizeVersion (pu_version original))
                 (normalizeVersion
                    (default EmptyString
                       (Obj.get (collectedVersions st) name))) = Some true).
Proof.
  exact (filterPackageJsonUpdates_KeptFrom options st packageName targetVersion
           kept packageJsonUpdates filtered).
Qed.

Lemma filterPackageJsonUpdates_keeps_what_applies_witness :
  exists installed,
    getPkgVersion Sample.workspace (create Sample.workspace) "a"
    = Some installed
    /\ Semver.gt (normalizeVersion "2.0.0") (normalizeVersion installed)
       = Some true
    /\ Semver.lte (normalizeVersion "2.0.0") (normalizeVersion "2.0.0")
       = Some true.
Proof.
  destruct (filterPackageJsonUpdates_keeps_what_applies Sample.workspace
              (create Sample.workspace) (Obj.values Sample.updatesOfA) "a"
              "2.0.0"
              [mkPackageJsonUpdate "2.0.0"
                 (Some
                    [ ("b", mkUpdateForPackage "1.5.0" (Some AddFalse) None None);
                      ("c",
                       mkUpdateForPackage "3.0.0"
                         (Some (AddTo DevDependencies)) None None) ])
                 None None]
              _ eq_refl (or_introl eq_refl))
    as (update & packages & installed & keptPackages & _ & _ & Hinst & Hgt
        & Hlte & Hversion & _).
  cbn [u_version] in Hversion. rewrite <- Hversion in Hgt, Hlte.
  exists installed. auto.
Defined.

End FilterFacts.

(** ** The list of migrations *)

Module MigrationListFacts.
Import Migrator.

Section Facts.

Variable options : MigratorOptions.
Variable imports : Imports.

Lemma requirementMet_complete st pkgName versionRange :
  MigrateJson.RequirementHolds options imports st pkgName versionRange ->
  requirementMet options imports st None (pkgName, versionRange) = true.
Proof.
  unfold requirementMet.
  intros [(installed & Hi & Hne & Hs)|(planned & Hp & Hne & Hs)].
  - rewrite Hi. cbn [default]. unfold id.
    rewrite (VersionFacts.truthy_nonempty installed Hne), Hs. reflexivity.
  - rewrite Hp, Hs. unfold nonEmpty.
    destruct (String.eqb_spec (pu_version planned) EmptyString);
      [contradiction|].
    cbn [negb andb]. rewrite orb_true_r. reflexivity.
Qed.

Lemma areRequirementsMet_complete st requirements :
  (forall pkgName versionRange,
     In (pkgName, versionRange) (default [] requirements) ->
     MigrateJson.RequirementHolds options imports st pkgName versionRange) ->
  areRequirementsMet options imports st requirements None = true.
Proof.
  unfold areRequirementsMet. destruct requirements as [reqs|]; [|reflexivity].
  cbn [default]. unfold id. intros H.
  destruct (Nat.eqb (length (Obj.keys reqs)) 0); [reflexivity|].
  apply forallb_forall. intros [pkgName versionRange] Hin.
  apply requirementMet_complete, H, Hin.
Qed.

(** The calls of [fetch] that [createMigrateJson] makes for the packages
    [names]: one for each that has an installed version, at the version
    planned for it. *)
Definition fetched (plan : Obj.t PackageJsonUpdateForPackage)
    (overrides : Obj.t string) (names : list string)
  : list (string * string) :=
  omap
    (fun packageName =>
       match getInstalledPackageVersion options packageName overrides with
       | Some _ =>
           Some (packageName,
                 default EmptyString (pu_version <$> Obj.get plan packageName))
       | None => None
       end)
    names.

Lemma mapM_migrationsOfPackage_log names : forall st results st',
  JsList.mapM (migrationsOfPackage options imports) names st
  = Returned (results, st') ->
  packageJsonUpdates st' = packageJsonUpdates st
  /\ installedPkgVersionOverrides st' = installedPkgVersionOverrides st
  /\ collectedVersions st' = collectedVersions st
  /\ fetchLog st'
     = rev (fetched (packageJsonUpdates st) (installedPkgVersionOverrides st)
              names)
       ++ fetchLog st.
Proof.
  induction names as [|name names IH]; intros st results st'; simpl.
  - intros [= <- <-]. auto.
  - destruct (migrationsOfPackage options imports name st)
      as [| e | [ms st1]] eqn:H1; try discriminate.
    cbn [mbind Outcome_bind].
    destruct (JsList.mapM (migrationsOfPackage options imports) names st1)
      as [| e | [rest st2]] eqn:H2; try discriminate.
    cbn [mbind Outcome_bind]. intros [= <- <-].
    apply IH in H2. destruct H2 as (P2 & O2 & C2 & L2).
    unfold migrationsOfPackage, getPkgVersion in H1.
    unfold fetched. cbn [omap list_omap]. fold (fetched).
    destruct (getInstalledPackageVersion options name
                (installedPkgVersionOverrides st)) as [currentVersion|].
    2:{ injection H1 as <- <-. auto. }
    destruct (Obj.get (packageJsonUpdates st) name) as [planned|];
      [|discriminate].
    unfold callFetch in H1.
    destruct (fetch options name (pu_version planned)) as [e|config];
      cbn [mbind Outcome_bind] in H1; [discriminate|].
    assert (Hst1 : st1 = logFetch st name (pu_version planned)).
    { destruct (c_generators config); injection H1 as _ <-; reflexivity. }
    subst st1. cbn [logFetch packageJsonUpdates installedPkgVersionOverrides
                      collectedVersions fetchLog] in *.
    repeat (split; [assumption|]).
    rewrite L2. cbn [fmap option_fmap option_map default rev].
    unfold id. rewrite <- app_assoc. reflexivity.
Qed.

(** The migrations of the package [packageName] are among those of a list
    of names that has it. *)
Lemma mapM_migrationsOfPackage_complete packageName names :
  forall st results st',
  JsList.mapM (migrationsOfPackage options imports) names st
  = Returned (results, st') ->
  In packageName names ->
  exists st1 ms st2,
    MigrateJson.SamePlan st st1
    /\ migrationsOfPackage options imports packageName st1 = Returned (ms, st2)
    /\ In ms results.
Proof.
  induction names as [|name names IH]; intros st results st'; simpl;
    [intros _ []|].
  destruct (migrationsOfPackage options imports name st)
    as [| e | [ms st1]] eqn:H1; try discriminate.
  cbn [mbind Outcome_bind].
  destruct (JsList.mapM (migrationsOfPackage options imports) names st1)
    as [| e | [rest st2]] eqn:H2; try discriminate.
  cbn [mbind Outcome_bind]. intros [= <- <-] [->|Hin].
  - exists st, ms, st1. split; [apply MigrateJson.SamePlan_refl|].
    split; [exact H1 | left; reflexivity].
  - destruct (IH st1 rest st2 H2 Hin) as (s1 & ms' & s2 & HS & Hrun & Hms).
    exists s1, ms', s2.
    split; [|split; [exact Hrun | right; exact Hms]].
    apply (MigrateJson.migrationsOfPackage_spec options imports) in H1.
    destruct H1 as [HS1 _].
    eapply MigrateJson.SamePlan_trans; eassumption.
Qed.

End Facts.

(** X9.  [createMigrateJson] leaves out no migration that applies: when it
    returns, every entry of the generators of the manifest fetched for a
    planned package at its planned version is in the list, with the package
    and its name, if its version is above the installed version of the
    package and at most the planned one in the order of normalised semver
    and each of its requirements is satisfied by the installed or by the
    planned version of the required package. *)
Theorem createMigrateJson_emits_every_applicable_migration
    (options : MigratorOptions) (imports : Imports) (st st' : State)
    (migrations : list Migration)
    (packageName installed version name : string)
    (planned : PackageJsonUpdateForPackage)
    (config : ResolvedMigrationConfiguration)
    (generators : Obj.t MigrationsJsonEntry) (entry : MigrationsJsonEntry) :
  createMigrateJson options imports st = Returned (migrations, st') ->
  getPkgVersion options st packageName = Some installed ->
  Obj.get (packageJsonUpdates st) packageName = Some planned ->
  fetch options packageName (pu_version planned) = inr config ->
  c_generators config = Some generators ->
  In (name, entry) (Obj.entries generators) ->
  g_version entry = Some version ->
  version <> EmptyString ->
  Semver.gt (normalizeVersion version) (normalizeVersion installed)
  = Some true ->
  Semver.lte (normalizeVersion version) (normalizeVersion (pu_version planned))
  = Some true ->
  (forall pkgName versionRange,
     In (pkgName, versionRange) (default [] (g_requires entry)) ->
     (exists current,
        getPkgVersion options st pkgName = Some current
        /\ current <> EmptyString
        /\ satisfies imports current versionRange = true)
     \/ (exists update,
           Obj.get (packageJsonUpdates st) pkgName = Some update
           /\ pu_version update <> EmptyString
           /\ satisfies imports (pu_version update) versionRange = true)) ->
  In (mkMigration entry packageName name) migrations.
Proof.
  intros Hrun Hinst Hplanned Hfetch Hgen Hentry Hversion Hne Hgt Hlte Hreq.
  unfold createMigrateJson in Hrun.
  destruct (JsList.mapM (migrationsOfPackage options imports)
              (Obj.keys (packageJsonUpdates st)) st)
    as [| e | [results st1]] eqn:Hmap; cbn [mbind Outcome_bind] in Hrun;
    try discriminate.
  injection Hrun as <- <-.
  destruct (mapM_migrationsOfPackage_complete options imports packageName _ _
              _ _ Hmap (ObjFacts.get_in_keys _ _ _ Hplanned))
    as (s1 & ms & s2 & HS & Hone & Hms).
  apply in_concat. exists ms. split; [exact Hms|].
  unfold migrationsOfPackage in Hone.
  rewrite (MigrateJson.getPkgVersion_SamePlan options st s1 _ HS), Hinst in Hone.
  destruct HS as [HS1 HS2]. rewrite HS1, Hplanned in Hone.
  unfold callFetch in Hone. rewrite Hfetch in Hone.
  cbn [mbind Outcome_bind] in Hone. rewrite Hgen in Hone.
  injection Hone as <- _.
  apply in_map_iff. exists (name, entry). split; [reflexivity|].
  apply filter_In. split; [exact Hentry|].
  unfold keepMigration. cbn [snd]. rewrite Hversion. cbn [default]. unfold id.
  rewrite (VersionFacts.truthy_nonempty version Hne).
  rewrite Normalize.gt_normalized in Hgt. injection Hgt as ->.
  rewrite Normalize.lte_normalized in Hlte. injection Hlte as ->.
  cbn [andb].
  rewrite (MigrateJson.areRequirementsMet_SamePlan options imports st
             (logFetch s1 packageName (pu_version planned)))
    by (split; cbn [logFetch packageJsonUpdates installedPkgVersionOverrides];
        assumption).
  apply areRequirementsMet_complete. exact Hreq.
Qed.

Lemma createMigrateJson_emits_every_applicable_migration_witness :
  In (mkMigration
        (mkMigrationsJsonEntry (Some "1.4") None None None None None) "a"
        "rename")
     (snd Sample.result).
Proof.
  apply (createMigrateJson_emits_every_applicable_migration Sample.workspace
           Sample.imports
           (mkState (fst Sample.result) [("a", "2.0.0"); ("b", "2.0.0")]
              [("a", "0.9.0"); ("b", "0.9.0")] [("b", "2.0.0"); ("a", "latest")])
           Sample.planned (snd Sample.result) "a" "0.9.0" "1.4" "rename"
           (mkUpdateForPackage "2.0.0" (Some AddFalse) None None)
           (mkConfiguration "2.0.0" (Some Sample.updatesOfA)
              (Some Sample.generatorsOfA) None
              (Some (GroupList [GroupName "b"])))
           Sample.generatorsOfA);
    try reflexivity.
  - right. left. reflexivity.
  - discriminate.
  - intros pkgName versionRange [].
Defined.

(** X10.  [createMigrateJson] asks [fetch] for the manifest of each planned
    package that has an installed version, once, at the version planned for
    it, and in the order of the plan; it asks for no package whose
    installed version is [null], and it changes neither the plan, nor the
    overrides, nor the collected versions. *)
Theorem createMigrateJson_fetches_the_installed_packages
    (options : MigratorOptions) (imports : Imports) (st st' : State)
    (migrations : list Migration) :
  createMigrateJson options imports st = Returned (migrations, st') ->
  packageJsonUpdates st' = packageJsonUpdates st
  /\ installedPkgVersionOverrides st' = installedPkgVersionOverrides st
  /\ collectedVersions st' = collectedVersions st
  /\ fetchLog st'
     = rev
         (omap
            (fun packageName =>
               match getPkgVersion options st packageName with
               | Some _ =>
                   Some (packageName,
                         default EmptyString
                           (pu_version
                            <$> Obj.get (packageJsonUpdates st) packageName))
               | None => None
               end)
            (Obj.keys (packageJsonUpdates st)))
       ++ fetchLog st.
Proof.
  unfold createMigrateJson. intros Hrun.
  destruct (JsList.mapM (migrationsOfPackage options imports)
              (Obj.keys (packageJsonUpdates st)) st)
    as [| e | [results st1]] eqn:Hmap; cbn [mbind Outcome_bind] in Hrun;
    try discriminate.
  injection Hrun as _ <-.
  exact (mapM_migrationsOfPackage_log options imports _ _ _ _ Hmap).
Qed.

Lemma createMigrateJson_fetches_the_installed_packages_witness :
  fetchLog Sample.planned
  = [("b", "2.0.0"); ("a", "2.0.0"); ("b", "2.0.0"); ("a", "latest")].
Proof.
  exact (proj2 (proj2 (proj2
           (createMigrateJson_fetches_the_installed_packages Sample.workspace
              Sample.imports
              (mkState (fst Sample.result) [("a", "2.0.0"); ("b", "2.0.0")]
                 [("a", "0.9.0"); ("b", "0.9.0")]
                 [("b", "2.0.0"); ("a", "latest")])
              Sample.planned (snd Sample.result) eq_refl)))).
Defined.

End MigrationListFacts.

(** ** The options of the command *)

Module CommandLineFacts.

Lemma cutLast_None sep s :
  Js.cutLast sep s = None <-> Js.includes sep s = false.
Proof.
  induction s as [|c s IH]; simpl; [tauto|].
  destruct (Js.cutLast sep s) as [[h t]|].
  - split; [discriminate|]. intros H. apply orb_false_iff in H.
    destruct H as [_ H]. apply IH in H. discriminate.
  - destruct (Ascii.eqb c sep); simpl.
    + split; discriminate.
    + split; [intros _; apply IH; reflexivity | reflexivity].
Qed.

(** [lastIndexOf] and the two [substring]s: the text before the last [sep]
    and the text after it, which has none. *)
Lemma cutLast_Some sep s h t :
  Js.cutLast sep s = Some (h, t) <->
  s = h +:+ String sep t /\ Js.includes sep t = false.
Proof.
  split.
  - revert h t. induction s as [|c s IH]; intros h t; simpl; [discriminate|].
    destruct (Js.cutLast sep s) as [[h' t']|] eqn:E.
    + intros [= <- <-]. destruct (IH h' t' eq_refl) as [-> Ht]. auto.
    + destruct (Ascii.eqb_spec c sep) as [->|]; [|discriminate].
      intros [= <- <-]. split; [reflexivity|]. apply cutLast_None, E.
  - intros [-> Ht]. induction h as [|c h IH]; simpl.
    + rewrite (proj2 (cutLast_None sep t) Ht), Ascii.eqb_refl. reflexivity.
    + rewrite IH. reflexivity.
Qed.

Lemma includes_last sep h t : Js.includes sep (h +:+ String sep t) = true.
Proof.
  rewrite VersionFacts.includes_append. simpl. rewrite Ascii.eqb_refl.
  apply orb_true_r.
Qed.

Lemma append_nonempty a b : a +:+ String b EmptyString <> EmptyString.
Proof. destruct a; discriminate. Qed.

Lemma eqb_empty s : s <> EmptyString -> String.eqb s EmptyString = false.
Proof. intros H. destruct (String.eqb_spec s EmptyString); tauto. Qed.

(** *** The target *)

(** X11.  [parseTargetPackageAndVersion] throws for the empty string and
    for a string that ends with its last ['@'] after some other character
    (a package with an empty version), and for nothing else; what it throws
    is the error that asks for the correct package name and version.  In
    particular the comparison it makes with [14.0.0-beta.0] never throws. *)
Theorem parseTargetPackageAndVersion_throws_for_no_version (args : string) :
  (parseTargetPackageAndVersion args = Threw provideCorrectPackage
   <-> args = EmptyString
       \/ exists package,
            package <> EmptyString /\ args = package +:+ "@")
  /\ (forall e, parseTargetPackageAndVersion args = Threw e ->
        e = provideCorrectPackage)
  /\ parseTargetPackageAndVersion args <> OutOfFuel.
Proof.
  unfold parseTargetPackageAndVersion.
  destruct (String.eqb_spec args EmptyString) as [->|Hne].
  { split; [split; auto|]. split; [intros e [= <-]; reflexivity | discriminate]. }
  destruct (Js.includes "@" args) eqn:Hat.
  - destruct (Js.cutLast "@" args) as [[h t]|] eqn:Hcut.
    2:{ apply cutLast_None in Hcut. congruence. }
    apply cutLast_Some in Hcut. destruct Hcut as [Hargs Ht].
    destruct h as [|c h].
    { split; [|split; [discriminate | discriminate]].
      split; [discriminate|].
      intros [H|(package & Hp & H)]; [contradiction|].
      exfalso. rewrite H in Hargs.
      assert (Hcut : Js.cutLast "@" (package +:+ "@") = Some (EmptyString, t)).
      { apply cutLast_Some. auto. }
      change (package +:+ "@") with (package +:+ String "@" EmptyString) in Hcut.
      rewrite (proj2 (cutLast_Some "@" _ package EmptyString)) in Hcut
        by auto.
      injection Hcut as Hpackage _. contradiction. }
    destruct (String.eqb_spec t EmptyString) as [->|Hversion].
    + split; [|split; [intros e [= <-]; reflexivity | discriminate]].
      split; [|reflexivity]. intros _. right.
      exists (String c h). split; [discriminate | exact Hargs].
    + split; [|split; [discriminate | discriminate]].
      split; [discriminate|].
      intros [H|(package & Hp & H)]; [contradiction|].
      exfalso. rewrite H in Hargs.
      assert (Hcut : Js.cutLast "@" (package +:+ "@") = Some (String c h, t)).
      { apply cutLast_Some. auto. }
      change (package +:+ "@") with (package +:+ String "@" EmptyString) in Hcut.
      rewrite (proj2 (cutLast_Some "@" _ package EmptyString)) in Hcut
        by auto.
      injection Hcut as _ Hempty. congruence.
  - assert (Hnot : ~ (args = EmptyString
                      \/ exists package,
                           package <> EmptyString /\ args = package +:+ "@")).
    { intros [H|(package & _ & H)]; [contradiction|].
      rewrite H in Hat.
      change (package +:+ "@") with (package +:+ String "@" EmptyString) in Hat.
      rewrite includes_last in Hat. discriminate. }
    destruct (isTag args || Semver.valid args || matchesNumericShorthand args).
    + destruct (isTag args) eqn:Htag; cbn [negb mbind Outcome_bind].
      * split; [split; [discriminate | tauto]|].
        split; discriminate.
      * unfold normalizeVersionWithTagCheck. unfold isTag in Htag.
        rewrite Htag. unfold semverCall.
        rewrite ParserFacts.lt_normalized_beta14. cbn [mbind Outcome_bind].
        split; [split; [discriminate | tauto]|].
        split; discriminate.
    + split; [split; [discriminate | tauto]|].
      split; discriminate.
Qed.

Lemma tagCheck_version version :
  normalizeVersionWithTagCheck version = "latest"
  \/ normalizeVersionWithTagCheck version = "next"
  \/ exists parsed,
       Semver.parse (normalizeVersionWithTagCheck version) = Some parsed.
Proof.
  unfold normalizeVersionWithTagCheck.
  destruct (String.eqb_spec version "latest") as [->|_]; [auto|].
  destruct (String.eqb_spec version "next") as [->|_]; [auto|].
  cbn [orb]. right. right.
  destruct (Normalize.normalizeVersion_parses version) as (x & Hx & _). eauto.
Qed.

Lemma trimStart_keeps c s :
  Js.isWhitespace c = false -> Js.trimStart (String c s) = String c s.
Proof. intros H. simpl. rewrite H. reflexivity. Qed.

Lemma trimEnd_nonempty c s :
  Js.isWhitespace c = false -> Js.trimEnd (String c s) <> EmptyString.
Proof.
  intros H. simpl. destruct (Js.trimEnd s); [rewrite H|]; discriminate.
Qed.

Lemma parse_returns_a_target args targetPackage targetVersion :
  parseTargetPackageAndVersion args = Returned (targetPackage, targetVersion) ->
  targetPackage <> EmptyString
  /\ (targetVersion = "latest" \/ targetVersion = "next"
      \/ exists parsed, Semver.parse targetVersion = Some parsed).
Proof.
  unfold parseTargetPackageAndVersion.
  destruct (String.eqb_spec args EmptyString) as [->|Hne]; [discriminate|].
  destruct (Js.includes "@" args) eqn:Hat.
  - destruct (Js.cutLast "@" args) as [[h t]|] eqn:Hcut; [|discriminate].
    apply cutLast_Some in Hcut. destruct Hcut as [Hargs Ht].
    destruct h as [|c h].
    + intros [= <- <-]. split; [|auto].
      rewrite Hargs. unfold Js.trim.
      change (EmptyString +:+ String "@" t) with (String "@"%char t).
      rewrite trimStart_keeps by reflexivity.
      apply trimEnd_nonempty. reflexivity.
    + destruct (String.eqb t EmptyString); [discriminate|].
      intros [= <- <-]. split; [discriminate | apply tagCheck_version].
  - destruct (isTag args || Semver.valid args || matchesNumericShorthand args).
    + destruct (isTag args) eqn:Htag; cbn [negb mbind Outcome_bind].
      * intros [= <- <-]. split; [discriminate | apply tagCheck_version].
      * unfold normalizeVersionWithTagCheck. unfold isTag in Htag.
        rewrite Htag. unfold semverCall.
        rewrite ParserFacts.lt_normalized_beta14. cbn [mbind Outcome_bind].
        intros [= <- <-].
        split; [destruct (Semver.isLt _); discriminate|].
        right. right.
        destruct (Normalize.normalizeVersion_parses args) as (x & Hx & _).
        eauto.
    + intros [= <- <-]. split; [exact Hne | auto].
Qed.

(** X12.  What [parseTargetPackageAndVersion] returns is a package name
    that is not empty and a version that is [latest], [next], or a string
    that the semver package parses. *)
Theorem parseTargetPackageAndVersion_returns_a_target
    (args targetPackage targetVersion : string) :
  parseTargetPackageAndVersion args = Returned (targetPackage, targetVersion) ->
  targetPackage <> EmptyString
  /\ (targetVersion = "latest" \/ targetVersion = "next"
      \/ exists parsed, Semver.parse targetVersion = Some parsed).
Proof.
  intros Hrun.
  exact (parse_returns_a_target args targetPackage targetVersion Hrun).
Qed.

Lemma parseTargetPackageAndVersion_returns_a_target_witness :
  exists parsed, Semver.parse "15.8.0" = Some parsed.
Proof.
  destruct (parseTargetPackageAndVersion_returns_a_target "@nx/workspace@15.8"
              "@nx/workspace" "15.8.0" eq_refl) as [_ [H|[H|H]]];
    [discriminate | discriminate | exact H].
Defined.



(** *** The overrides *)

Lemma normalizeSlashes_length s :
  String.length (normalizeSlashes s) = String.length s.
Proof. induction s as [|c s IH]; simpl; congruence. Qed.

Lemma normalizeSlashes_clean s : Js.includes "\" (normalizeSlashes s) = false.
Proof.
  induction s as [|c s IH]; simpl; [reflexivity|].
  rewrite IH, orb_false_r.
  destruct (Ascii.eqb_spec c "\"); [reflexivity|].
  destruct (Ascii.eqb_spec c "\"); [contradiction | reflexivity].
Qed.

Lemma normalizeSlashes_nonempty s :
  s <> EmptyString -> normalizeSlashes s <> EmptyString.
Proof. destruct s; [contradiction | discriminate]. Qed.

(** A piece [package@version] of an override list: the version has no
    ['@'], and neither is blank. *)
Definition WellFormed (p : string) : Prop :=
  exists package version,
    p = package +:+ "@" +:+ version
    /\ Js.includes "@" version = false
    /\ Js.trim package <> EmptyString
    /\ Js.trim version <> EmptyString.

Lemma trim_empty : Js.trim EmptyString = EmptyString.
Proof. reflexivity. Qed.

Lemma versionOverride_WellFormed param res p :
  (WellFormed p ->
   exists package version,
     p = package +:+ "@" +:+ version
     /\ Js.includes "@" version = false
     /\ versionOverride param res p
        = Returned
            (Obj.set res (normalizeSlashes (Js.trim package))
               (normalizeVersionWithTagCheck (Js.trim version))))
  /\ (~ WellFormed p ->
      versionOverride param res p = Threw (incorrectSection param))
  /\ (forall res', versionOverride param res p = Returned res' ->
        WellFormed p).
Proof.
  unfold versionOverride.
  destruct (Js.cutLast "@" p) as [[h t]|] eqn:Hcut.
  - apply cutLast_Some in Hcut. destruct Hcut as [Hp Ht].
    assert (Hunique : forall package version,
              p = package +:+ "@" +:+ version ->
              Js.includes "@" version = false ->
              package = h /\ version = t).
    { intros package version E Hv.
      assert (H1 : Js.cutLast "@" p = Some (package, version)).
      { apply cutLast_Some. auto. }
      assert (H2 : Js.cutLast "@" p = Some (h, t)).
      { apply cutLast_Some. auto. }
      rewrite H1 in H2. injection H2 as -> ->. auto. }
    destruct h as [|c h].
    + split; [|split; [reflexivity | discriminate]].
      intros (package & version & E & Hv & Hpackage & _).
      destruct (Hunique package version E Hv) as [-> _].
      contradiction Hpackage. reflexivity.
    + destruct (String.eqb_spec (Js.trim (String c h)) EmptyString)
        as [Eh|Eh]; cbn [orb].
      { split; [|split; [reflexivity | discriminate]].
        intros (package & version & E & Hv & Hpackage & _).
        destruct (Hunique package version E Hv) as [-> _]. contradiction. }
      destruct (String.eqb_spec (Js.trim t) EmptyString) as [Et|Et].
      { split; [|split; [reflexivity | discriminate]].
        intros (package & version & E & Hv & _ & Hversion).
        destruct (Hunique package version E Hv) as [_ ->]. contradiction. }
      assert (W : WellFormed p).
      { exists (String c h), t. auto. }
      split; [|split; [intros H; contradiction | auto]].
      intros _. exists (String c h), t. auto.
  - assert (Hnot : ~ WellFormed p).
    { intros (package & version & E & Hv & _).
      assert (H1 : Js.cutLast "@" p = Some (package, version)).
      { apply cutLast_Some. auto. }
      congruence. }
    split; [intros H; contradiction|]. split; [reflexivity | discriminate].
Qed.

Lemma WellFormed_dec p : WellFormed p \/ ~ WellFormed p.
Proof.
  destruct (versionOverride "from" [] p) as [| e | res] eqn:E.
  - exfalso. unfold versionOverride in E.
    destruct (Js.cutLast "@" p) as [[[|c h] t]|]; try discriminate.
    destruct (_ || _); discriminate.
  - right. intros W.
    destruct (proj1 (versionOverride_WellFormed "from" [] p) W)
      as (package & version & _ & _ & H). congruence.
  - left. exact (proj2 (proj2 (versionOverride_WellFormed "from" [] p)) res E).
Qed.

Lemma forEachOverride_errors param pieces : forall res,
  (Forall WellFormed pieces ->
   exists res', forEachOverride param pieces res = Returned res')
  /\ (~ Forall WellFormed pieces ->
      forEachOverride param pieces res = Threw (incorrectSection param)).
Proof.
  induction pieces as [|p pieces IH]; intros res; simpl.
  - split; [eauto|]. intros H. contradiction H. constructor.
  - destruct (versionOverride_WellFormed param res p) as (Hok & Hbad & _).
    destruct (WellFormed_dec p) as [W|W].
    + destruct (Hok W) as (package & version & _ & _ & ->).
      cbn [mbind Outcome_bind].
      split.
      * intros H. apply Forall_cons_iff in H. apply IH, H.
      * intros H. apply IH. intros Hrest. apply H. constructor; assumption.
    + rewrite (Hbad W). cbn [mbind Outcome_bind].
      split; [|reflexivity].
      intros H. apply Forall_cons_iff in H. tauto.
Qed.



(** The entries of the object that the pieces build. *)
Lemma forEachOverride_entries param pieces : forall res res' k v,
  forEachOverride param pieces res = Returned res' ->
  Obj.get res' k = Some v ->
  Obj.get res k = Some v
  \/ exists package version,
       In (package +:+ "@" +:+ version) pieces
       /\ Js.includes "@" version = false
       /\ Js.trim package <> EmptyString
       /\ Js.trim version <> EmptyString
       /\ k = normalizeSlashes (Js.trim package)
       /\ v = normalizeVersionWithTagCheck (Js.trim version).
Proof.
  induction pieces as [|p pieces IH]; intros res res' k v; simpl.
  - intros [= <-]. auto.
  - destruct (versionOverride param res p) as [| e | res1] eqn:E;
      cbn [mbind Outcome_bind]; try discriminate.
    intros Hrun Hget.
    destruct (IH res1 res' k v Hrun Hget)
      as [H1|(package & version & Hin & H)].
    + pose proof (proj2 (proj2 (versionOverride_WellFormed param res p)) res1 E)
        as W.
      destruct (proj1 (versionOverride_WellFormed param res p) W)
        as (package & version & Hp & Hv & Hres).
      rewrite Hres in E. injection E as <-.
      destruct (String.eqb_spec (normalizeSlashes (Js.trim package)) k)
        as [Hk|Hk].
      * subst k. rewrite ObjFacts.get_set_eq in H1. injection H1 as <-.
        right. exists package, version.
        destruct W as (package' & version' & Hp' & Hv' & Hpackage & Hversion).
        assert (Hsame : package' = package /\ version' = version).
        { assert (H1 : Js.cutLast "@" p = Some (package, version))
            by (apply cutLast_Some; auto).
          assert (H2 : Js.cutLast "@" p = Some (package', version'))
            by (apply cutLast_Some; auto).
          rewrite H1 in H2. injection H2 as -> ->. auto. }
        destruct Hsame as [-> ->].
        repeat split; auto.
      * rewrite ObjFacts.get_set_ne in H1 by exact Hk. auto.
    + right. exists package, version. tauto.
Qed.



(** *** The two modes *)

(** X16.  [parseMigrationsOptions] is in the mode that runs migrations
    exactly when the option [runMigrations] is given: it then returns the
    file named, [migrations.json] for the empty string, and does not look
    at the other options, however malformed.  Without that option, what it
    returns is the mode that generates migrations, for a target package
    that is not empty and has no backslash, a target version that is
    [latest], [next] or a string that the semver package parses, and the
    empty overrides for [from] or [to] not given. *)
Theorem parseMigrationsOptions_modes (options : CommandLine.RawOptions) :
  (forall file,
     CommandLine.runMigrations options = Some file ->
     CommandLine.parseMigrationsOptions options
     = Returned
         (CommandLine.RunMigrations
            (if String.eqb file EmptyString then "migrations.json"
             else file)))
  /\ (CommandLine.runMigrations options = None ->
      forall parsed,
        CommandLine.parseMigrationsOptions options = Returned parsed ->
        exists targetPackage targetVersion from to,
          parsed
          = CommandLine.GenerateMigrations targetPackage targetVersion from to
              (CommandLine.interactive options)
          /\ targetPackage <> EmptyString
          /\ Js.includes "\" targetPackage = false
          /\ (targetVersion = "latest" \/ targetVersion = "next"
              \/ exists version, Semver.parse targetVersion = Some version)
          /\ (CommandLine.from options = None -> from = [])
          /\ (CommandLine.to options = None -> to = [])).
Proof.
  unfold CommandLine.parseMigrationsOptions. split.
  - intros file ->. destruct file as [|c file]; reflexivity.
  - intros -> parsed. cbn [Js.truthy negb].
    destruct (if Js.truthy (CommandLine.from options)
              then versionOverrides
                     (default EmptyString (CommandLine.from options)) "from"
              else Returned []) as [| e | from] eqn:Hfrom;
      cbn [mbind Outcome_bind]; try discriminate.
    destruct (if Js.truthy (CommandLine.to options)
              then versionOverrides
                     (default EmptyString (CommandLine.to options)) "to"
              else Returned []) as [| e | to] eqn:Hto;
      cbn [mbind Outcome_bind]; try discriminate.
    destruct (parseTargetPackageAndVersion
                (default EmptyString (CommandLine.packageAndVersion options)))
      as [| e | [targetPackage targetVersion]] eqn:Htarget;
      cbn [mbind Outcome_bind]; try discriminate.
    intros [= <-].
    apply parse_returns_a_target in Htarget.
    destruct Htarget as [Hpackage Hversion].
    exists (normalizeSlashes targetPackage), targetVersion, from, to.
    split; [reflexivity|].
    split; [apply normalizeSlashes_nonempty, Hpackage|].
    split; [apply normalizeSlashes_clean|].
    split; [exact Hversion|].
    split.
    + intros E. rewrite E in Hfrom. injection Hfrom as <-. reflexivity.
    + intros E. rewrite E in Hto. injection Hto as <-. reflexivity.
Qed.

Lemma parseMigrationsOptions_modes_witness :
  CommandLine.parseMigrationsOptions
    (CommandLine.mkRawOptions (Some "") (Some "@") None None None)
  = Returned (CommandLine.RunMigrations "migrations.json")
  /\ CommandLine.parseMigrationsOptions
       (CommandLine.mkRawOptions None None (Some "nx@15.0.0") (Some "16")
          (Some true))
     = Returned
         (CommandLine.GenerateMigrations "nx" "16.0.0" [] [("nx", "15.0.0")]
            (Some true)).
Proof.
  split.
  - exact (proj1 (parseMigrationsOptions_modes
                    (CommandLine.mkRawOptions (Some "") (Some "@") None None
                       None)) "" eq_refl).
  - destruct (proj2 (parseMigrationsOptions_modes
                       (CommandLine.mkRawOptions None None (Some "nx@15.0.0")
                          (Some "16") (Some true))) eq_refl _ eq_refl)
      as (targetPackage & targetVersion & from & to & H & _).
    reflexivity.
Defined.

End CommandLineFacts.

(** ** The versions installed in the workspace *)

Module InstalledVersionsFacts.
Import InstalledVersions.

Section Facts.

Variable readModulePackageJson : string -> Exception + string.

(** What the cache holds for a package, if it counts (it is not the empty
    string), is what reading the package gives. *)
Definition Sound (cache : Obj.t string) : Prop :=
  forall p v,
    Obj.get cache p = Some v -> v <> EmptyString ->
    readModulePackageJson p = inr v.

Lemma Sound_empty : Sound [].
Proof. intros p v. discriminate. Qed.

Lemma Sound_set cache p v :
  Sound cache -> readModulePackageJson p = inr v -> Sound (Obj.set cache p v).
Proof.
  intros S Hread q w. destruct (String.eqb_spec p q) as [<-|Hne].
  - rewrite ObjFacts.get_set_eq. intros [= <-] _. exact Hread.
  - rewrite ObjFacts.get_set_ne by exact Hne. apply S.
Qed.

Lemma lookupVersion_Sound cache packageName overrides :
  Sound cache ->
  fst (lookupVersion readModulePackageJson cache packageName overrides)
  = fst (lookupVersion readModulePackageJson [] packageName overrides)
  /\ Sound (snd (lookupVersion readModulePackageJson cache packageName
                   overrides))
  /\ (fst (lookupVersion readModulePackageJson cache packageName overrides)
      = None ->
      snd (lookupVersion readModulePackageJson cache packageName overrides)
      = cache).
Proof.
  intros S. unfold lookupVersion.
  destruct (Js.truthy (Obj.get overrides packageName)); [auto|].
  cbn [Obj.get Js.truthy negb].
  destruct (Js.truthy (Obj.get cache packageName)) eqn:Hcached; cbn [negb].
  - apply MigrateJson.truthy_Some in Hcached.
    destruct Hcached as (v & Hv & Hne).
    rewrite (S packageName v Hv Hne), Hv. cbn [fst snd].
    split; [reflexivity|]. split; [exact S | discriminate].
  - destruct (readModulePackageJson packageName) as [e|version] eqn:Hread;
      cbn [fst snd]; [auto|].
    split; [reflexivity|].
    split; [apply Sound_set; assumption | discriminate].
Qed.

Lemma getInstalledPackageVersion_Sound cache packageName overrides :
  Sound cache ->
  fst (getInstalledPackageVersion readModulePackageJson cache packageName
         overrides)
  = fst (getInstalledPackageVersion readModulePackageJson [] packageName
           overrides)
  /\ Sound (snd (getInstalledPackageVersion readModulePackageJson cache
                   packageName overrides)).
Proof.
  intros S. unfold getInstalledPackageVersion.
  destruct (lookupVersion_Sound cache packageName overrides S)
    as (Hsame & S1 & Hcache).
  destruct (lookupVersion_Sound [] packageName overrides Sound_empty)
    as (_ & _ & Hempty).
  destruct (lookupVersion readModulePackageJson cache packageName overrides)
    as [[version|] cache1];
    destruct (lookupVersion readModulePackageJson [] packageName overrides)
    as [[version'|] cache1']; cbn [fst snd] in *; try discriminate.
  - auto.
  - destruct (String.eqb packageName "nx"); [|auto].
    rewrite (Hempty eq_refl).
    destruct (lookupVersion_Sound cache1 "@nrwl/workspace" overrides S1)
      as (H & S2 & _).
    auto.
Qed.

Lemma resolveAll_Sound calls : forall cache,
  Sound cache ->
  resolveAll readModulePackageJson cache calls
  = map
      (fun call =>
         fst (getInstalledPackageVersion readModulePackageJson []
                (fst call) (snd call)))
      calls.
Proof.
  induction calls as [|[packageName overrides] calls IH]; intros cache S;
    simpl; [reflexivity|].
  destruct (getInstalledPackageVersion_Sound cache packageName overrides S)
    as [Hsame S1].
  destruct (getInstalledPackageVersion readModulePackageJson cache packageName
              overrides) as [version cache1]; cbn [fst snd] in *.
  rewrite Hsame, (IH cache1 S1). reflexivity.
Qed.

End Facts.

(** X17.  The cache of the resolver of installed versions never changes an
    answer: as long as reading the manifest of a package gives the same
    result each time, the calls made one after the other on one resolver
    return what each of them would return on a new resolver with an empty
    cache.  The installed version of a package is a function of the package
    and the overrides. *)
Theorem installed_versions_cache_is_transparent
    (readModulePackageJson : string -> Exception + string)
    (calls : list (string * Obj.t string)) :
  resolveAll readModulePackageJson [] calls
  = map
      (fun call =>
         fst (getInstalledPackageVersion readModulePackageJson []
                (fst call) (snd call)))
      calls.
Proof.
  apply resolveAll_Sound, Sound_empty.
Qed.


(** A workspace in which only [@nrwl/workspace] can be read, at 13.10.0. *)
Definition legacyWorkspace (packageName : string) : Exception + string :=
  if String.eqb packageName "@nrwl/workspace" then inr "13.10.0"
  else inl (Error "MODULE_NOT_FOUND").


End InstalledVersionsFacts.

(** ** The caches of the fetcher *)

Module FetcherCacheFacts.
Import Fetcher.

Section Facts.

Variable resolvePackageVersionUsingRegistry :
  string -> string -> Settled string.
Variable registryMigrationsConfig :
  string -> string -> Settled (option NxMigrationsConfiguration).
Variable packageRegistryPack : string -> string -> Settled string.
Variable readMigrationsFromTarball : string -> string -> Settled MigrationsJson.
Variable installPackage : string -> string -> Settled unit.
Variable readPackageMigrationConfig :
  string -> Settled (option string * option PackageGroup * string).
Variable readJsonFile : string -> Settled MigrationsJson.

(** The function that [createFetcher] returns, over the registry and the
    package manager above. *)
Definition fetch (caches : Caches) (packageName packageVersion : string)
  : Settled ResolvedMigrationConfiguration * Caches :=
  nxMigrateFetcher resolvePackageVersionUsingRegistry registryMigrationsConfig
    packageRegistryPack readMigrationsFromTarball installPackage
    readPackageMigrationConfig readJsonFile caches packageName packageVersion.

(** Requests made one after the other to the same fetcher: what each
    settles to, and the caches in the end. *)
Fixpoint fetchAll (caches : Caches) (requests : list (string * string))
  : list (Settled ResolvedMigrationConfiguration) * Caches :=
  match requests with
  | [] => ([], caches)
  | (packageName, packageVersion) :: rest =>
      let '(result, caches) := fetch caches packageName packageVersion in
      let '(results, caches) := fetchAll caches rest in
      (result :: results, caches)
  end.

(** A cache of manifests that has all the entries of another. *)
Definition Keeps (caches caches' : Caches) : Prop :=
  forall key cached,
    Obj.get (migrationsCache caches) key = Some cached ->
    Obj.get (migrationsCache caches') key = Some cached.

(** No manifest in the cache has [schematics]. *)
Definition Renamed (caches : Caches) : Prop :=
  forall key config,
    Obj.get (migrationsCache caches) key = Some (inr config) ->
    c_schematics config = None.

Lemma renameSchematics_schematics config :
  c_schematics (renameSchematics config) = None.
Proof.
  unfold renameSchematics.
  destruct (c_schematics config) eqn:E; [reflexivity | exact E].
Qed.

Lemma renameSchematics_Renamed config :
  c_schematics config = None -> renameSchematics config = config.
Proof. unfold renameSchematics. intros ->. reflexivity. Qed.

(** What a request that is not answered by the cache does: it settles to
    [migrations], which it stores under its own key and under the keys
    [written], none of which had an entry. *)
Lemma fetch_miss caches packageName packageVersion :
  Obj.get (migrationsCache caches) (cacheKey packageName packageVersion)
  = None ->
  exists migrations versions resolvedKey,
    fetch caches packageName packageVersion
    = (migrations,
       mkCaches
         (match resolvedKey with
          | Some resolvedVersion =>
              Obj.set
                (Obj.set (migrationsCache caches)
                   (cacheKey packageName packageVersion) migrations)
                (cacheKey packageName resolvedVersion) migrations
          | None =>
              Obj.set (migrationsCache caches)
                (cacheKey packageName packageVersion) migrations
          end)
         versions)
    /\ (forall config, migrations = inr config -> c_schematics config = None)
    /\ (forall resolvedVersion,
          resolvedKey = Some resolvedVersion ->
          resolvedVersion = packageVersion
          \/ Obj.get (migrationsCache caches)
               (cacheKey packageName resolvedVersion) = None).
Proof.
  intros Hmiss. unfold fetch, nxMigrateFetcher. rewrite Hmiss.
  destruct (fetchMigrations _ _ _ _ _ _ _ caches packageName packageVersion)
    as [[result versions] resolvedKey] eqn:E.
  exists (match result with
          | inl e => inl e
          | inr config => inr (renameSchematics config)
          end), versions, resolvedKey.
  split; [destruct resolvedKey; reflexivity|].
  split.
  { intros config. destruct result as [e|c]; [discriminate|].
    intros [= <-]. apply renameSchematics_schematics. }
  intros resolvedVersion ->.
  unfold fetchMigrations in E.
  destruct (registryPath _ _ _ _ caches packageName packageVersion)
    as [[r vs] key] eqn:Ereg.
  assert (Hkey : key = Some resolvedVersion).
  { destruct r; injection E as _ _ <-; reflexivity. }
  subst key. clear E.
  unfold registryPath in Ereg.
  destruct (match Obj.get (resolvedVersionCache caches)
                    (cacheKey packageName packageVersion) with
            | Some (inl e) => _
            | Some (inr cachedResolvedVersion) => _
            | None => _
            end) as [[e|resolved] vs'];
    [discriminate|].
  destruct (Obj.get (migrationsCache caches) (cacheKey packageName resolved))
    as [cached|] eqn:Ecached.
  - destruct (String.eqb_spec resolved packageVersion) as [->|Hne];
      cbn [negb] in Ereg; [|discriminate].
    injection Ereg as _ _ <-. auto.
  - injection Ereg as _ _ <-. auto.
Qed.

Lemma fetch_hit caches packageName packageVersion cached :
  Obj.get (migrationsCache caches) (cacheKey packageName packageVersion)
  = Some cached ->
  fetch caches packageName packageVersion = (cached, caches).
Proof. intros H. unfold fetch, nxMigrateFetcher. rewrite H. reflexivity. Qed.

Lemma set_keeps {V} (o : Obj.t V) k v key cached :
  Obj.get o k = None ->
  Obj.get o key = Some cached -> Obj.get (Obj.set o k v) key = Some cached.
Proof.
  intros Hk Hkey. rewrite ObjFacts.get_set_ne; [exact Hkey|].
  intros ->. congruence.
Qed.

(** A request leaves the entries of the cache as they are, and leaves an
    entry for itself: what it settles to. *)
Lemma fetch_Keeps caches packageName packageVersion :
  Keeps caches (snd (fetch caches packageName packageVersion))
  /\ Obj.get (migrationsCache (snd (fetch caches packageName packageVersion)))
       (cacheKey packageName packageVersion)
     = Some (fst (fetch caches packageName packageVersion))
  /\ (Renamed caches ->
      Renamed (snd (fetch caches packageName packageVersion))
      /\ forall config,
           fst (fetch caches packageName packageVersion) = inr config ->
           c_schematics config = None).
Proof.
  destruct (Obj.get (migrationsCache caches)
              (cacheKey packageName packageVersion)) as [cached|] eqn:Hcache.
  - rewrite (fetch_hit _ _ _ _ Hcache). cbn [fst snd].
    split; [intros key c H; exact H|]. split; [exact Hcache|].
    intros R. split; [exact R|]. intros config ->. exact (R _ _ Hcache).
  - destruct (fetch_miss caches packageName packageVersion Hcache)
      as (migrations & versions & resolvedKey & -> & Hclean & Hfresh).
    unfold Keeps, Renamed. cbn [fst snd migrationsCache].
    destruct resolvedKey as [resolvedVersion|].
    + destruct (Hfresh resolvedVersion eq_refl) as [->|Hnone].
      * split.
        { intros key c H.
          rewrite ObjFacts.get_set_ne by (intros <-; congruence).
          apply set_keeps; assumption. }
        split; [apply ObjFacts.get_set_eq|].
        intros R. split; [|exact Hclean].
        intros key config.
        destruct (String.eqb_spec (cacheKey packageName packageVersion) key)
          as [<-|Hne].
        -- rewrite ObjFacts.get_set_eq. intros [= H]. exact (Hclean _ H).
        -- rewrite !ObjFacts.get_set_ne by exact Hne. apply R.
      * split.
        { intros key c H.
          destruct (String.eqb_spec (cacheKey packageName resolvedVersion) key)
            as [<-|Hne]; [congruence|].
          rewrite ObjFacts.get_set_ne by exact Hne.
          apply set_keeps; assumption. }
        split.
        { destruct (String.eqb_spec (cacheKey packageName resolvedVersion)
                      (cacheKey packageName packageVersion)) as [->|Hne].
          - apply ObjFacts.get_set_eq.
          - rewrite ObjFacts.get_set_ne by exact Hne.
            apply ObjFacts.get_set_eq. }
        intros R. split; [|exact Hclean].
        intros key config.
        destruct (String.eqb_spec (cacheKey packageName resolvedVersion) key)
          as [<-|Hne].
        -- rewrite ObjFacts.get_set_eq. intros [= H]. exact (Hclean _ H).
        -- rewrite ObjFacts.get_set_ne by exact Hne.
           destruct (String.eqb_spec (cacheKey packageName packageVersion) key)
             as [<-|Hne'].
           ++ rewrite ObjFacts.get_set_eq. intros [= H]. exact (Hclean _ H).
           ++ rewrite ObjFacts.get_set_ne by exact Hne'. apply R.
    + split; [intros key c H; apply set_keeps; assumption|].
      split; [apply ObjFacts.get_set_eq|].
      intros R. split; [|exact Hclean].
      intros key config.
      destruct (String.eqb_spec (cacheKey packageName packageVersion) key)
        as [<-|Hne].
      * rewrite ObjFacts.get_set_eq. intros [= H]. exact (Hclean _ H).
      * rewrite ObjFacts.get_set_ne by exact Hne. apply R.
Qed.

Lemma fetchAll_Keeps requests : forall caches,
  Keeps caches (snd (fetchAll caches requests))
  /\ (Renamed caches ->
      Renamed (snd (fetchAll caches requests))
      /\ forall config,
           In (inr config) (fst (fetchAll caches requests)) ->
           c_schematics config = None).
Proof.
  induction requests as [|[packageName packageVersion] requests IH];
    intros caches; cbn [fetchAll].
  - cbn [fst snd]. split; [intros key c H; exact H|].
    intros R. split; [exact R | intros config []].
  - destruct (fetch_Keeps caches packageName packageVersion)
      as (K1 & _ & R1).
    destruct (fetch caches packageName packageVersion) as [result caches1].
    cbn [fst snd] in K1, R1.
    destruct (IH caches1) as [K2 R2].
    destruct (fetchAll caches1 requests) as [results caches2].
    cbn [fst snd] in *.
    split; [intros key c H; apply K2, K1, H|].
    intros R. destruct (R1 R) as [R1' Hresult]. destruct (R2 R1') as [R2' Hrest].
    split; [exact R2'|].
    intros config [->|Hin]; [apply Hresult; reflexivity | apply Hrest, Hin].
Qed.

(** X19.  The fetcher answers a request that it has answered before from
    its cache: whatever other requests were made in between, the same
    package at the same version settles to the same result as the first
    time, and the caches are left as they are.  An entry of the cache of
    manifests is written once and never replaced. *)
Theorem fetcher_answers_again_from_the_cache
    (caches : Caches) (packageName packageVersion : string)
    (between : list (string * string)) :
  fetch
    (snd (fetchAll (snd (fetch caches packageName packageVersion)) between))
    packageName packageVersion
  = (fst (fetch caches packageName packageVersion),
     snd (fetchAll (snd (fetch caches packageName packageVersion)) between)).
Proof.
  apply fetch_hit.
  apply (proj1 (fetchAll_Keeps between _)).
  apply (fetch_Keeps caches packageName packageVersion).
Qed.

(** X20.  No manifest that the fetcher settles to has [schematics]: from a
    new fetcher, whatever the requests and whether they are answered by
    the registry, by the temporary install or by the cache, a manifest
    that is returned has had its [schematics] moved to [generators]. *)
Theorem fetcher_never_returns_schematics
    (requests : list (string * string))
    (config : ResolvedMigrationConfiguration) :
  In (inr config) (fst (fetchAll (mkCaches [] []) requests)) ->
  c_schematics config = None.
Proof.
  apply (proj2 (fetchAll_Keeps requests (mkCaches [] []))).
  intros key c. discriminate.
Qed.

(** X21.  A request that the registry resolves to another version fills the
    cache for that version too: when nothing is cached for the request nor
    for the version that the registry resolves it to, the same package at
    the resolved version is answered next from the cache, with what the
    request settled to; the registry is asked once for the two. *)
Theorem fetcher_caches_the_resolved_version
    (caches : Caches) (packageName packageVersion resolvedVersion : string) :
  Obj.get (migrationsCache caches) (cacheKey packageName packageVersion)
  = None ->
  Obj.get (resolvedVersionCache caches) (cacheKey packageName packageVersion)
  = None ->
  resolvePackageVersionUsingRegistry packageName packageVersion
  = inr resolvedVersion ->
  Obj.get (migrationsCache caches) (cacheKey packageName resolvedVersion)
  = None ->
  fetch (snd (fetch caches packageName packageVersion)) packageName
    resolvedVersion
  = fetch caches packageName packageVersion.
Proof.
  intros Hmiss Hversion Hresolve Hnone.
  assert (Hentry :
    Obj.get
      (migrationsCache (snd (fetch caches packageName packageVersion)))
      (cacheKey packageName resolvedVersion)
    = Some (fst (fetch caches packageName packageVersion))).
  { unfold fetch, nxMigrateFetcher. rewrite Hmiss.
    unfold fetchMigrations, registryPath. rewrite Hversion, Hresolve, Hnone.
    destruct (getPackageMigrationsUsingRegistry _ _ _ packageName
                resolvedVersion) as [e|config];
      [destruct (getPackageMigrationsUsingInstall _ _ _ packageName
                   packageVersion)|];
      cbn [fst snd migrationsCache]; apply ObjFacts.get_set_eq. }
  rewrite (fetch_hit _ _ _ _ Hentry).
  destruct (fetch caches packageName packageVersion); reflexivity.
Qed.

End Facts.

(** A registry that resolves [latest] to 2.0.0 and has, for every package, a
    migrations file with one entry under [schematics]. *)
Definition oneSchematic : Obj.t MigrationsJsonEntry :=
  [("rename", mkMigrationsJsonEntry (Some "2.0.0") None None None None None)].

Definition sampleFetch (caches : Caches) (packageName packageVersion : string)
  : Settled ResolvedMigrationConfiguration * Caches :=
  fetch
    (fun _ version =>
       inr (if String.eqb version "latest" then "2.0.0" else version))
    (fun _ _ =>
       inr (Some (mkNxMigrationsConfiguration (Some "migrations.json") None)))
    (fun _ _ => inr "package.tgz")
    (fun _ _ => inr (mkMigrationsJson None None (Some oneSchematic)))
    (fun _ _ => inr tt)
    (fun _ => inr (None, None, "2.0.0"))
    (fun _ => inl (Error "ENOENT"))
    caches packageName packageVersion.

Definition fetchedLatest : ResolvedMigrationConfiguration :=
  mkConfiguration "2.0.0" None (Some oneSchematic) None None.

Lemma fetcher_never_returns_schematics_witness :
  fst (sampleFetch (mkCaches [] []) "pkg" "latest") = inr fetchedLatest
  /\ c_schematics fetchedLatest = None.
Proof.
  split; [reflexivity|].
  apply (fetcher_never_returns_schematics
           (fun _ version =>
              inr (if String.eqb version "latest" then "2.0.0" else version))
           (fun _ _ =>
              inr (Some (mkNxMigrationsConfiguration (Some "migrations.json")
                           None)))
           (fun _ _ => inr "package.tgz")
           (fun _ _ => inr (mkMigrationsJson None None (Some oneSchematic)))
           (fun _ _ => inr tt)
           (fun _ => inr (None, None, "2.0.0"))
           (fun _ => inl (Error "ENOENT"))
           [("pkg", "latest")]).
  left. reflexivity.
Defined.

Lemma fetcher_caches_the_resolved_version_witness :
  sampleFetch (snd (sampleFetch (mkCaches [] []) "pkg" "latest")) "pkg" "2.0.0"
  = sampleFetch (mkCaches [] []) "pkg" "latest".
Proof.
  exact (fetcher_caches_the_resolved_version
           (fun _ version =>
              inr (if String.eqb version "latest" then "2.0.0" else version))
           (fun _ _ =>
              inr (Some (mkNxMigrationsConfiguration (Some "migrations.json")
                           None)))
           (fun _ _ => inr "package.tgz")
           (fun _ _ => inr (mkMigrationsJson None None (Some oneSchematic)))
           (fun _ _ => inr tt)
           (fun _ => inr (None, None, "2.0.0"))
           (fun _ => inl (Error "ENOENT"))
           (mkCaches [] []) "pkg" "latest" "2.0.0"
           eq_refl eq_refl eq_refl eq_refl).
Defined.

End FetcherCacheFacts.

(** ** Writing the plan twice *)

Module ManifestFacts.

Lemma setSection_same section p v :
  sectionLookup section p = Some v -> setSection section p v = section.
Proof.
  destruct section as [m|]; simpl; [|discriminate].
  intros H. unfold setSection. cbn [default]. unfold id.
  rewrite (insert_id m p v H). reflexivity.
Qed.

Lemma truthy_version v : v <> EmptyString -> Js.truthy (Some v) = true.
Proof. apply VersionFacts.truthy_nonempty. Qed.

(** Once the plan is written, writing the entry of a planned package again
    changes nothing. *)
Lemma updateManifestEntry_written plan json json1 p u :
  Obj.get plan p = Some u ->
  pu_version u <> EmptyString ->
  Manifest.Effect u (Manifest.entriesOf json p) (Manifest.entriesOf json1 p) ->
  updateManifestEntry plan json1 p = Returned json1.
Proof.
  intros Hu Hne Heffect. unfold updateManifestEntry. rewrite Hu.
  unfold Manifest.Effect, Manifest.entriesOf in Heffect. cbn [fst snd] in Heffect.
  destruct json1 as [deps1 dev1]. cbn [dependencies devDependencies] in *.
  destruct (Js.truthy (sectionLookup (devDependencies json) p)) eqn:Hdev.
  { injection Heffect as Hd1 _. rewrite Hd1, (truthy_version _ Hne).
    rewrite (setSection_same _ _ _ Hd1). reflexivity. }
  destruct (Js.truthy (sectionLookup (dependencies json) p)) eqn:Hdeps.
  { injection Heffect as Hd1 Hp1. rewrite Hd1, Hdev, Hp1, (truthy_version _ Hne).
    rewrite (setSection_same _ _ _ Hp1). reflexivity. }
  destruct (pu_addToPackageJson u) as [[|[|]]|]; injection Heffect as Hd1 Hp1.
  - rewrite Hd1, Hdev, Hp1, Hdeps. reflexivity.
  - rewrite Hd1, Hdev, Hp1, (truthy_version _ Hne).
    rewrite (setSection_same _ _ _ Hp1). reflexivity.
  - rewrite Hd1, (truthy_version _ Hne).
    rewrite (setSection_same _ _ _ Hd1). reflexivity.
  - rewrite Hd1, Hdev, Hp1, Hdeps. reflexivity.
Qed.

Lemma forEachKey_written plan json1 keys :
  (forall p, In p keys -> updateManifestEntry plan json1 p = Returned json1) ->
  forEachKey plan keys json1 = Returned json1.
Proof.
  induction keys as [|p keys IH]; intros H; simpl; [reflexivity|].
  rewrite (H p (or_introl eq_refl)). cbn [mbind Outcome_bind].
  apply IH. intros q Hq. apply H. right. exact Hq.
Qed.

(** X22.  Writing a plan into the root manifest is idempotent: for a plan
    in which every version is a non-empty string, the manifest that
    [updatePackageJson] wrote is left as it is when the same plan is
    written into it again. *)
Theorem updatePackageJson_is_idempotent
    (json json1 : PackageJson) (plan : Obj.t PackageJsonUpdateForPackage) :
  List.NoDup (Obj.keys plan) ->
  (forall p u, Obj.get plan p = Some u -> pu_version u <> EmptyString) ->
  updatePackageJson json plan = Returned json1 ->
  updatePackageJson json1 plan = Returned json1.
Proof.
  intros Hnd Hversions Hrun.
  destruct (Manifest.updatePackageJson_effect json plan Hnd)
    as (json' & Hrun' & Heffect & _).
  rewrite Hrun in Hrun'. injection Hrun' as <-.
  unfold updatePackageJson. apply forEachKey_written.
  intros p Hp. destruct (ObjFacts.get_keys plan p Hp) as (u & Hu).
  eapply updateManifestEntry_written; eauto.
Qed.

Lemma updatePackageJson_is_idempotent_witness :
  updatePackageJson
    (mkPackageJson (Some {[ "a" := "2.0.0"; "b" := "2.0.0" ]})
       (Some {[ "c" := "3.0.0" ]}))
    (fst Sample.result)
  = Returned
      (mkPackageJson (Some {[ "a" := "2.0.0"; "b" := "2.0.0" ]})
         (Some {[ "c" := "3.0.0" ]})).
Proof.
  assert (E : fst Sample.result
              = [ ("a", mkUpdateForPackage "2.0.0" (Some AddFalse) None None);
                  ("b", mkUpdateForPackage "2.0.0" (Some AddFalse) None None);
                  ("c",
                   mkUpdateForPackage "3.0.0" (Some (AddTo DevDependencies))
                     None None) ])
    by (vm_compute; reflexivity).
  rewrite E.
  apply (updatePackageJson_is_idempotent
           (mkPackageJson (Some {[ "a" := "1.0.0"; "b" := "1.0.0" ]}) None)).
  - repeat constructor; simpl; intuition discriminate.
  - intros p u. cbn [Obj.get].
    repeat (destruct (String.eqb _ p); [intros [= <-]; simpl; discriminate|]).
    discriminate.
  - vm_compute. reflexivity.
Defined.

End ManifestFacts.

(** ** The migration that splits the configuration *)

Module SplitConfigurationFacts.

Lemma lt_parses a b :
  Semver.lt a b = None <-> Semver.parse a = None \/ Semver.parse b = None.
Proof.
  unfold Semver.lt, Semver.compare.
  destruct (Semver.parse a), (Semver.parse b); simpl;
    split; try discriminate; auto; intros [H|H]; discriminate.
Qed.

(** X23.  [addSplitConfigurationMigrationIfAvailable] compares the version
    found in the root manifest as it is written there.  When the plan
    moves [@nrwl/workspace] to 15.7.0 or above, it returns the migration
    that splits the configuration for a version below 15.7.0 and no
    migration for another version, and it throws the error of the semver
    package when no version was found in the manifest or when what was
    found does not parse as a version, as a range such as [^15.0.0] does
    not.  It returns no migration when [@nrwl/workspace] is not planned. *)
Theorem addSplitConfigurationMigration_reads_the_manifest_version
    (packageJson : PackageJson) (plan : Obj.t PackageJsonUpdateForPackage) :
  (Obj.get plan "@nrwl/workspace" = None ->
   addSplitConfigurationMigrationIfAvailable (readNxVersion packageJson) plan
   = Returned [])
  /\ (forall planned,
        Obj.get plan "@nrwl/workspace" = Some planned ->
        Semver.gte (pu_version planned) "15.7.0" = Some true ->
        (forall from,
           readNxVersion packageJson = Some from ->
           (Semver.lt from "15.7.0" = Some true ->
            addSplitConfigurationMigrationIfAvailable (Some from) plan
            = Returned [splitConfigurationMigration])
           /\ (Semver.lt from "15.7.0" = Some false ->
               addSplitConfigurationMigrationIfAvailable (Some from) plan
               = Returned [])
           /\ (Semver.parse from = None ->
               addSplitConfigurationMigrationIfAvailable (Some from) plan
               = Threw (SemverTypeError from "15.7.0")))
        /\ (readNxVersion packageJson = None ->
            addSplitConfigurationMigrationIfAvailable None plan
            = Threw (SemverTypeError "undefined" "15.7.0"))).
Proof.
  split.
  - intros H. unfold addSplitConfigurationMigrationIfAvailable. rewrite H.
    reflexivity.
  - intros planned Hplanned Hreached.
    assert (Hrun : forall from,
              addSplitConfigurationMigrationIfAvailable from plan
              = (below ← semverCall Semver.lt (default "undefined" from)
                           "15.7.0";
                 if below : bool then Returned [splitConfigurationMigration]
                 else Returned [])).
    { intros from. unfold addSplitConfigurationMigrationIfAvailable.
      rewrite Hplanned. unfold semverCall. rewrite Hreached.
      reflexivity. }
    split.
    + intros from _. rewrite Hrun. cbn [default]. unfold id, semverCall.
      split; [|split].
      * intros ->. reflexivity.
      * intros ->. reflexivity.
      * intros H.
        rewrite (proj2 (lt_parses from "15.7.0") (or_introl H)). reflexivity.
    + intros _. rewrite Hrun. reflexivity.
Qed.

Lemma addSplitConfigurationMigration_reads_the_manifest_version_witness :
  addSplitConfigurationMigrationIfAvailable
    (readNxVersion (mkPackageJson None (Some {[ "nx" := "^15.0.0" ]})))
    [("@nrwl/workspace", mkUpdateForPackage "15.8.0" (Some AddFalse) None None)]
  = Threw (SemverTypeError "^15.0.0" "15.7.0").
Proof.
  exact (proj2 (proj2
           (proj1
              (proj2
                 (addSplitConfigurationMigration_reads_the_manifest_version
                    (mkPackageJson None (Some {[ "nx" := "^15.0.0" ]}))
                    [("@nrwl/workspace",
                      mkUpdateForPackage "15.8.0" (Some AddFalse) None None)])
                 _ eq_refl eq_refl)
              "^15.0.0" eq_refl))
           eq_refl).
Defined.

End SplitConfigurationFacts.

(** ** Running the migrations *)

Module RunnerFacts.
Import Runner.

Section Facts.

Variable World : Type.
Variable getStringifiedPackageJsonDeps : World -> Exception + string.
Variable loadNgCliAdapter : World -> Exception + unit.
Variable runNxMigration :
  string -> string -> World -> (Exception + nat) * World.
Variable runNgMigration :
  string -> string -> bool -> World -> (Exception + bool) * World.
Variable runInstall : World -> (Exception + unit) * World.
Variable isVerbose : bool.
Variable shouldCreateCommits : bool.
Variable commitPrefix : string.

Section Commits.

Variable commitChanges :
  string -> World -> (Exception + option string) * World.

Lemma runEach_sublist migrations : forall w unchanged w',
  runEach World runNxMigration runNgMigration commitChanges isVerbose
    shouldCreateCommits commitPrefix migrations w = (inr unchanged, w') ->
  unchanged `sublist_of` migrations.
Proof.
  induction migrations as [|m rest IH]; intros w unchanged w'; simpl.
  - intros [= <- _]. constructor.
  - destruct (runOne World runNxMigration runNgMigration commitChanges
                isVerbose shouldCreateCommits commitPrefix m w)
      as [[e|madeChanges] w1]; [discriminate|].
    destruct (runEach World runNxMigration runNgMigration commitChanges
                isVerbose shouldCreateCommits commitPrefix rest w1)
      as [[e|others] w2] eqn:Hrest; [discriminate|].
    intros [= <- _]. specialize (IH _ _ _ Hrest).
    destruct madeChanges; constructor; exact IH.
Qed.

Lemma executeMigrations_sublist migrations w unchanged w' :
  executeMigrations World getStringifiedPackageJsonDeps loadNgCliAdapter
    runNxMigration runNgMigration commitChanges runInstall isVerbose
    shouldCreateCommits commitPrefix migrations w = (inr unchanged, w') ->
  unchanged `sublist_of` migrations.
Proof.
  unfold executeMigrations.
  destruct (getStringifiedPackageJsonDeps w) as [e|before]; [discriminate|].
  destruct (if existsb (fun m => negb (isNx m)) migrations
            then loadNgCliAdapter w else inr ()) as [e|_]; [discriminate|].
  destruct (runEach World runNxMigration runNgMigration commitChanges
              isVerbose shouldCreateCommits commitPrefix migrations w)
    as [[e|others] w1] eqn:Hrun; [discriminate|].
  apply runEach_sublist in Hrun.
  destruct (getStringifiedPackageJsonDeps w1) as [e|after]; [discriminate|].
  destruct (String.eqb before after).
  - intros [= <- _]. exact Hrun.
  - destruct (runInstall w1) as [[e|_] w2]; [discriminate|].
    intros [= <- _]. exact Hrun.
Qed.

Lemma sublist_same_length {A} (l1 l2 : list A) :
  l1 `sublist_of` l2 -> (length l1 <? length l2)%nat = false -> l1 = l2.
Proof.
  intros Hsub Hlen. apply Nat.ltb_ge in Hlen.
  induction Hsub as [|x l1 l2 Hsub IH|x l1 l2 Hsub IH]; simpl in *.
  - reflexivity.
  - f_equal. apply IH. lia.
  - apply sublist_length in Hsub. lia.
Qed.

Lemma runEach_stops before : forall failing after w unchanged w1 e w2,
  runEach World runNxMigration runNgMigration commitChanges isVerbose
    shouldCreateCommits commitPrefix before w = (inr unchanged, w1) ->
  runOne World runNxMigration runNgMigration commitChanges isVerbose
    shouldCreateCommits commitPrefix failing w1 = (inl e, w2) ->
  runEach World runNxMigration runNgMigration commitChanges isVerbose
    shouldCreateCommits commitPrefix (before ++ failing :: after) w
  = (inl e, w2).
Proof.
  induction before as [|m rest IH]; intros failing after w unchanged w1 e w2;
    simpl.
  - intros [= _ <-] ->. reflexivity.
  - destruct (runOne World runNxMigration runNgMigration commitChanges
                isVerbose shouldCreateCommits commitPrefix m w)
      as [[e0|madeChanges] w0]; [discriminate|].
    destruct (runEach World runNxMigration runNgMigration commitChanges
                isVerbose shouldCreateCommits commitPrefix rest w0)
      as [[e0|others] w0'] eqn:Hrest; [discriminate|].
    intros [= _ <-] Hfail. rewrite (IH _ after _ _ _ _ _ Hrest Hfail).
    reflexivity.
Qed.

End Commits.

Lemma runOne_commit commit1 commit2 m w :
  (forall message w, snd (commit1 message w) = snd (commit2 message w)) ->
  runOne World runNxMigration runNgMigration commit1 isVerbose
    shouldCreateCommits commitPrefix m w
  = runOne World runNxMigration runNgMigration commit2 isVerbose
      shouldCreateCommits commitPrefix m w.
Proof.
  intros Hsame. unfold runOne.
  destruct (if isNx m
            then let '(changes, w0) :=
                   runNxMigration (m_package m) (m_name m) w in
                 (match changes with
                  | inl e => inl e
                  | inr n => inr (negb (n <? 1)%nat)
                  end, w0)
            else runNgMigration (m_package m) (m_name m) isVerbose w)
    as [[e|[|]] w1]; try reflexivity.
  destruct shouldCreateCommits; [|reflexivity].
  specialize (Hsame (commitPrefix +:+ m_name m) w1).
  destruct (commit1 (commitPrefix +:+ m_name m) w1),
    (commit2 (commitPrefix +:+ m_name m) w1).
  simpl in Hsame. subst. reflexivity.
Qed.

Lemma runEach_commit commit1 commit2 migrations : forall w,
  (forall message w, snd (commit1 message w) = snd (commit2 message w)) ->
  runEach World runNxMigration runNgMigration commit1 isVerbose
    shouldCreateCommits commitPrefix migrations w
  = runEach World runNxMigration runNgMigration commit2 isVerbose
      shouldCreateCommits commitPrefix migrations w.
Proof.
  intros w Hsame. revert w.
  induction migrations as [|m rest IH]; intros w; simpl; [reflexivity|].
  rewrite (runOne_commit commit1 commit2 m w Hsame).
  destruct (runOne World runNxMigration runNgMigration commit2 isVerbose
              shouldCreateCommits commitPrefix m w) as [[e|madeChanges] w1];
    [reflexivity|].
  rewrite IH. reflexivity.
Qed.

End Facts.

(** X26.  The list that [executeMigrations] returns holds migrations of the
    list it was given, in the order they were given and each at most as often
    as it was given: it is a subsequence of it.  It is as long as the list
    given only if it is that list, in which case no migration made
    changes. *)
Theorem executeMigrations_returns_a_subsequence
    (World : Type)
    (getStringifiedPackageJsonDeps : World -> Exception + string)
    (loadNgCliAdapter : World -> Exception + unit)
    (runNxMigration : string -> string -> World -> (Exception + nat) * World)
    (runNgMigration :
       string -> string -> bool -> World -> (Exception + bool) * World)
    (commitChanges : string -> World -> (Exception + option string) * World)
    (runInstall : World -> (Exception + unit) * World)
    (isVerbose shouldCreateCommits : bool) (commitPrefix : string)
    (migrations : list Migration) (w : World)
    (unchanged : list Migration) (w' : World) :
  executeMigrations World getStringifiedPackageJsonDeps loadNgCliAdapter
    runNxMigration runNgMigration commitChanges runInstall isVerbose
    shouldCreateCommits commitPrefix migrations w = (inr unchanged, w') ->
  unchanged `sublist_of` migrations
  /\ (length unchanged <= length migrations)%nat
  /\ (length unchanged = length migrations -> unchanged = migrations).
Proof.
  intros Hrun. apply executeMigrations_sublist in Hrun.
  split; [exact Hrun|]. split; [apply sublist_length; exact Hrun|].
  intros Hlen. apply sublist_same_length; [exact Hrun|].
  apply Nat.ltb_ge. lia.
Qed.

(** X27.  What [commitChanges] returns or throws does not change what
    [executeMigrations] does: with two ways to commit that leave the
    workspace in the same state, of which one may throw where the other
    returns a hash or [null], the run returns or throws the same and leaves
    the same workspace.  A commit that fails never makes the run fail. *)
Theorem executeMigrations_ignores_the_result_of_commits
    (World : Type)
    (getStringifiedPackageJsonDeps : World -> Exception + string)
    (loadNgCliAdapter : World -> Exception + unit)
    (runNxMigration : string -> string -> World -> (Exception + nat) * World)
    (runNgMigration :
       string -> string -> bool -> World -> (Exception + bool) * World)
    (commit1 commit2 : string -> World -> (Exception + option string) * World)
    (runInstall : World -> (Exception + unit) * World)
    (isVerbose shouldCreateCommits : bool) (commitPrefix : string)
    (migrations : list Migration) (w : World) :
  (forall message w, snd (commit1 message w) = snd (commit2 message w)) ->
  executeMigrations World getStringifiedPackageJsonDeps loadNgCliAdapter
    runNxMigration runNgMigration commit1 runInstall isVerbose
    shouldCreateCommits commitPrefix migrations w
  = executeMigrations World getStringifiedPackageJsonDeps loadNgCliAdapter
      runNxMigration runNgMigration commit2 runInstall isVerbose
      shouldCreateCommits commitPrefix migrations w.
Proof.
  intros Hsame. unfold executeMigrations.
  rewrite (runEach_commit World runNxMigration runNgMigration isVerbose
             shouldCreateCommits commitPrefix commit1 commit2 migrations w
             Hsame).
  reflexivity.
Qed.

(** X28.  A migration that throws ends the run: when the migrations before
    it ran without throwing, [executeMigrations] throws what that migration
    threw and leaves the workspace as that migration left it.  The
    migrations after it are not run, and neither is the install, whatever
    the migrations before it did to the dependencies. *)
Theorem executeMigrations_stops_at_the_first_failure
    (World : Type)
    (getStringifiedPackageJsonDeps : World -> Exception + string)
    (loadNgCliAdapter : World -> Exception + unit)
    (runNxMigration : string -> string -> World -> (Exception + nat) * World)
    (runNgMigration :
       string -> string -> bool -> World -> (Exception + bool) * World)
    (commitChanges : string -> World -> (Exception + option string) * World)
    (runInstall : World -> (Exception + unit) * World)
    (isVerbose shouldCreateCommits : bool) (commitPrefix : string)
    (before : list Migration) (failing : Migration) (after : list Migration)
    (w : World) (deps : string) (unchanged : list Migration) (w1 : World)
    (e : Exception) (w2 : World) :
  getStringifiedPackageJsonDeps w = inr deps ->
  loadNgCliAdapter w = inr tt ->
  runEach World runNxMigration runNgMigration commitChanges isVerbose
    shouldCreateCommits commitPrefix before w = (inr unchanged, w1) ->
  runOne World runNxMigration runNgMigration commitChanges isVerbose
    shouldCreateCommits commitPrefix failing w1 = (inl e, w2) ->
  executeMigrations World getStringifiedPackageJsonDeps loadNgCliAdapter
    runNxMigration runNgMigration commitChanges runInstall isVerbose
    shouldCreateCommits commitPrefix (before ++ failing :: after) w
  = (inl e, w2).
Proof.
  intros Hdeps Hload Hbefore Hfail. unfold executeMigrations.
  rewrite Hdeps.
  destruct (existsb (fun m => negb (isNx m)) (before ++ failing :: after));
    rewrite ?Hload;
    rewrite (runEach_stops World runNxMigration runNgMigration isVerbose
               shouldCreateCommits commitPrefix commitChanges before failing
               after w unchanged w1 e w2 Hbefore Hfail);
    reflexivity.
Qed.

(** X29.  [runMigrations] ends with the message that no changes were made
    exactly when [executeMigrations] returned the whole list of the
    migrations file, and with the message of success when it returned a
    shorter list.  The migrations run in the workspace that the install
    left, which is the workspace given when [NX_MIGRATE_SKIP_INSTALL] is set
    and not empty. *)
Theorem runMigrations_reports_whether_changes_were_made
    (World : Type)
    (getStringifiedPackageJsonDeps : World -> Exception + string)
    (loadNgCliAdapter : World -> Exception + unit)
    (runNxMigration : string -> string -> World -> (Exception + nat) * World)
    (runNgMigration :
       string -> string -> bool -> World -> (Exception + bool) * World)
    (commitChanges : string -> World -> (Exception + option string) * World)
    (runInstall : World -> (Exception + unit) * World)
    (readMigrations : string -> World -> Exception + option (list Migration))
    (isVerbose shouldCreateCommits : bool) (commitPrefix : string)
    (skipInstall : option string) (file : string) (w : World)
    (summary : Summary) (w' : World) :
  runMigrations World getStringifiedPackageJsonDeps loadNgCliAdapter
    runNxMigration runNgMigration commitChanges runInstall readMigrations
    isVerbose shouldCreateCommits commitPrefix skipInstall file w
  = (inr summary, w') ->
  exists w1 migrations unchanged,
    (if Js.truthy skipInstall then w1 = w else runInstall w = (inr tt, w1))
    /\ readMigrations file w1 = inr (Some migrations)
    /\ executeMigrations World getStringifiedPackageJsonDeps loadNgCliAdapter
         runNxMigration runNgMigration commitChanges runInstall isVerbose
         shouldCreateCommits commitPrefix migrations w1 = (inr unchanged, w')
    /\ (summary = NoChangesWereMade <-> unchanged = migrations)
    /\ (summary = SuccessfullyFinished
        <-> (length unchanged < length migrations)%nat).
Proof.
  unfold runMigrations.
  destruct (if negb (Js.truthy skipInstall) then runInstall w else (inr (), w))
    as [[e|[]] w1] eqn:Hinstall; [discriminate|].
  destruct (readMigrations file w1) as [e|[migrations|]] eqn:Hread;
    [discriminate| |destruct (getStringifiedPackageJsonDeps w1); discriminate].
  destruct (executeMigrations World getStringifiedPackageJsonDeps
              loadNgCliAdapter runNxMigration runNgMigration commitChanges
              runInstall isVerbose shouldCreateCommits commitPrefix migrations
              w1) as [[e|unchanged] w2] eqn:Hrun; [discriminate|].
  intros [= <- <-]. exists w1, migrations, unchanged.
  split.
  { destruct (Js.truthy skipInstall); cbn [negb] in Hinstall.
    - injection Hinstall as <-. reflexivity.
    - exact Hinstall. }
  split; [exact Hread|]. split; [exact Hrun|].
  pose proof (executeMigrations_sublist World getStringifiedPackageJsonDeps
                loadNgCliAdapter runNxMigration runNgMigration runInstall
                isVerbose shouldCreateCommits commitPrefix commitChanges
                migrations w1 unchanged w2 Hrun) as Hsub.
  destruct (length unchanged <? length migrations)%nat eqn:Hlen.
  - apply Nat.ltb_lt in Hlen. split; split; try discriminate; auto.
    + intros ->. lia.
  - pose proof (sublist_same_length _ _ Hsub Hlen) as ->.
    split; split; auto; try discriminate. lia.
Qed.

(** A workspace of which the log of what was done to it is kept.  The
    migration named [noop] makes no changes and the one named [broken]
    throws; an Angular migration adds a dependency. *)
Module SampleRun.

Definition World : Type := list string * bool.

Definition getStringifiedPackageJsonDeps (w : World) : Exception + string :=
  inr (if snd w then "[{},{}]" else "[{'tslib':'2.0.0'},{}]").

Definition loadNgCliAdapter (w : World) : Exception + unit := inr tt.

Definition runNxMigration (package name : string) (w : World)
  : (Exception + nat) * World :=
  if String.eqb name "broken"
  then (inl (Error "broken"), (fst w ++ ["run " +:+ name], snd w))
  else (inr (if String.eqb name "noop" then 0%nat else 1%nat),
        (fst w ++ ["run " +:+ name], snd w)).

Definition runNgMigration (package name : string) (isVerbose : bool)
    (w : World) : (Exception + bool) * World :=
  (inr true, (fst w ++ ["run " +:+ name], false)).

Definition commitFails (message : string) (w : World)
  : (Exception + option string) * World :=
  (inl (Error "Error committing changes"), w).

Definition commitWorks (message : string) (w : World)
  : (Exception + option string) * World :=
  (inr (Some "0a1b2c3"), w).

Definition runInstall (w : World) : (Exception + unit) * World :=
  (inr tt, (fst w ++ ["install"], snd w)).

Definition migration (cli : option string) (name : string) : Migration :=
  mkMigration (mkMigrationsJsonEntry (Some "15.0.0") None None None cli None)
    "pkg" name.

Definition migrations : list Migration :=
  [ migration (Some "nx") "noop"; migration (Some "nx") "rename";
    migration None "add-tslib" ].

Definition readMigrations (file : string) (w : World)
  : Exception + option (list Migration) :=
  inr (Some migrations).

Definition clean : World := ([], true).

End SampleRun.

Lemma executeMigrations_returns_a_subsequence_witness :
  [SampleRun.migration (Some "nx") "noop"] `sublist_of` SampleRun.migrations.
Proof.
  exact (proj1
           (executeMigrations_returns_a_subsequence SampleRun.World
              SampleRun.getStringifiedPackageJsonDeps
              SampleRun.loadNgCliAdapter SampleRun.runNxMigration
              SampleRun.runNgMigration SampleRun.commitWorks
              SampleRun.runInstall false true "chore: " SampleRun.migrations
              SampleRun.clean [SampleRun.migration (Some "nx") "noop"]
              (["run noop"; "run rename"; "run add-tslib"; "install"], false)
              eq_refl)).
Defined.

Lemma executeMigrations_ignores_the_result_of_commits_witness :
  executeMigrations SampleRun.World SampleRun.getStringifiedPackageJsonDeps
    SampleRun.loadNgCliAdapter SampleRun.runNxMigration
    SampleRun.runNgMigration SampleRun.commitFails SampleRun.runInstall false
    true "chore: " SampleRun.migrations SampleRun.clean
  = (inr [SampleRun.migration (Some "nx") "noop"],
     (["run noop"; "run rename"; "run add-tslib"; "install"], false)).
Proof.
  rewrite (executeMigrations_ignores_the_result_of_commits SampleRun.World
             SampleRun.getStringifiedPackageJsonDeps
             SampleRun.loadNgCliAdapter SampleRun.runNxMigration
             SampleRun.runNgMigration SampleRun.commitFails
             SampleRun.commitWorks SampleRun.runInstall false true "chore: "
             SampleRun.migrations SampleRun.clean (fun _ _ => eq_refl)).
  reflexivity.
Defined.

Lemma executeMigrations_stops_at_the_first_failure_witness :
  executeMigrations SampleRun.World SampleRun.getStringifiedPackageJsonDeps
    SampleRun.loadNgCliAdapter SampleRun.runNxMigration
    SampleRun.runNgMigration SampleRun.commitWorks SampleRun.runInstall false
    true "chore: "
    ([SampleRun.migration None "add-tslib"]
     ++ SampleRun.migration (Some "nx") "broken"
     :: [SampleRun.migration (Some "nx") "rename"])
    SampleRun.clean
  = (inl (Error "broken"), (["run add-tslib"; "run broken"], false)).
Proof.
  exact (executeMigrations_stops_at_the_first_failure SampleRun.World
           SampleRun.getStringifiedPackageJsonDeps SampleRun.loadNgCliAdapter
           SampleRun.runNxMigration SampleRun.runNgMigration
           SampleRun.commitWorks SampleRun.runInstall false true "chore: "
           [SampleRun.migration None "add-tslib"]
           (SampleRun.migration (Some "nx") "broken")
           [SampleRun.migration (Some "nx") "rename"] SampleRun.clean
           "[{},{}]" [] (["run add-tslib"], false) (Error "broken")
           (["run add-tslib"; "run broken"], false) eq_refl eq_refl eq_refl
           eq_refl).
Defined.

Lemma runMigrations_reports_whether_changes_were_made_witness :
  exists w1 migrations (unchanged : list Migration),
    w1 = SampleRun.clean
    /\ SampleRun.readMigrations "migrations.json" w1 = inr (Some migrations)
    /\ (length unchanged < length migrations)%nat.
Proof.
  destruct (runMigrations_reports_whether_changes_were_made SampleRun.World
              SampleRun.getStringifiedPackageJsonDeps
              SampleRun.loadNgCliAdapter SampleRun.runNxMigration
              SampleRun.runNgMigration SampleRun.commitWorks
              SampleRun.runInstall SampleRun.readMigrations false true
              "chore: " (Some "true") "migrations.json" SampleRun.clean
              SuccessfullyFinished
              (["run noop"; "run rename"; "run add-tslib"; "install"], false)
              eq_refl)
    as (w1 & migrations & unchanged & Hw & Hread & _ & _ & Hlen).
  exists w1, migrations, unchanged.
  split; [exact Hw|]. split; [exact Hread|]. apply Hlen. reflexivity.
Defined.

End RunnerFacts.

(** ** The migrations of a package installed in a temporary directory *)

Module InstallFacts.
Import Install.

Section Facts.

Variable readModulePackageJson :
  string -> string -> Exception + (string * InstalledManifest).
Variable dirname : string -> string.
Variable requireResolve : string -> string -> Exception + string.

(** What [readPackageMigrationConfig] returns for a manifest that was read:
    it does not throw, and a migrations file that it names was resolved from
    the directory of the manifest. *)
Lemma readPackageMigrationConfig_reads packageName dir packageJsonPath json :
  readModulePackageJson packageName dir = inr (packageJsonPath, json) ->
  exists migrations packageGroup,
    readPackageMigrationConfig readModulePackageJson dirname requireResolve
      packageName dir = inr (migrations, packageGroup, json)
    /\ (forall migrationFile,
          migrations = Some migrationFile ->
          exists request,
            requireResolve request (dirname packageJsonPath)
            = inr migrationFile).
Proof.
  intros Hread. unfold readPackageMigrationConfig. rewrite Hread.
  destruct (negb (given (if given (nxMigrations json) then nxMigrations json
                         else ngUpdate json))).
  { eexists _, _. split; [reflexivity | discriminate]. }
  set (migrationsConfig :=
         match (if given (nxMigrations json) then nxMigrations json
                else ngUpdate json) with
         | Some (MigrationsFile path) =>
             Fetcher.mkNxMigrationsConfiguration (Some path)
               (Some (GroupList []))
         | Some (MigrationsConfig config) => config
         | None => Fetcher.mkNxMigrationsConfiguration None None
         end).
  destruct (Fetcher.migrations migrationsConfig) as [request|].
  - destruct (requireResolve request (dirname packageJsonPath))
      as [e|migrationFile] eqn:Hresolve.
    + eexists _, _. split; [reflexivity | discriminate].
    + eexists _, _. split; [reflexivity|].
      intros file [= <-]. exists request. exact Hresolve.
  - eexists _, _. split; [reflexivity | discriminate].
Qed.

End Facts.

(** X30.  Fetching the migrations of a package by installing it fails only
    where it installs or reads: with what the install threw, with what
    reading the manifest of the installed package threw, or with what
    reading the migrations file threw, a file that was resolved from the
    directory of that manifest.  A migrations file that cannot be resolved
    is no failure: when nothing resolves from that directory, the result has
    the version of the manifest and neither updates nor generators. *)
Theorem install_path_fails_only_where_it_installs_or_reads
    (installPackage : string -> string -> Fetcher.Settled unit)
    (readModulePackageJson :
       string -> string -> Exception + (string * InstalledManifest))
    (dirname : string -> string)
    (requireResolve : string -> string -> Exception + string)
    (readJsonFile : string -> Fetcher.Settled Fetcher.MigrationsJson)
    (dir packageName packageVersion : string) :
  (forall e,
     Fetcher.getPackageMigrationsUsingInstall installPackage
       (readInstalled readModulePackageJson dirname requireResolve dir)
       readJsonFile packageName packageVersion = inl e ->
     installPackage packageName packageVersion = inl e
     \/ readModulePackageJson packageName dir = inl e
     \/ exists packageJsonPath json request migrationFile,
          readModulePackageJson packageName dir = inr (packageJsonPath, json)
          /\ requireResolve request (dirname packageJsonPath)
             = inr migrationFile
          /\ readJsonFile migrationFile = inl e)
  /\ (forall packageJsonPath json,
        installPackage packageName packageVersion = inr tt ->
        readModulePackageJson packageName dir = inr (packageJsonPath, json) ->
        (forall request,
           exists e,
             requireResolve request (dirname packageJsonPath) = inl e) ->
        exists packageGroup,
          Fetcher.getPackageMigrationsUsingInstall installPackage
            (readInstalled readModulePackageJson dirname requireResolve dir)
            readJsonFile packageName packageVersion
          = inr (mkConfiguration (version json) None None None packageGroup)).
Proof.
  unfold Fetcher.getPackageMigrationsUsingInstall, readInstalled.
  split.
  - intros e.
    destruct (installPackage packageName packageVersion) as [e0|[]];
      cbv beta iota; [intros [= <-]; auto|].
    destruct (readModulePackageJson packageName dir)
      as [e0|[packageJsonPath json]] eqn:Hread.
    + unfold readPackageMigrationConfig. rewrite Hread. cbv beta iota.
      intros [= <-]. auto.
    + destruct (readPackageMigrationConfig_reads readModulePackageJson dirname
                  requireResolve packageName dir packageJsonPath json Hread)
        as (migrations & packageGroup & -> & Hresolved).
      destruct migrations as [migrationFile|]; cbv beta iota.
      * destruct (Js.truthy (Some migrationFile)); [|discriminate].
        cbn [default id].
        destruct (readJsonFile migrationFile) as [e0|content] eqn:Hfile;
          cbv beta iota; [|discriminate].
        intros [= <-]. right. right.
        destruct (Hresolved migrationFile eq_refl) as (request & Hrequest).
        exists packageJsonPath, json, request, migrationFile. auto.
      * cbn [Js.truthy]. discriminate.
  - intros packageJsonPath json -> Hread Hnothing.
    destruct (readPackageMigrationConfig_reads readModulePackageJson dirname
                requireResolve packageName dir packageJsonPath json Hread)
      as (migrations & packageGroup & -> & Hresolved).
    destruct migrations as [migrationFile|].
    + destruct (Hresolved migrationFile eq_refl) as (request & Hrequest).
      destruct (Hnothing request) as (e & He). congruence.
    + exists packageGroup. reflexivity.
Qed.

(** A package that names a migrations file that its tarball does not
    contain: whatever is resolved from [/tmp/nx/node_modules/pkg] is not
    found. *)
Module SampleInstall.

Definition installPackage (packageName packageVersion : string)
  : Fetcher.Settled unit := inr tt.

Definition manifest : InstalledManifest :=
  mkInstalledManifest (Some (MigrationsFile "./migrations.json")) None "2.1.0".

Definition readModulePackageJson (packageName dir : string)
  : Exception + (string * InstalledManifest) :=
  inr (dir +:+ "/node_modules/" +:+ packageName +:+ "/package.json",
       manifest).

Definition dirname (path : string) : string :=
  default path (fst <$> Js.cutLast "/" path).

Definition requireResolve (request dir : string) : Exception + string :=
  inl (Error "MODULE_NOT_FOUND").

Definition readJsonFile (path : string)
  : Fetcher.Settled Fetcher.MigrationsJson :=
  inl (Error "ENOENT").

End SampleInstall.

Lemma install_path_fails_only_where_it_installs_or_reads_witness :
  exists packageGroup,
    Fetcher.getPackageMigrationsUsingInstall SampleInstall.installPackage
      (readInstalled SampleInstall.readModulePackageJson
         SampleInstall.dirname SampleInstall.requireResolve "/tmp/nx")
      SampleInstall.readJsonFile "pkg" "latest"
    = inr (mkConfiguration "2.1.0" None None None packageGroup).
Proof.
  exact (proj2
           (install_path_fails_only_where_it_installs_or_reads
              SampleInstall.installPackage SampleInstall.readModulePackageJson
              SampleInstall.dirname SampleInstall.requireResolve
              SampleInstall.readJsonFile "/tmp/nx" "pkg" "latest")
           "/tmp/nx/node_modules/pkg/package.json" SampleInstall.manifest
           eq_refl eq_refl
           (fun request =>
              ex_intro _ (Error "MODULE_NOT_FOUND") eq_refl)).
Defined.

End InstallFacts.
